(** * jsonresume-theme-caffine: resume rendering and PDF export

    A shallow embedding of the export pipeline of the theme
    ([generate-resume.js], [export-pdf.js] and their variants) and the
    properties of its header synthesis, input handling and resource
    discipline.

    Layout of the development:
    - [Js]: the fragment of JavaScript values the pipeline touches
      (JSON data, truthiness, property access, string conversion);
    - [Str]: the string primitives used by the code ([toLowerCase],
      [String.prototype.replace] with a string pattern);
    - [Path]: POSIX [path.join] and [path.dirname];
    - [Header]: the header/footer synthesis shared by [export-pdf.js] and
      the header-carrying [generateResumePDF];
    - [Sys]: the world the pipeline runs in (file store, rendering engine,
      console) as a state-and-exception monad;
    - the operations: the blocks shared by the two variants of
      [generateResumePDF], the variants themselves ([Plain] prints
      without header and footer, [Banded] with them),
      [generateResumeHTML], and [exportPDF] in its current ([ExportPdf])
      and earlier ([Legacy]) form and in the form that takes its paths
      and draws the icons ([Iconic]);
    - [Cli]: the command line script [cli.js];
    - [Spec]: the vocabulary of the statements, [Sample]: concrete data;
    - the properties. *)

From Stdlib Require Import Ascii.
From stdpp Require Import base option list strings gmap pretty.

Set Default Proof Using "Type".
Set Warnings "-register-all,-clear-no-such-hyp".

(** ** Results of fallible computations *)

(** The exceptions the pipeline can meet.  [Error] is a plain
    [new Error(message)] thrown by the code itself, [TypeError] and
    [SyntaxError] are raised by the language ([x.f] on [null],
    [JSON.parse]), [SystemError] by [fs] (its [code] is the errno name),
    [EngineError] by the headless rendering engine, and [ThemeError] by
    the template renderer.  The message of a [SystemError] stands for
    the text Node makes of the errno name, the system call and the path
    (e.g. [ENOENT: no such file or directory, open './resume.json']);
    no statement below depends on it. *)
Inductive error : Type :=
| Error (message : string)
| TypeError (message : string)
| SyntaxError (message : string)
| SystemError (code : string) (path : string)
| EngineError (message : string)
| ThemeError (message : string).

Definition error_message (e : error) : string :=
  match e with
  | Error m | TypeError m | SyntaxError m | EngineError m | ThemeError m => m
  | SystemError c p => c +:+ ": " +:+ p
  end.

Inductive result (A : Type) : Type :=
| Ok (a : A)
| Err (e : error).
Arguments Ok {A} a.
Arguments Err {A} e.

#[global] Instance result_ret : MRet result := @Ok.
#[global] Instance result_bind : MBind result := λ A B f m,
  match m with Ok a => f a | Err e => Err e end.

Definition is_ok {A} (r : result A) : bool :=
  match r with Ok _ => true | Err _ => false end.

(** ** JavaScript values *)

Module Js.

(** JSON data as the code sees it after [JSON.parse] or as an in-memory
    object.  Numbers are restricted to the integers that [toString]
    prints in decimal (magnitude below 10^21); an object is the list
    of its own properties in insertion order (keys are unique in a
    JavaScript object, the lookup takes the first binding).  Objects
    are plain data: no property holds a function and none shadows a
    method of [Object.prototype]. *)
Inductive value : Type :=
| VUndefined
| VNull
| VBool (b : bool)
| VNum (n : Z)
| VStr (s : string)
| VArr (items : list value)
| VObj (props : list (string * value)).

(** [typeof v] *)
Definition typeof (v : value) : string :=
  match v with
  | VUndefined => "undefined"
  | VNull => "object"
  | VBool _ => "boolean"
  | VNum _ => "number"
  | VStr _ => "string"
  | VArr _ | VObj _ => "object"
  end.

(** ToBoolean, as used by [if (v)], [v && w] and [v || w]. *)
Definition truthy (v : value) : bool :=
  match v with
  | VUndefined | VNull => false
  | VBool b => b
  | VNum n => negb (n =? 0)%Z
  | VStr s => negb (String.eqb s "")
  | VArr _ | VObj _ => true
  end.

Fixpoint assoc (k : string) (props : list (string * value)) : option value :=
  match props with
  | [] => None
  | (k', v) :: rest => if String.eqb k k' then Some v else assoc k rest
  end.

(** [v.k] for a property name [k] that no prototype defines (the
    pipeline reads [basics], [name], [phone], [email], [profiles],
    [network] and [url] only): a [TypeError] on [undefined] and [null],
    the own property of an object, [undefined] everywhere else. *)
Definition get (k : string) (v : value) : result value :=
  match v with
  | VUndefined =>
      Err (TypeError ("Cannot read properties of undefined (reading '" +:+ k +:+ "')"))
  | VNull =>
      Err (TypeError ("Cannot read properties of null (reading '" +:+ k +:+ "')"))
  | VObj props => Ok (default VUndefined (assoc k props))
  | VBool _ | VNum _ | VStr _ | VArr _ => Ok VUndefined
  end.

(** [a || b] *)
Definition or (a b : value) : value := if truthy a then a else b.

Fixpoint join (sep : string) (parts : list string) : string :=
  match parts with
  | [] => ""
  | [p] => p
  | p :: rest => p +:+ sep +:+ join sep rest
  end.

(** ToString, as applied to [${v}] in a template literal.  An array
    prints its items separated by commas, [null] and [undefined] items
    as nothing. *)
Fixpoint toString (v : value) : string :=
  match v with
  | VUndefined => "undefined"
  | VNull => "null"
  | VBool true => "true"
  | VBool false => "false"
  | VNum n => pretty n
  | VStr s => s
  | VArr items =>
      join "," (map (λ x, match x with
                          | VUndefined | VNull => ""
                          | _ => toString x
                          end) items)
  | VObj _ => "[object Object]"
  end.

End Js.

(** ** String primitives *)

Module Str.

(** Strings are sequences of bytes, the UTF-8 encoding of the
    JavaScript string. *)

(** The letters A-Z are mapped to a-z and every other byte is kept. *)
Definition lower_ascii (c : ascii) : ascii :=
  let n := nat_of_ascii c in
  if (65 <=? n) && (n <=? 90) then ascii_of_nat (n + 32) else c.

(** The bytes [E2 84 AA] of U+212A KELVIN SIGN, whose lower case is the
    letter [k]. *)
Definition is_kelvin (c c1 c2 : ascii) : bool :=
  Ascii.eqb c "226" && Ascii.eqb c1 "132" && Ascii.eqb c2 "170".

(** The bytes [C4 B0] of U+0130 LATIN CAPITAL LETTER I WITH DOT ABOVE,
    whose lower case is the letter [i] followed by U+0307 COMBINING DOT
    ABOVE (bytes [CC 87]). *)
Definition is_dotted_I (c c1 : ascii) : bool :=
  Ascii.eqb c "196" && Ascii.eqb c1 "176".

(** [s.toLowerCase()].  The lower case of Unicode is followed on every
    character whose lower case holds an ASCII letter: the letters A-Z
    and the two characters above.  Every other character is kept as it
    is; its lower case in JavaScript holds no ASCII character either, so
    that comparing the result with an ASCII string, which is all the
    code does with it, comes out as in JavaScript. *)
Fixpoint toLowerCase (s : string) : string :=
  match s with
  | EmptyString => EmptyString
  | String c s' =>
      let plain := String (lower_ascii c) (toLowerCase s') in
      match s' with
      | String c1 s'' =>
          if is_dotted_I c c1 then
            String "i" (String "204" (String "135" (toLowerCase s'')))
          else
            match s'' with
            | String c2 rest =>
                if is_kelvin c c1 c2 then String "k" (toLowerCase rest)
                else plain
            | EmptyString => plain
            end
      | EmptyString => plain
      end
  end.

Fixpoint drop (n : nat) (s : string) : string :=
  match n, s with
  | 0, _ => s
  | S n', String _ s' => drop n' s'
  | S _, EmptyString => EmptyString
  end.

(** [s.replace(pat, rep)] for a string pattern [pat] and a replacement
    [rep] without [$]: the leftmost occurrence of [pat] is replaced, the
    rest of [s] is copied; [s] is returned as it is when [pat] does not
    occur. *)
Fixpoint replace (pat rep s : string) : string :=
  if String.prefix pat s then rep +:+ drop (String.length pat) s
  else match s with
       | EmptyString => EmptyString
       | String c s' => String c (replace pat rep s')
       end.

(** [s.includes(pat)] *)
Fixpoint includes (pat s : string) : bool :=
  String.prefix pat s ||
  match s with
  | EmptyString => false
  | String _ s' => includes pat s'
  end.

Fixpoint map_chars (f : ascii → ascii) (s : string) : string :=
  match s with
  | EmptyString => EmptyString
  | String c s' => String (f c) (map_chars f s')
  end.

(** The double quote character. *)
Definition dquote : ascii := "034"%char.

(** The HTML literals of the source are full of double quotes.  They
    are written here with a single quote in place of each double quote
    (none of them holds a single quote of its own) and [html] puts the
    double quotes back. *)
Definition html (s : string) : string :=
  map_chars (λ c, if Ascii.eqb c "'"%char then dquote else c) s.

(** Line feed. *)
Definition nl : string := String "010"%char EmptyString.

End Str.

(** ** Paths *)

(** [path.join] and [path.dirname] of Node.js on a POSIX system, after
    [lib/path.js]. *)
Module Path.

Definition slash : ascii := "/"%char.

Definition starts_with_slash (p : string) : bool :=
  match p with
  | String c _ => Ascii.eqb c slash
  | EmptyString => false
  end.

Fixpoint ends_with_slash (p : string) : bool :=
  match p with
  | EmptyString => false
  | String c EmptyString => Ascii.eqb c slash
  | String _ p' => ends_with_slash p'
  end.

(** The segments of a path: the text between its separators. *)
Fixpoint split (p : string) : list string :=
  match p with
  | EmptyString => [EmptyString]
  | String c p' =>
      if Ascii.eqb c slash then EmptyString :: split p'
      else match split p' with
           | seg :: rest => String c seg :: rest
           | [] => [String c EmptyString]
           end
  end.

(** One segment of [normalizeString].  [stack] holds the segments kept
    so far, the last one first.  Empty segments and [.] are dropped,
    [..] removes the segment before it, or is kept when there is none to
    remove and the path is relative. *)
Definition normalize_step (allowAboveRoot : bool) (stack : list string)
    (seg : string) : list string :=
  if String.eqb seg "" || String.eqb seg "." then stack
  else if String.eqb seg ".." then
    match stack with
    | top :: rest =>
        if String.eqb top ".." then
          (if allowAboveRoot then ".." :: stack else stack)
        else rest
    | [] => if allowAboveRoot then [".."] else []
    end
  else seg :: stack.

Definition normalizeString (p : string) (allowAboveRoot : bool) : string :=
  Js.join "/" (rev (fold_left (normalize_step allowAboveRoot) (split p) [])).

(** [path.normalize] *)
Definition normalize (p : string) : string :=
  if String.eqb p "" then "."
  else
    let isAbsolute := starts_with_slash p in
    let trailingSeparator := ends_with_slash p in
    let q := normalizeString p (negb isAbsolute) in
    if String.eqb q "" then
      (if isAbsolute then "/" else if trailingSeparator then "./" else ".")
    else
      let q := if trailingSeparator then q +:+ "/" else q in
      if isAbsolute then "/" +:+ q else q.

(** [path.join(a, b)] *)
Definition join (a b : string) : string :=
  let joined :=
    match String.eqb a "", String.eqb b "" with
    | true, true => None
    | true, false => Some b
    | false, true => Some a
    | false, false => Some (a +:+ "/" +:+ b)
    end in
  match joined with
  | None => "."
  | Some j => normalize j
  end.

(** The scan of [path.dirname], from the right end of the path: [rest]
    is the reversed path without its first character, [matchedSlash] is
    true until a character other than a separator has been seen.  The
    result is the position [end] of the separator that closes the
    directory part, if there is one. *)
Fixpoint dirname_end (rest : list ascii) (matchedSlash : bool) : option nat :=
  match rest with
  | [] => None
  | c :: rest' =>
      if Ascii.eqb c slash then
        (if matchedSlash then dirname_end rest' matchedSlash
         else Some (S (length rest')))
      else dirname_end rest' false
  end.

Fixpoint take (n : nat) (s : string) : string :=
  match n, s with
  | S n', String c s' => String c (take n' s')
  | _, _ => EmptyString
  end.

(** [path.dirname] *)
Definition dirname (p : string) : string :=
  match p with
  | EmptyString => "."
  | String c0 p' =>
      let hasRoot := Ascii.eqb c0 slash in
      match dirname_end (rev (String.list_ascii_of_string p')) true with
      | None => if hasRoot then "/" else "."
      | Some e => if hasRoot && (e =? 1) then "//" else take e p
      end
  end.

End Path.

(** ** Header and footer synthesis *)

(** The code below is the header block of [exportPDF] in [export-pdf.js]
    (lines 36-84); the header-carrying [generateResumePDF] holds the same
    block, character for character (lines 70-124 of that file). *)

Module Header.
Import Js Str.

(** [<span style="margin: 0 8px; color: #999;">|</span>] *)
Definition divider : string :=
  html "<span style='margin: 0 8px; color: #999;'>|</span>".

Definition linkedinLink (url : string) : string :=
  html "<span style='display: inline;'>🔗 <a href='" +:+ url +:+
  html "' target='_blank' style='color: #0066cc; text-decoration: none;'>LinkedIn</a></span>".

Definition phoneSpan (phone : string) : string :=
  html "<span style='display: inline;'>📞 " +:+ phone +:+ "</span>".

Definition emailLink (email : string) : string :=
  html "<span style='display: inline;'>✉ <a href='mailto:" +:+ email +:+
  html "' style='color: #0066cc; text-decoration: none;'>" +:+ email +:+
  "</a></span>".

Definition githubLink (url : string) : string :=
  html "<span style='display: inline;'>💻 <a href='" +:+ url +:+
  html "' target='_blank' style='color: #0066cc; text-decoration: none;'>GitHub</a></span>".

(** [s.toLowerCase()] on a value that is already known to be truthy: the
    method exists on strings only. *)
Definition toLowerCase_value (v : value) : result string :=
  match v with
  | VStr s => Ok (toLowerCase s)
  | _ => Err (TypeError "p.network.toLowerCase is not a function")
  end.

(** The callback [p => p.network && p.network.toLowerCase() === target],
    with [target] one of ['linkedin'] and ['github']. *)
Definition isNetwork (target : string) (p : value) : result value :=
  network ← get "network" p;
  if truthy network then
    lower ← toLowerCase_value network;
    mret (VBool (String.eqb lower target))
  else mret network.

(** [Array.prototype.find]: the first item on which the callback returns
    a truthy value, [undefined] when there is none. *)
Fixpoint find (f : value → result value) (items : list value) : result value :=
  match items with
  | [] => Ok VUndefined
  | x :: rest => r ← f x; if truthy r then Ok x else find f rest
  end.

(** [profiles.find(f)] on a truthy [profiles]: only arrays have the
    method. *)
Definition profiles_find (f : value → result value) (profiles : value)
  : result value :=
  match profiles with
  | VArr items => find f items
  | _ => Err (TypeError "basics.profiles.find is not a function")
  end.

(** The four blocks that append to [contactInfo], in the order of the
    source; each returns the text it appends. *)

(** [// LinkedIn] *)
Definition linkedinPart (basics : value) : result string :=
  profiles ← get "profiles" basics;
  if truthy profiles then
    linkedin ← profiles_find (isNetwork "linkedin") profiles;
    if truthy linkedin then
      url ← get "url" linkedin;
      mret (linkedinLink (toString url) +:+ divider)
    else mret ""
  else mret "".

(** [// Phone] *)
Definition phonePart (basics : value) : result string :=
  phone ← get "phone" basics;
  if truthy phone then mret (phoneSpan (toString phone) +:+ divider)
  else mret "".

(** [// Email] *)
Definition emailPart (basics : value) : result string :=
  email ← get "email" basics;
  if truthy email then mret (emailLink (toString email))
  else mret "".

(** [// GitHub] *)
Definition githubPart (basics : value) : result string :=
  profiles ← get "profiles" basics;
  if truthy profiles then
    github ← profiles_find (isNetwork "github") profiles;
    if truthy github then
      url ← get "url" github;
      mret (divider +:+ githubLink (toString url))
    else mret ""
  else mret "".

(** [let contactInfo = ''] followed by the four [+=]. *)
Definition contactInfo (basics : value) : result string :=
  let contactInfo := "" in
  l ← linkedinPart basics;
  let contactInfo := contactInfo +:+ l in
  p ← phonePart basics;
  let contactInfo := contactInfo +:+ p in
  e ← emailPart basics;
  let contactInfo := contactInfo +:+ e in
  g ← githubPart basics;
  let contactInfo := contactInfo +:+ g in
  mret contactInfo.

(** [const basics = resumeData.basics || {}] *)
Definition basicsOf (resumeData : value) : result value :=
  b ← get "basics" resumeData;
  mret (or b (VObj [])).

(** [${basics.name || ''}] *)
Definition displayName (basics : value) : result string :=
  name ← get "name" basics;
  mret (toString (or name (VStr ""))).

(** The [headerTemplate] literal around its two holes. *)
Definition headerMarkup (name strip : string) : string :=
  nl +:+
  html "        <div style='font-size: 10px; text-align: center; width: 100%; padding: 10px 0; border-bottom: 1px solid #e0e0e0; color: #666;'>" +:+ nl +:+
  html "          <h1 style='margin: 0 0 8px 0; font-size: 18px; font-weight: 500; color: #333;'>" +:+ name +:+ "</h1>" +:+ nl +:+
  html "          <div style='font-size: 10px; color: #666;'>" +:+ nl +:+
  "            " +:+ strip +:+ nl +:+
  "          </div>" +:+ nl +:+
  "        </div>" +:+ nl +:+
  "      ".

(** The evaluation order of the source: [basics], then the contact strip,
    then, inside the call of [page.pdf], the display name. *)
Definition headerTemplate (resumeData : value) : result string :=
  basics ← basicsOf resumeData;
  strip ← contactInfo basics;
  name ← displayName basics;
  mret (headerMarkup name strip).

Definition footerTemplate : string :=
  nl +:+
  html "        <div style='font-size: 10px; text-align: center; width: 100%; padding: 10px 0; border-top: 1px solid #e0e0e0; color: #666;'>" +:+ nl +:+
  html "          <span>Page <span class='pageNumber'></span> of <span class='totalPages'></span></span>" +:+ nl +:+
  "        </div>" +:+ nl +:+
  "      ".

(** [html.replace('<style>', '<style>\n    .resume-header { display: none !important; }\n')] *)
Definition hideHeaderRule : string :=
  "<style>" +:+ nl +:+ "    .resume-header { display: none !important; }" +:+ nl.

Definition htmlWithHiddenHeader (html : string) : string :=
  replace "<style>" hideHeaderRule html.

End Header.

(** ** The world of the pipeline *)

Module Sys.
Import Js.

(** An entry of the file store.  The store maps a path, as the code
    passes it to [fs], to what is there; the directory tree above an
    entry is not modelled. *)
Inductive node : Type :=
| File (content : string)
| Dir.

(** The options object given to [page.pdf]. *)
Record PdfOptions : Type := {
  path : string;
  format : string;
  printBackground : bool;
  displayHeaderFooter : bool;
  headerTemplate : option string;
  footerTemplate : option string;
  margin : list (string * string)
}.

(** The calls that leave the program: the calls to [fs] (an existence
    check is recorded with its answer) and the calls to the headless
    rendering engine. *)
Inductive call : Type :=
| ExistsSync (p : string) (found : bool)
| ReadFile (p : string)
| WriteFile (p : string) (data : string)
| Mkdir (p : string)
| Unlink (p : string)
| Launch
| NewPage
| SetContent (html : string)
| PagePdf (html : string) (o : PdfOptions)
| BrowserClose
| ProcessExit (code : nat).

#[global] Instance node_eq_dec : EqDecision node.
Proof. solve_decision. Defined.
#[global] Instance PdfOptions_eq_dec : EqDecision PdfOptions.
Proof. solve_decision. Defined.
#[global] Instance call_eq_dec : EqDecision call.
Proof. solve_decision. Defined.

(** What the program does not decide.  [theme_render] is [render] of
    the theme's [index.js], which these sources require but do not hold;
    [JSON_parse] and [JSON_stringify] are the built-ins
    ([JSON.stringify(v, null, 2)] for the latter); [Date_now] is the
    reading of the clock in milliseconds; [fault c] is the exception
    with which the call [c] fails on this run, if it does; [pdf_bytes] is
    what the engine prints for a page content and its options. *)
Record Env : Type := {
  theme_render : value → result string;
  JSON_parse : string → result value;
  JSON_stringify : value → string;
  Date_now : Z;
  fault : call → option error;
  pdf_bytes : string → PdfOptions → string
}.

(** The state the program acts on: the file store, the number of
    rendering engine processes that are running, the calls that went
    through, oldest first, and the lines written to the console.

    The store is keyed by the paths as the program writes them.  It
    does not resolve them: two spellings of one file (as [resume.json]
    and [./resume.json]) are two entries, and an entry says nothing of
    its ancestors.  What is stated on the store is stated on the entry
    at a path as written; what is stated on the calls is stated on
    their arguments and holds whatever the paths resolve to. *)
Record World : Type := {
  fs : gmap string node;
  engines : nat;
  calls : list call;
  console : list string
}.

Definition initial (files : gmap string node) : World :=
  {| fs := files; engines := 0; calls := []; console := [] |}.

(** State and exceptions: a thrown exception keeps the state reached. *)
Definition M (A : Type) : Type := World → World * result A.

#[global] Instance M_ret : MRet M := λ A a w, (w, Ok a).
#[global] Instance M_bind : MBind M := λ A B k m w,
  match m w with
  | (w', Ok a) => k a w'
  | (w', Err e) => (w', Err e)
  end.

Definition throw {A} (e : error) : M A := λ w, (w, Err e).

(** A pure computation that may throw. *)
Definition lift {A} (r : result A) : M A := λ w, (w, r).

(** [try { body } catch (error) { handler }] *)
Definition try_catch {A} (body : M A) (handler : error → M A) : M A := λ w,
  match body w with
  | (w', Ok a) => (w', Ok a)
  | (w', Err e) => handler e w'
  end.

Definition console_log (line : string) : M () := λ w,
  ({| fs := fs w; engines := engines w; calls := calls w;
      console := console w ++ [line] |}, Ok ()).

(** [console.error] and [console.log] write to different streams; the
    model keeps the lines on one list. *)
Definition console_error (line : string) : M () := console_log line.

Section Calls.
Variable env : Env.

(** [process.exit(code)], the last statement of the handlers that use
    it. *)
Definition processExit (code : nat) : M () := λ w,
  ({| fs := fs w; engines := engines w;
      calls := calls w ++ [ProcessExit code]; console := console w |}, Ok ()).

(** A call that leaves the program: it fails with the fault the
    environment holds for it, or goes through, is recorded and has the
    effect [eff] on the store and the engine count. *)
Definition perform (c : call)
    (eff : gmap string node * nat → gmap string node * nat) : M () := λ w,
  match fault env c with
  | Some e => (w, Err e)
  | None =>
      let '(files, n) := eff (fs w, engines w) in
      ({| fs := files; engines := n; calls := calls w ++ [c];
          console := console w |}, Ok ())
  end.

(** [fs.existsSync(p)] *)
Definition existsSync (p : string) : M bool := λ w,
  let found := bool_decide (is_Some (fs w !! p)) in
  ({| fs := fs w; engines := engines w;
      calls := calls w ++ [ExistsSync p found]; console := console w |},
   Ok found).

(** [fs.readFileSync(p, 'utf-8')] *)
Definition readFileSync (p : string) : M string := λ w,
  match fs w !! p with
  | None => (w, Err (SystemError "ENOENT" p))
  | Some Dir => (w, Err (SystemError "EISDIR" p))
  | Some (File content) =>
      (perform (ReadFile p) id ;; mret content) w
  end.

(** [fs.writeFileSync(p, data)] *)
Definition writeFileSync (p data : string) : M () := λ w,
  match fs w !! p with
  | Some Dir => (w, Err (SystemError "EISDIR" p))
  | _ => perform (WriteFile p data)
           (λ '(files, n), (<[p := File data]> files, n)) w
  end.

(** [fs.mkdirSync(p, { recursive: true })]: nothing to do on a
    directory that exists.  The store records the entry of [p]; the
    missing ancestors that the call creates on the way are not
    entries of their own. *)
Definition mkdirSync (p : string) : M () := λ w,
  match fs w !! p with
  | Some Dir => (w, Ok ())
  | Some (File _) => (w, Err (SystemError "EEXIST" p))
  | None => perform (Mkdir p) (λ '(files, n), (<[p := Dir]> files, n)) w
  end.

(** [fs.unlinkSync(p)] *)
Definition unlinkSync (p : string) : M () := λ w,
  match fs w !! p with
  | None => (w, Err (SystemError "ENOENT" p))
  | Some Dir => (w, Err (SystemError "EISDIR" p))
  | Some (File _) =>
      perform (Unlink p) (λ '(files, n), (delete p files, n)) w
  end.

(** [puppeteer.launch(...)]: one more engine process. *)
Definition launch : M () :=
  perform Launch (λ '(files, n), (files, S n)).

(** [browser.newPage()] *)
Definition newPage : M () := perform NewPage id.

(** [page.setContent(html, { waitUntil: 'networkidle0' })] *)
Definition setContent (html : string) : M () := perform (SetContent html) id.

(** [page.pdf(o)] on a page whose content is [html]: the printed bytes
    are written at [o.path]. *)
Definition pagePdf (html : string) (o : PdfOptions) : M () := λ w,
  match fs w !! path o with
  | Some Dir => (w, Err (SystemError "EISDIR" (path o)))
  | _ => perform (PagePdf html o)
           (λ '(files, n), (<[path o := File (pdf_bytes env html o)]> files, n)) w
  end.

(** [browser.close()]: the engine process is gone. *)
Definition browserClose : M () :=
  perform BrowserClose (λ '(files, n), (files, pred n)).

End Calls.
End Sys.

(** ** The pipeline *)

(** The argument of [generateResumePDF]: [{ resume, outputPath, tmpDir }],
    [tmpDir] optional. *)
Record Options : Type := {
  resume : Js.value;
  outputPath : string;
  tmpDir : option string
}.

(** The text of the rejection of an input that is neither a path nor an
    object. *)
Definition rejection : error :=
  Error "Resume must be either a JSON object or a file path string".

(** [`Resume file not found at: ${resumePath}`] *)
Definition notFound (resumePath : string) : error :=
  Error ("Resume file not found at: " +:+ resumePath).

(** [`resume_${timestamp}.json`] *)
Definition transientName (timestamp : Z) : string :=
  "resume_" +:+ pretty timestamp +:+ ".json".

Section Pipeline.
Import Js Sys.
Variable env : Env.

(** [// Handle resume input - can be object or file path]: the first
    block of [generateResumePDF], lines 22-43.  It yields [resumeData]
    and [resumePath]. *)
Definition loadResume (resume : value) (tmpDir : string)
  : M (value * string) :=
  if String.eqb (typeof resume) "string" then
    (* It's a file path *)
    let resumePath := toString resume in
    found ← existsSync resumePath;
    if negb found then throw (notFound resumePath)
    else
      text ← readFileSync env resumePath;
      resumeData ← lift (JSON_parse env text);
      mret (resumeData, resumePath)
  else if String.eqb (typeof resume) "object" then
    (* It's a resume object - write to tmp file *)
    let timestamp := Date_now env in
    let resumePath := Path.join tmpDir (transientName timestamp) in
    (* Ensure tmp directory exists *)
    found ← existsSync tmpDir;
    (if negb found then mkdirSync env tmpDir else mret ());;
    writeFileSync env resumePath (JSON_stringify env resume);;
    mret (resume, resumePath)
  else throw rejection.

(** [// Ensure output directory exists] *)
Definition ensureOutputDir (outputPath : string) : M () :=
  let outputDir := Path.dirname outputPath in
  found ← existsSync outputDir;
  if negb found then mkdirSync env outputDir else mret ().

(** [// Clean up tmp file if we created one] *)
Definition cleanUp (resume : value) (resumePath : string) : M () :=
  if String.eqb (typeof resume) "object" then
    found ← existsSync resumePath;
    if (found : bool) then unlinkSync env resumePath else mret ()
  else mret ().

(** The [catch] block of [generateResumePDF]. *)
Definition reportPDF {A} (error : error) : M A :=
  console_error ("❌ Error generating PDF: " +:+ error_message error);;
  throw error.

End Pipeline.

(** [generateResumePDF] of [generate-resume.js]: the page is printed
    without header and footer. *)
Module Plain.
Section Plain.
Import Js Sys.
Variable env : Env.

Definition pdfOptions (outputPath : string) : PdfOptions :=
  {| path := outputPath;
     format := "A4";
     printBackground := true;
     displayHeaderFooter := false;
     headerTemplate := None;
     footerTemplate := None;
     margin := [("top", "30px"); ("bottom", "0px");
                ("left", "0px"); ("right", "0px")] |}.

Definition generateResumePDF (options : Options) : M string :=
  let resume := resume options in
  let outputPath := outputPath options in
  let tmpDir := default "/tmp" (tmpDir options) in
  try_catch
    ('(resumeData, resumePath) ← loadResume env resume tmpDir;
     (* Render HTML using the theme *)
     html ← lift (theme_render env resumeData);
     launch env;;
     newPage env;;
     setContent env html;;
     ensureOutputDir env outputPath;;
     (* Generate PDF without header and footer *)
     pagePdf env html (pdfOptions outputPath);;
     browserClose env;;
     cleanUp env resume resumePath;;
     console_log ("✅ PDF generated successfully: " +:+ outputPath);;
     mret outputPath)
    reportPDF.

End Plain.
End Plain.

(** [generateResumePDF] of the variant of [generate-resume.js] that
    prints the repeating header and footer. *)
Module Banded.
Section Banded.
Import Js Sys.
Variable env : Env.

Definition pdfOptions (outputPath name strip : string) : PdfOptions :=
  {| path := outputPath;
     format := "A4";
     printBackground := true;
     displayHeaderFooter := true;
     headerTemplate := Some (Header.headerMarkup name strip);
     footerTemplate := Some Header.footerTemplate;
     margin := [("top", "80px"); ("bottom", "30px")] |}.

Definition generateResumePDF (options : Options) : M string :=
  let resume := resume options in
  let outputPath := outputPath options in
  let tmpDir := default "/tmp" (tmpDir options) in
  try_catch
    ('(resumeData, resumePath) ← loadResume env resume tmpDir;
     (* Render HTML using the theme *)
     html ← lift (theme_render env resumeData);
     launch env;;
     newPage env;;
     (* Hide the header in the main HTML *)
     let htmlWithHiddenHeader := Header.htmlWithHiddenHeader html in
     setContent env htmlWithHiddenHeader;;
     (* Build header template from resume data *)
     basics ← lift (Header.basicsOf resumeData);
     contactInfo ← lift (Header.contactInfo basics);
     ensureOutputDir env outputPath;;
     (* Generate PDF with repeatable header and footer *)
     name ← lift (Header.displayName basics);
     pagePdf env htmlWithHiddenHeader (pdfOptions outputPath name contactInfo);;
     browserClose env;;
     cleanUp env resume resumePath;;
     console_log ("✅ PDF generated successfully: " +:+ outputPath);;
     mret outputPath)
    reportPDF.

End Banded.
End Banded.

(** [exportPDF] of [export-pdf.js]: [./resume.json] is printed to
    [resume.pdf] with the repeating header and footer.  (A further
    variant takes the two paths as arguments and draws the icons of the
    two links as inline SVG; its header block is the same otherwise.) *)
Module ExportPdf.
Section ExportPdf.
Import Js Sys.
Variable env : Env.

(** The [catch] block of [exportPDF]. *)
Definition reportAndExit (error : error) : M () :=
  console_error ("❌ Error exporting PDF: " +:+ error_message error);;
  processExit 1.

Definition pdfOptions (name strip : string) : PdfOptions :=
  {| path := "resume.pdf";
     format := "A4";
     printBackground := true;
     displayHeaderFooter := true;
     headerTemplate := Some (Header.headerMarkup name strip);
     footerTemplate := Some Header.footerTemplate;
     margin := [("top", "80px"); ("bottom", "30px")] |}.

Definition exportPDF : M () :=
  try_catch
    ((* Read resume.json *)
     text ← readFileSync env "./resume.json";
     resumeData ← lift (JSON_parse env text);
     (* Render HTML using the theme *)
     html ← lift (theme_render env resumeData);
     launch env;;
     newPage env;;
     (* Hide the header in the main HTML *)
     let htmlWithHiddenHeader := Header.htmlWithHiddenHeader html in
     setContent env htmlWithHiddenHeader;;
     (* Build header template from resume data *)
     basics ← lift (Header.basicsOf resumeData);
     contactInfo ← lift (Header.contactInfo basics);
     (* Generate PDF with repeatable header and footer *)
     name ← lift (Header.displayName basics);
     pagePdf env htmlWithHiddenHeader (pdfOptions name contactInfo);;
     browserClose env;;
     console_log "✅ PDF exported successfully to resume.pdf")
    reportAndExit.

End ExportPdf.
End ExportPdf.

(** [exportPDF] of the earlier variant of [export-pdf.js]: the header is
    the name followed by [- Resume], without a contact strip, and
    [resumeData.basics.name] is read as it is. *)
Module Legacy.
Section Legacy.
Import Js Str Sys.
Variable env : Env.

(** The [headerTemplate] literal around its hole. *)
Definition headerMarkup (name : string) : string :=
  nl +:+
  html "        <div style='font-size: 10px; text-align: center; width: 100%; padding: 10px 0; border-bottom: 1px solid #e0e0e0; color: #666;'>" +:+ nl +:+
  "          <span>" +:+ name +:+ " - Resume</span>" +:+ nl +:+
  "        </div>" +:+ nl +:+
  "      ".

(** [${resumeData.basics.name} - Resume] *)
Definition headerTemplate (resumeData : value) : result string :=
  basics ← get "basics" resumeData;
  name ← get "name" basics;
  mret (headerMarkup (toString name)).

Definition pdfOptions (header : string) : PdfOptions :=
  {| path := "resume.pdf";
     format := "A4";
     printBackground := true;
     displayHeaderFooter := true;
     Sys.headerTemplate := Some header;
     footerTemplate := Some Header.footerTemplate;
     margin := [("top", "80px"); ("right", "40px");
                ("bottom", "80px"); ("left", "40px")] |}.

Definition exportPDF : M () :=
  try_catch
    ((* Read resume.json *)
     text ← readFileSync env "./resume.json";
     resumeData ← lift (JSON_parse env text);
     (* Render HTML using the theme *)
     html ← lift (theme_render env resumeData);
     launch env;;
     newPage env;;
     setContent env html;;
     (* Generate PDF with repeatable header and footer *)
     header ← lift (headerTemplate resumeData);
     pagePdf env html (pdfOptions header);;
     browserClose env;;
     console_log "✅ PDF exported successfully to resume.pdf")
    (ExportPdf.reportAndExit).

End Legacy.
End Legacy.

(** [exportPDF] of the variant of [export-pdf.js] that takes the path
    of the resume and the path of the PDF, checks that the resume is
    there, and draws the icons of the two links as inline SVG. *)
Module Iconic.
Import Js Str Sys.

Definition linkedinLink (url : string) : string :=
  html "<span style='display: inline;'><svg height='12' width='12' viewBox='0 0 24 24' fill='#0A66C2' style='vertical-align: middle; margin-right: 4px;'><path d='M20.5 2h-17A1.5 1.5 0 002 3.5v17A1.5 1.5 0 003.5 22h17a1.5 1.5 0 001.5-1.5v-17A1.5 1.5 0 0020.5 2zM8 19H5v-9h3zM6.5 8.25A1.75 1.75 0 118.3 6.5a1.78 1.78 0 01-1.8 1.75zM19 19h-3v-4.74c0-1.42-.6-1.93-1.38-1.93A1.74 1.74 0 0013 14.19a.66.66 0 000 .14V19h-3v-9h2.9v1.3a3.11 3.11 0 012.7-1.4c1.55 0 3.36.86 3.36 3.66z'></path></svg> <a href='" +:+ url +:+
  html "' target='_blank' style='color: #0066cc; text-decoration: none;'>LinkedIn</a></span>".

Definition githubLink (url : string) : string :=
  html "<span style='display: inline;'><svg height='12' width='12' viewBox='0 0 16 16' fill='currentColor' style='vertical-align: middle; margin-right: 4px;'><path d='M8 0c4.42 0 8 3.58 8 8a8.013 8.013 0 0 1-5.45 7.59c-.4.08-.55-.17-.55-.38 0-.27.01-1.13.01-2.2 0-.75-.25-1.23-.54-1.48 1.78-.2 3.65-.88 3.65-3.95 0-.88-.31-1.59-.82-2.15.08-.2.36-1.02-.08-2.12 0 0-.67-.22-2.2.82-.64-.18-1.32-.27-2-.27-.68 0-1.36.09-2 .27-1.53-1.03-2.2-.82-2.2-.82-.44 1.1-.16 1.92-.08 2.12-.51.56-.82 1.28-.82 2.15 0 3.06 1.86 3.75 3.64 3.95-.23.2-.44.55-.51 1.07-.46.21-1.61.55-2.33-.66-.15-.24-.6-.83-1.23-.82-.67.01-.27.38.01.53.34.19.73.9.82 1.13.16.45.68 1.31 2.69.94 0 .67.01 1.3.01 1.49 0 .21-.15.45-.55.38A7.995 7.995 0 0 1 0 8c0-4.42 3.58-8 8-8Z'></path></svg> <a href='" +:+ url +:+
  html "' target='_blank' style='color: #0066cc; text-decoration: none;'>GitHub</a></span>".

(** [// LinkedIn] *)
Definition linkedinPart (basics : value) : result string :=
  profiles ← get "profiles" basics;
  if truthy profiles then
    linkedin ← Header.profiles_find (Header.isNetwork "linkedin") profiles;
    if truthy linkedin then
      url ← get "url" linkedin;
      mret (linkedinLink (toString url) +:+ Header.divider)
    else mret ""
  else mret "".

(** [// GitHub] *)
Definition githubPart (basics : value) : result string :=
  profiles ← get "profiles" basics;
  if truthy profiles then
    github ← Header.profiles_find (Header.isNetwork "github") profiles;
    if truthy github then
      url ← get "url" github;
      mret (Header.divider +:+ githubLink (toString url))
    else mret ""
  else mret "".

(** [let contactInfo = ''] followed by the four [+=]; the blocks of the
    phone and of the email are those of [export-pdf.js]. *)
Definition contactInfo (basics : value) : result string :=
  let contactInfo := "" in
  l ← linkedinPart basics;
  let contactInfo := contactInfo +:+ l in
  p ← Header.phonePart basics;
  let contactInfo := contactInfo +:+ p in
  e ← Header.emailPart basics;
  let contactInfo := contactInfo +:+ e in
  g ← githubPart basics;
  let contactInfo := contactInfo +:+ g in
  mret contactInfo.

Definition pdfOptions (outputPath name strip : string) : PdfOptions :=
  {| path := outputPath;
     format := "A4";
     printBackground := true;
     displayHeaderFooter := true;
     headerTemplate := Some (Header.headerMarkup name strip);
     footerTemplate := Some Header.footerTemplate;
     margin := [("top", "80px"); ("bottom", "30px")] |}.

(** [args[0] || './resume.json'] *)
Definition orElse (arg : option string) (fallback : string) : string :=
  match arg with
  | Some s => if String.eqb s "" then fallback else s
  | None => fallback
  end.

Section Iconic.
Variable env : Env.

(** [exportPDF(resumePath = './resume.json', outputPath = './resume.pdf')],
    [None] standing for an argument that is [undefined]. *)
Definition exportPDF (resumePath outputPath : option string) : M () :=
  let resumePath := default "./resume.json" resumePath in
  let outputPath := default "./resume.pdf" outputPath in
  try_catch
    ((* Read resume.json from provided path or default location *)
     found ← existsSync resumePath;
     (if negb found then throw (notFound resumePath) else mret ());;
     text ← readFileSync env resumePath;
     resumeData ← lift (JSON_parse env text);
     (* Render HTML using the theme *)
     html ← lift (theme_render env resumeData);
     launch env;;
     newPage env;;
     (* Hide the header in the main HTML *)
     let htmlWithHiddenHeader := Header.htmlWithHiddenHeader html in
     setContent env htmlWithHiddenHeader;;
     (* Build header template from resume data *)
     basics ← lift (Header.basicsOf resumeData);
     contactInfo ← lift (contactInfo basics);
     (* Generate PDF with repeatable header and footer *)
     name ← lift (Header.displayName basics);
     pagePdf env htmlWithHiddenHeader (pdfOptions outputPath name contactInfo);;
     browserClose env;;
     console_log ("✅ PDF exported successfully to " +:+ outputPath))
    ExportPdf.reportAndExit.

(** [// Support command-line usage]: the script run on the arguments
    [process.argv.slice(2)]. *)
Definition main (args : list string) : M () :=
  let resumePath := orElse (args !! 0) "./resume.json" in
  let outputPath := orElse (args !! 1) "./resume.pdf" in
  exportPDF (Some resumePath) (Some outputPath).

End Iconic.
End Iconic.

Section Html.
Import Js Sys.
Variable env : Env.

(** The [catch] block of [generateResumeHTML]. *)
Definition reportHTML {A} (error : error) : M A :=
  console_error ("❌ Error generating HTML: " +:+ error_message error);;
  throw error.

(** [generateResumeHTML] (the same in both variants of
    [generate-resume.js]). *)
Definition generateResumeHTML (resume : value) : M string :=
  try_catch
    (resumeData ←
       (if String.eqb (typeof resume) "string" then
          (* It's a file path *)
          let resume := toString resume in
          found ← existsSync resume;
          if negb found then throw (notFound resume)
          else
            text ← readFileSync env resume;
            lift (JSON_parse env text)
        else if String.eqb (typeof resume) "object" then
          (* It's already a resume object *)
          mret resume
        else throw rejection);
     lift (theme_render env resumeData))
    reportHTML.

End Html.


(** ** The command line *)

(** [cli.js]: the arguments are parsed into an [options] object, the
    input is validated and [generateResumePDF] is called on it. *)
Module Cli.
Import Js Str Sys.

(** The text printed by [showHelp]. *)
Definition helpText : string :=
  nl +:+
  "Usage: node cli.js [options]" +:+
  nl +:+
  nl +:+
  "Options:" +:+
  nl +:+
  "  --input, -i <path>     Path to resume.json file (required)" +:+
  nl +:+
  "  --output, -o <path>    Path for output PDF (default: ./resume.pdf)" +:+
  nl +:+
  "  --tmp-dir <path>       Temporary directory for intermediate files (default: /tmp)" +:+
  nl +:+
  "  --help, -h             Show this help message" +:+
  nl +:+
  nl +:+
  "Examples:" +:+
  nl +:+
  "  # Generate PDF from resume.json in current directory" +:+
  nl +:+
  "  node cli.js -i ./resume.json -o ./output.pdf" +:+
  nl +:+
  nl +:+
  "  # Generate PDF from resume in tmp directory" +:+
  nl +:+
  "  node cli.js -i /tmp/tailored-resume.json -o /tmp/resume-output.pdf" +:+
  nl +:+
  nl +:+
  "  # Use custom tmp directory" +:+
  nl +:+
  "  node cli.js -i ./resume.json -o ./output.pdf --tmp-dir ./tmp" +:+
  nl +:+
  "  ".

(** The [options] object.  [input] is [null] until an argument sets it;
    a flag that is the last argument sets its field to [undefined]
    ([None] for the two fields that start as strings). *)
Record options : Type := {
  input : value;
  output : option string;
  tmp : option string
}.

(** [{ input: null, output: './resume.pdf', tmpDir: '/tmp' }] *)
Definition defaults : options :=
  {| input := VNull; output := Some "./resume.pdf"; tmp := Some "/tmp" |}.

(** How the loop over the arguments ends: with the options, or with
    [process.exit(code)] after the lines printed before it. *)
Inductive parsed : Type :=
| Parsed (o : options)
| Exited (code : nat) (lines : list string).

(** [case '--help': case '-h':] and the like. *)
Definition is_flag (long short arg : string) : bool :=
  String.eqb arg long || String.eqb arg short.

(** The [for] loop with its [switch]: [args] is what is left from
    [args[i]] on, [o] the options so far.  A flag takes [args[++i]] as
    its value, whatever it is, and [undefined] at the end of the
    arguments. *)
Fixpoint parseArgs (args : list string) (o : options) : parsed :=
  match args with
  | [] => Parsed o
  | arg :: rest =>
      if is_flag "--help" "-h" arg then Exited 0 [helpText]
      else if is_flag "--input" "-i" arg then
        match rest with
        | v :: rest' =>
            parseArgs rest' {| input := VStr v; output := output o; tmp := tmp o |}
        | [] => Parsed {| input := VUndefined; output := output o; tmp := tmp o |}
        end
      else if is_flag "--output" "-o" arg then
        match rest with
        | v :: rest' =>
            parseArgs rest' {| input := input o; output := Some v; tmp := tmp o |}
        | [] => Parsed {| input := input o; output := None; tmp := tmp o |}
        end
      else if String.eqb arg "--tmp-dir" then
        match rest with
        | v :: rest' =>
            parseArgs rest' {| input := input o; output := output o; tmp := Some v |}
        | [] => Parsed {| input := input o; output := output o; tmp := None |}
        end
      else Exited 1 ["Unknown option: " +:+ arg; helpText]
  end.

(** [console.log] of each line, in order. *)
Fixpoint print (lines : list string) : M () :=
  match lines with
  | [] => mret ()
  | line :: rest => console_log line;; print rest
  end.

(** [${options.output}] *)
Definition shown (output : option string) : string :=
  match output with
  | Some s => s
  | None => "undefined"
  end.

Section Main.

(** [generate input output tmpDir] is the call
    [generateResumePDF({ resume: input, outputPath: output, tmpDir })] of
    the [generate-resume.js] at hand, [None] standing for [undefined]. *)
Variable generate : string → option string → option string → M string.

(** The [catch] block of the run. *)
Definition reportAndExit (error : error) : M () :=
  console_error ("❌ Failed to generate PDF: " +:+ error_message error);;
  processExit 1.

(** The script after the loop: the two checks of the input, then the
    run. *)
Definition run (o : options) : M () :=
  if negb (truthy (input o)) then
    console_error "Error: --input is required";;
    console_log helpText;;
    processExit 1
  else
    let input := toString (input o) in
    found ← existsSync input;
    if negb found then
      console_error ("Error: Input file not found: " +:+ input);;
      processExit 1
    else
      try_catch
        (console_log ("📄 Generating PDF from: " +:+ input);;
         console_log ("📁 Output path: " +:+ shown (output o));;
         result ← generate input (output o) (tmp o);
         console_log ("✅ Success! PDF generated at: " +:+ result))
        reportAndExit.

(** The whole script on the arguments [process.argv.slice(2)]. *)
Definition main (args : list string) : M () :=
  match parseArgs args defaults with
  | Exited code lines => print lines;; processExit code
  | Parsed o => run o
  end.

End Main.

(** [path.dirname(undefined)] *)
Definition dirnameOfUndefined : error :=
  TypeError (html "The 'path' argument must be of type string. Received undefined").

Section Generate.
Variable env : Env.

(** [generateResumePDF] of [generate-resume.js] as the script calls it:
    on a path, and with an [outputPath] that may be [undefined], in
    which case [path.dirname(outputPath)] throws once the page content
    is set. *)
Definition generatePlain (input : string) (output tmpDir : option string)
  : M string :=
  match output with
  | Some outputPath =>
      Plain.generateResumePDF env (Build_Options (VStr input) outputPath tmpDir)
  | None =>
      try_catch
        ('(resumeData, resumePath) ←
           loadResume env (VStr input) (default "/tmp" tmpDir);
         html ← lift (theme_render env resumeData);
         launch env;;
         newPage env;;
         setContent env html;;
         throw dirnameOfUndefined)
        reportPDF
  end.

(** The same for the variant that prints header and footer: there the
    header block runs before [path.dirname(outputPath)]. *)
Definition generateBanded (input : string) (output tmpDir : option string)
  : M string :=
  match output with
  | Some outputPath =>
      Banded.generateResumePDF env (Build_Options (VStr input) outputPath tmpDir)
  | None =>
      try_catch
        ('(resumeData, resumePath) ←
           loadResume env (VStr input) (default "/tmp" tmpDir);
         html ← lift (theme_render env resumeData);
         launch env;;
         newPage env;;
         setContent env (Header.htmlWithHiddenHeader html);;
         basics ← lift (Header.basicsOf resumeData);
         contactInfo ← lift (Header.contactInfo basics);
         throw dirnameOfUndefined)
        reportPDF
  end.

End Generate.
End Cli.

(** ** The vocabulary of the statements *)

Module Spec.
Import Js Str Header.

(** The entry [p] carries a network name that equals [target] up to the
    case of its letters. *)
Definition networkIs (target : string) (p : value) : Prop :=
  ∃ s, get "network" p = Ok (VStr s) ∧ toLowerCase s = toLowerCase target.

(** The scan can look at the entry [p]: [p.network] can be read and it
    is a string whenever it is truthy. *)
Definition scannable (p : value) : Prop :=
  ∃ n, get "network" p = Ok n ∧ (truthy n = true → ∃ s, n = VStr s).

(** The entry [p] stops the scan with a [TypeError]: it is [null] or
    [undefined], or its [network] is truthy and not a string. *)
Definition malformed (p : value) : Prop :=
  p = VNull ∨ p = VUndefined ∨
  ∃ n, get "network" p = Ok n ∧ truthy n = true ∧ ∀ s, n ≠ VStr s.

(** The segments of the contact strip, each one present or not, without
    any divider. *)
Definition linkedinSegment (basics : value) : result (option string) :=
  profiles ← get "profiles" basics;
  if truthy profiles then
    linkedin ← profiles_find (isNetwork "linkedin") profiles;
    if truthy linkedin then
      url ← get "url" linkedin;
      mret (Some (linkedinLink (toString url)))
    else mret None
  else mret None.

Definition phoneSegment (basics : value) : result (option string) :=
  phone ← get "phone" basics;
  mret (if truthy phone then Some (phoneSpan (toString phone)) else None).

Definition emailSegment (basics : value) : result (option string) :=
  email ← get "email" basics;
  mret (if truthy email then Some (emailLink (toString email)) else None).

Definition githubSegment (basics : value) : result (option string) :=
  profiles ← get "profiles" basics;
  if truthy profiles then
    github ← profiles_find (isNetwork "github") profiles;
    if truthy github then
      url ← get "url" github;
      mret (Some (githubLink (toString url)))
    else mret None
  else mret None.

(** The segments that are present, in the fixed order. *)
Definition segments (basics : value) : result (list string) :=
  l ← linkedinSegment basics;
  p ← phoneSegment basics;
  e ← emailSegment basics;
  g ← githubSegment basics;
  mret (omap id [l; p; e; g]).

(** The contact strip as the specification words it: the present
    segments in the fixed order, one divider between two neighbours,
    none before the first and none after the last. *)
Definition contactStrip (basics : value) : result string :=
  segs ← segments basics;
  mret (join divider segs).

(** [s] holds a path separator. *)
Fixpoint has_slash (s : string) : bool :=
  match s with
  | EmptyString => false
  | String c s' => Ascii.eqb c Path.slash || has_slash s'
  end.

(** The text [Js.join] puts before the last item. *)
Definition joined_before (sep : string) (l : list string) : string :=
  match l with
  | [] => ""
  | _ => Js.join sep l +:+ sep
  end.

(** A file name for [path.join]: a single segment that
    [normalize] keeps. *)
Definition simple_name (name : string) : Prop :=
  has_slash name = false ∧ name ≠ "" ∧ name ≠ "." ∧ name ≠ "..".

(** What [path.join dir name] puts before a simple [name]. *)
Definition dir_prefix (dir : string) : string :=
  if String.eqb dir "" then ""
  else
    let isAbsolute := Path.starts_with_slash dir in
    (if isAbsolute then "/" else "") +:+
    joined_before "/"
      (rev (fold_left (Path.normalize_step (negb isAbsolute)) (Path.split dir) [])).

(** Release on every exit path, as the specification asks for it:
    whatever the outcome, an engine that was launched has been released
    when the operation is over. *)
Definition engine_released_on_every_exit
    (generate : Sys.Env → Options → Sys.M string) : Prop :=
  ∀ env options files,
    let '(w, _) := generate env options (Sys.initial files) in
    Sys.Launch ∈ Sys.calls w → Sys.engines w = 0.

(** The exception [e] comes from outside the program: it is the fault
    the environment holds for some call, or an error of [fs]. *)
Definition from_outside (env : Sys.Env) (e : error) : Prop :=
  (∃ c, Sys.fault env c = Some e) ∨ (∃ code p, e = SystemError code p).

(** The invocation of [generate] in the environment [env] writes its
    transient file at the path [p]. *)
Definition writes_transient (generate : Sys.Env → Options → Sys.M string)
    (env : Sys.Env) (options : Options) (files : gmap string Sys.node)
    (p : string) : Prop :=
  ∃ data, Sys.WriteFile p data ∈ Sys.calls (generate env options (Sys.initial files)).1.

(** Unique transient names, as the specification asks for them: two
    invocations on in-memory objects with the same temporary directory
    never write their transient files at the same path. *)
Definition transient_names_never_collide
    (generate : Sys.Env → Options → Sys.M string) : Prop :=
  ∀ env1 env2 options1 options2 files1 files2 p1 p2,
    Js.typeof (resume options1) = "object" →
    Js.typeof (resume options2) = "object" →
    tmpDir options1 = tmpDir options2 →
    writes_transient generate env1 options1 files1 p1 →
    writes_transient generate env2 options2 files2 p2 →
    p1 ≠ p2.

(** What [generateResumePDF] may ask of the file system when it is
    called with [options]: the path it reads is the resume it was
    pointed at; it writes and unlinks the transient file of an
    in-memory resume and nothing else; the directories it creates are
    the one of the output and, for an in-memory resume, the transient
    one; it prints at [outputPath]; the paths it checks are these.  It
    never calls [process.exit]. *)
Definition own_call (env : Sys.Env) (options : Options) (c : Sys.call)
  : Prop :=
  let resume := resume options in
  let out := outputPath options in
  let tmp := default "/tmp" (tmpDir options) in
  let transient := Path.join tmp (transientName (Sys.Date_now env)) in
  match c with
  | Sys.ReadFile q => typeof resume = "string" ∧ q = toString resume
  | Sys.WriteFile q data =>
      typeof resume ≠ "string" ∧ q = transient ∧
      data = Sys.JSON_stringify env resume
  | Sys.Unlink q => typeof resume ≠ "string" ∧ q = transient
  | Sys.Mkdir q =>
      q = Path.dirname out ∨ (typeof resume ≠ "string" ∧ q = tmp)
  | Sys.PagePdf _ o => Sys.path o = out
  | Sys.ExistsSync q _ =>
      q = Path.dirname out ∨
      (typeof resume = "string" ∧ q = toString resume) ∨
      (typeof resume ≠ "string" ∧ (q = tmp ∨ q = transient))
  | Sys.ProcessExit _ => False
  | Sys.Launch | Sys.NewPage | Sys.SetContent _ | Sys.BrowserClose => True
  end.

(** Two header strips that fail with the same error, or are both there
    and empty together. *)
Definition alike (r r' : result string) : Prop :=
  match r, r' with
  | Ok s, Ok s' => s = "" ↔ s' = ""
  | Err e, Err e' => e = e'
  | _, _ => False
  end.

(** The flags of [cli.js]. *)
Definition is_help (arg : string) : bool := Cli.is_flag "--help" "-h" arg.

Definition is_input (arg : string) : bool := Cli.is_flag "--input" "-i" arg.

Definition is_output (arg : string) : bool := Cli.is_flag "--output" "-o" arg.

Definition is_tmp (arg : string) : bool := String.eqb arg "--tmp-dir".

(** The flags that take the next argument as their value. *)
Definition takes_value (arg : string) : bool :=
  is_input arg || is_output arg || is_tmp arg.

(** The arguments that spell the given flags, each with its value. *)
Fixpoint flatten (pairs : list (string * string)) : list string :=
  match pairs with
  | [] => []
  | (flag, v) :: rest => flag :: v :: flatten rest
  end.

(** The options after a flag was given the value [v]. *)
Definition assign (o : Cli.options) (p : string * string) : Cli.options :=
  let '(flag, v) := p in
  if is_input flag then
    {| Cli.input := VStr v; Cli.output := Cli.output o; Cli.tmp := Cli.tmp o |}
  else if is_output flag then
    {| Cli.input := Cli.input o; Cli.output := Some v; Cli.tmp := Cli.tmp o |}
  else if is_tmp flag then
    {| Cli.input := Cli.input o; Cli.output := Cli.output o; Cli.tmp := Some v |}
  else o.

(** The options after the given flags, starting from the defaults. *)
Definition assigned (pairs : list (string * string)) : Cli.options :=
  fold_left assign pairs Cli.defaults.

(** The world in which the script stops before any generation: the
    store as it was, the lines printed and the calls made. *)
Definition stopped (files : gmap string Sys.node) (lines : list string)
    (trace : list Sys.call) : Sys.World :=
  {| Sys.fs := files; Sys.engines := 0; Sys.calls := trace;
     Sys.console := lines |}.

(** The resume data the pipeline works on when it is given [resume] in
    the store [files]: the object itself, or what [JSON.parse] makes of
    the text of the file it was pointed at. *)
Definition data_of (env : Sys.Env) (files : gmap string Sys.node)
    (resume data : value) : Prop :=
  if String.eqb (typeof resume) "string" then
    ∃ text, files !! toString resume = Some (Sys.File text) ∧
            Sys.JSON_parse env text = Ok data
  else data = resume.

End Spec.

(** ** Sample data *)

Module Sample.
Import Js Sys.

Definition env : Env :=
  {| theme_render := λ _, Ok "<!doctype html><html><head><style>body{}</style></head><body></body></html>";
     JSON_parse := λ _, Ok (VObj []);
     JSON_stringify := λ _, "{}";
     Date_now := 1764028800000;
     fault := λ _, None;
     pdf_bytes := λ _ _, "%PDF-1.4" |}.

(** An environment in which the page never reaches [networkidle0]:
    [page.setContent] gives up after its timeout. *)
Definition stalled : Env :=
  {| theme_render := theme_render env;
     JSON_parse := JSON_parse env;
     JSON_stringify := JSON_stringify env;
     Date_now := Date_now env;
     fault := λ c, match c with
                   | SetContent _ =>
                       Some (EngineError "Navigation timeout of 30000 ms exceeded")
                   | _ => None
                   end;
     pdf_bytes := pdf_bytes env |}.

(** The same environment one millisecond later. *)
Definition later : Env :=
  {| theme_render := theme_render env;
     JSON_parse := JSON_parse env;
     JSON_stringify := JSON_stringify env;
     Date_now := Date_now env + 1;
     fault := fault env;
     pdf_bytes := pdf_bytes env |}.

(** A store that holds [./resume.json]; [JSON_parse env] reads [{}]
    from it. *)
Definition emptyResumeOnDisk : gmap string node :=
  {["./resume.json" := File "{}"]}.

Definition jane : value := VObj [("basics", VObj [("name", VStr "Jane Doe")])].

Definition john : value := VObj [("basics", VObj [("name", VStr "John Roe")])].

Definition janeToOut : Options :=
  {| resume := jane; outputPath := "/out/jane.pdf"; tmpDir := None |}.

Definition johnToOut : Options :=
  {| resume := john; outputPath := "/out/john.pdf"; tmpDir := None |}.

(** [./resume.json] printed to [/out/resume.pdf]. *)
Definition diskToOut : Options :=
  {| resume := VStr "./resume.json"; outputPath := "/out/resume.pdf";
     tmpDir := None |}.

(** [-i ./resume.json -o /out/resume.pdf] *)
Definition flags : list (string * string) :=
  [("-i", "./resume.json"); ("-o", "/out/resume.pdf")].

Definition profile (network url : string) : value :=
  VObj [("network", VStr network); ("url", VStr url)].

(** All four segments. *)
Definition fullBasics : value :=
  VObj [("name", VStr "Jane Doe"); ("phone", VStr "555-0100");
        ("email", VStr "jane@example.com");
        ("profiles", VArr [profile "GitHub" "https://github.com/jane";
                           profile "LinkedIn" "https://linkedin.com/in/jane"])].

(** A LinkedIn entry, then [null], then a GitHub entry. *)
Definition profilesWithNull : list (string * value) :=
  [("profiles", VArr [profile "LinkedIn" "https://linkedin.com/in/jane"; VNull;
                      profile "GitHub" "https://github.com/jane"])].

(** A LinkedIn entry without [url]. *)
Definition linkedinWithoutUrl : value :=
  VObj [("profiles", VArr [VObj [("network", VStr "LINKEDIN")]])].

(** [{ profiles: [{ network: "LinkedIn", url }] }] *)
Definition onlyLinkedin : value :=
  VObj [("profiles", VArr [profile "LinkedIn" "https://linkedin.com/in/jane"])].

(** [{ phone: "555-0100" }] *)
Definition onlyPhone : value := VObj [("phone", VStr "555-0100")].

(** [{ profiles: [{ network: "GitHub", url }] }] *)
Definition onlyGithub : value :=
  VObj [("profiles", VArr [profile "GitHub" "https://github.com/jane"])].

(** Both links, neither phone nor email. *)
Definition bothLinks : value :=
  VObj [("profiles", VArr [profile "LinkedIn" "https://linkedin.com/in/jane";
                           profile "GitHub" "https://github.com/jane"])].

(** [LINKEDIN] spelled with U+212A KELVIN SIGN in place of the K: its
    lower case is [linkedin]. *)
Definition kelvinName : string := "LINKEDIN".

(** [{ profiles: [{ network: "LIN\u212aEDIN", ... }, { network: "LinkedIn", ... }] }] *)
Definition kelvinFirst : value :=
  VObj [("profiles", VArr [profile kelvinName "https://first.example";
                           profile "LinkedIn" "https://second.example"])].

(** [{ profiles: [{ network: "LinkedIn", ... }, { network: "linkedin", ... }] }] *)
Definition twoLinkedin : value :=
  VObj [("profiles", VArr [profile "LinkedIn" "https://first.example";
                           profile "linkedin" "https://second.example"])].

End Sample.

(** * Properties *)

(** ** Strings *)

Section StringFacts.
Import Str.

Lemma append_nil_l s : "" +:+ s = s.
Proof. reflexivity. Qed.

Lemma append_cons c s t : String c s +:+ t = String c (s +:+ t).
Proof. reflexivity. Qed.

Lemma append_nil_r s : s +:+ "" = s.
Proof. induction s as [|c s IH]; [done|]. by rewrite append_cons, IH. Qed.

Lemma append_assoc s t u : (s +:+ t) +:+ u = s +:+ t +:+ u.
Proof. induction s as [|c s IH]; [done|]. by rewrite !append_cons, IH. Qed.

Lemma length_append s t :
  String.length (s +:+ t) = String.length s + String.length t.
Proof. induction s as [|c s IH]; [done|]. rewrite append_cons. simpl. by rewrite IH. Qed.

Lemma prefix_append pat s : String.prefix pat (pat +:+ s) = true.
Proof.
  induction pat as [|c pat IH]; [by destruct s|].
  rewrite append_cons. simpl. by destruct (ascii_dec c c).
Qed.

Lemma drop_append s t : drop (String.length s) (s +:+ t) = t.
Proof. induction s as [|c s IH]; [done|]. rewrite append_cons. simpl. exact IH. Qed.

Lemma replace_unfold pat rep s :
  replace pat rep s =
  if String.prefix pat s then rep +:+ drop (String.length pat) s
  else match s with
       | EmptyString => EmptyString
       | String c s' => String c (replace pat rep s')
       end.
Proof. by destruct s. Qed.

Lemma includes_unfold pat s :
  includes pat s =
  String.prefix pat s ||
  match s with
  | EmptyString => false
  | String _ s' => includes pat s'
  end.
Proof. by destruct s. Qed.

(** Without an occurrence of the pattern the string is returned as it
    is. *)
Lemma replace_absent pat rep s : includes pat s = false → replace pat rep s = s.
Proof.
  induction s as [|c s IH]; rewrite includes_unfold, replace_unfold;
    intros [Hp Hs]%orb_false_elim; rewrite Hp; [done|].
  by rewrite IH.
Qed.

(** The leftmost occurrence is the one replaced; what follows it is
    copied. *)
Lemma replace_leftmost pat rep pre post :
  (∀ m, m < String.length pre →
        String.prefix pat (drop m (pre +:+ pat +:+ post)) = false) →
  replace pat rep (pre +:+ pat +:+ post) = pre +:+ rep +:+ post.
Proof.
  induction pre as [|c pre IH]; intros Hfirst.
  - rewrite !append_nil_l, replace_unfold, prefix_append. by rewrite drop_append.
  - rewrite !append_cons, replace_unfold.
    pose proof (Hfirst 0 ltac:(simpl; lia)) as H0. simpl drop in H0.
    rewrite append_cons in H0. rewrite H0. f_equal. apply IH.
    intros m Hm. apply (Hfirst (S m)). simpl. lia.
Qed.

End StringFacts.

Lemma bind_Ok {A B} (a : A) (f : A → result B) : (Ok a ≫= f) = f a.
Proof. reflexivity. Qed.

Lemma bind_Err {A B} (e : error) (f : A → result B) : (Err e ≫= f) = Err e.
Proof. reflexivity. Qed.

Section HeaderFacts.
Import Js Str Header Spec.

Lemma isNetwork_match target p s :
  get "network" p = Ok (VStr s) → toLowerCase s = target → target ≠ "" →
  isNetwork target p = Ok (VBool true).
Proof.
  intros Hget Hlow Hne. unfold isNetwork. rewrite Hget. simpl.
  destruct (String.eqb_spec s "") as [->|_]; [by simpl in Hlow; subst|].
  simpl. rewrite Hlow. by rewrite String.eqb_refl.
Qed.

Lemma isNetwork_miss target p :
  scannable p →
  (¬ ∃ s, get "network" p = Ok (VStr s) ∧ toLowerCase s = target) →
  ∃ v, isNetwork target p = Ok v ∧ truthy v = false.
Proof.
  intros (n & Hget & Hstr) Hno. unfold isNetwork. rewrite Hget. simpl.
  destruct (truthy n) eqn:Ht; [|by eauto].
  destruct (Hstr eq_refl) as [s ->]. simpl.
  destruct (String.eqb_spec (toLowerCase s) target) as [Heq|_]; [|by eauto].
  destruct Hno. eauto.
Qed.

(** [find] stops at the first item the callback accepts and does not
    look at what follows. *)
Lemma find_first f before p after v :
  Forall (λ q, ∃ r, f q = Ok r ∧ truthy r = false) before →
  f p = Ok v → truthy v = true →
  find f (before ++ p :: after) = Ok p.
Proof.
  intros Hbefore Hp Hv. induction Hbefore as [|q before (r & Hq & Hr) _ IH]; simpl.
  - by rewrite Hp; simpl; rewrite Hv.
  - by rewrite Hq; simpl; rewrite Hr.
Qed.

Lemma find_network_first target before p after :
  toLowerCase target ≠ "" →
  Forall (λ q, scannable q ∧ ¬ networkIs target q) before →
  networkIs target p →
  profiles_find (isNetwork (toLowerCase target)) (VArr (before ++ p :: after)) = Ok p.
Proof.
  intros Hne Hbefore (s & Hget & Hlow). simpl.
  eapply find_first; [|by eapply isNetwork_match|done].
  eapply Forall_impl; [exact Hbefore|]. intros q [Hscan Hno].
  by apply isNetwork_miss.
Qed.

Lemma networkIs_object target p :
  toLowerCase target ≠ "" → networkIs target p →
  truthy p = true ∧ ∃ u, get "url" p = Ok u.
Proof.
  intros Hne (s & Hget & Hlow). destruct p; simplify_eq/=; eauto.
Qed.

End HeaderFacts.

Section Selection.
Import Js Str Header Spec.

(** C3. For each designated network name, "LinkedIn" and "GitHub", the
    header synthesizer takes the first entry of the profile list whose
    network name equals it up to letter case: when no entry before [p]
    carries the name and [p] does, the link of the segment is the one of
    [p], whatever follows [p] in the list, and later entries with the
    same name are not looked at. *)
Theorem first_matching_profile_selected (basics : value)
    (before after : list value) (p : value) :
  get "profiles" basics = Ok (VArr (before ++ p :: after)) →
  (Forall (λ q, scannable q ∧ ¬ networkIs "LinkedIn" q) before →
   networkIs "LinkedIn" p →
   profiles_find (isNetwork "linkedin") (VArr (before ++ p :: after)) = Ok p ∧
   ∃ url, get "url" p = Ok url ∧
     linkedinPart basics = Ok (linkedinLink (toString url) +:+ divider)) ∧
  (Forall (λ q, scannable q ∧ ¬ networkIs "GitHub" q) before →
   networkIs "GitHub" p →
   profiles_find (isNetwork "github") (VArr (before ++ p :: after)) = Ok p ∧
   ∃ url, get "url" p = Ok url ∧
     githubPart basics = Ok (divider +:+ githubLink (toString url))).
Proof.
  intros Hprofiles. split; intros Hbefore Hp.
  - pose proof (find_network_first "LinkedIn" before p after
                  ltac:(done) Hbefore Hp) as Hfind.
    destruct (networkIs_object "LinkedIn" p ltac:(done) Hp) as [Htruthy [url Hurl]].
    split; [exact Hfind|]. exists url. split; [done|].
    unfold linkedinPart. rewrite Hprofiles, bind_Ok. simpl truthy. cbv iota.
    change (isNetwork "linkedin") with (isNetwork (toLowerCase "LinkedIn")).
    rewrite Hfind, bind_Ok, Htruthy, Hurl. done.
  - pose proof (find_network_first "GitHub" before p after
                  ltac:(done) Hbefore Hp) as Hfind.
    destruct (networkIs_object "GitHub" p ltac:(done) Hp) as [Htruthy [url Hurl]].
    split; [exact Hfind|]. exists url. split; [done|].
    unfold githubPart. rewrite Hprofiles, bind_Ok. simpl truthy. cbv iota.
    change (isNetwork "github") with (isNetwork (toLowerCase "GitHub")).
    rewrite Hfind, bind_Ok, Htruthy, Hurl. done.
Qed.

(** U+212A KELVIN SIGN is lowered to [k], as JavaScript does. *)
Lemma kelvin_sign_lowered : toLowerCase Sample.kelvinName = "linkedin".
Proof. reflexivity. Qed.

(** The list [[{network:"LIN\u212aEDIN"}, {network:"LinkedIn"}]]: the
    entry listed first, whose name is [linkedin] up to letter case, is
    the one selected. *)
Lemma first_matching_profile_selected_witness :
  profiles_find (isNetwork "linkedin")
    (VArr ([] ++ Sample.profile Sample.kelvinName "https://first.example"
              :: [Sample.profile "LinkedIn" "https://second.example"]))
  = Ok (Sample.profile Sample.kelvinName "https://first.example") ∧
  ∃ url, get "url" (Sample.profile Sample.kelvinName "https://first.example")
         = Ok url ∧
    linkedinPart Sample.kelvinFirst = Ok (linkedinLink (toString url) +:+ divider).
Proof.
  refine (proj1 (first_matching_profile_selected Sample.kelvinFirst []
            [Sample.profile "LinkedIn" "https://second.example"]
            (Sample.profile Sample.kelvinName "https://first.example") _) _ _).
  - reflexivity.
  - constructor.
  - exists Sample.kelvinName. split; reflexivity.
Defined.

End Selection.

Section Defaults.
Import Js Str Header Spec.

Lemma contactInfo_no_profiles props :
  assoc "profiles" props = None →
  ∃ p e, phonePart (VObj props) = Ok p ∧ emailPart (VObj props) = Ok e ∧
         contactInfo (VObj props) = Ok (p +:+ e).
Proof.
  intros Hno. unfold contactInfo, linkedinPart, githubPart, phonePart, emailPart.
  simpl get. rewrite Hno. simpl default. rewrite !bind_Ok. simpl truthy. cbv iota.
  rewrite !bind_Ok.
  destruct (truthy (default VUndefined (assoc "phone" props)));
    destruct (truthy (default VUndefined (assoc "email" props)));
    rewrite !bind_Ok; eexists _, _; (split; [done|]); (split; [done|]);
    by rewrite !append_nil_l, ?append_nil_r.
Qed.

(** X3. The header block of [export-pdf.js] and of the header-carrying
    [generateResumePDF] defaults what is missing.  A resume without
    [basics] (or with a falsy one) gets the header with an empty display
    name and an empty contact strip, and the synthesis does not throw;
    in a [basics] object each of [name], [phone], [email] and [profiles]
    that is absent contributes the empty text, and without [profiles]
    the synthesis does not throw whatever the other fields hold. *)
Theorem header_defaults_missing_values (resumeData b : value)
    (props : list (string * value)) :
  (get "basics" resumeData = Ok b → truthy b = false →
   headerTemplate resumeData = Ok (headerMarkup "" "")) ∧
  (assoc "name" props = None → displayName (VObj props) = Ok "") ∧
  (assoc "phone" props = None → phonePart (VObj props) = Ok "") ∧
  (assoc "email" props = None → emailPart (VObj props) = Ok "") ∧
  (assoc "profiles" props = None →
   linkedinPart (VObj props) = Ok "" ∧ githubPart (VObj props) = Ok "" ∧
   ∃ name strip,
     headerTemplate (VObj [("basics", VObj props)]) = Ok (headerMarkup name strip)).
Proof.
  split; [|split; [|split; [|split]]].
  - intros Hb Hfalsy. unfold headerTemplate, basicsOf. rewrite Hb, bind_Ok.
    unfold or. by rewrite Hfalsy.
  - intros Hno. unfold displayName. simpl. by rewrite Hno.
  - intros Hno. unfold phonePart. simpl. by rewrite Hno.
  - intros Hno. unfold emailPart. simpl. by rewrite Hno.
  - intros Hno. split; [|split].
    + unfold linkedinPart. simpl. by rewrite Hno.
    + unfold githubPart. simpl. by rewrite Hno.
    + destruct (contactInfo_no_profiles props Hno) as (p & e & _ & _ & Hstrip).
      unfold headerTemplate, basicsOf. simpl get. rewrite !bind_Ok.
      change (or (VObj props) (VObj [])) with (VObj props).
      rewrite Hstrip, bind_Ok. unfold displayName. simpl get. rewrite !bind_Ok.
      by eexists _, _.
Qed.

(** The resume [{}]: no [basics] at all. *)
Lemma header_defaults_missing_values_witness :
  headerTemplate (VObj []) = Ok (headerMarkup "" "") ∧
  displayName (VObj []) = Ok "" ∧ phonePart (VObj []) = Ok "" ∧
  emailPart (VObj []) = Ok "" ∧ linkedinPart (VObj []) = Ok "".
Proof.
  destruct (header_defaults_missing_values (VObj []) VUndefined [])
    as (Hh & Hn & Hp & He & Hl).
  split; [apply Hh; reflexivity|].
  split; [apply Hn; reflexivity|].
  split; [apply Hp; reflexivity|].
  split; [apply He; reflexivity|].
  apply Hl; reflexivity.
Defined.

End Defaults.

Section Strip.
Import Js Str Header Spec.

(** Each block of the code appends its segment together with the
    divider the code ties to it: after the LinkedIn link, after the
    phone, before the GitHub link, none around the email. *)
Lemma linkedinPart_segment basics :
  linkedinPart basics =
  (o ← linkedinSegment basics;
   mret (match o with Some l => l +:+ divider | None => "" end)).
Proof.
  unfold linkedinPart, linkedinSegment.
  destruct (get "profiles" basics) as [profiles|]; [|done]. rewrite !bind_Ok.
  destruct (truthy profiles); [|done].
  destruct (profiles_find _ profiles) as [linkedin|]; [|done]. rewrite !bind_Ok.
  destruct (truthy linkedin); [|done].
  by destruct (get "url" linkedin).
Qed.

Lemma phonePart_segment basics :
  phonePart basics =
  (o ← phoneSegment basics;
   mret (match o with Some p => p +:+ divider | None => "" end)).
Proof.
  unfold phonePart, phoneSegment.
  destruct (get "phone" basics) as [phone|]; [|done]. rewrite !bind_Ok.
  by destruct (truthy phone).
Qed.

Lemma emailPart_segment basics :
  emailPart basics =
  (o ← emailSegment basics; mret (default "" o)).
Proof.
  unfold emailPart, emailSegment.
  destruct (get "email" basics) as [email|]; [|done]. rewrite !bind_Ok.
  by destruct (truthy email).
Qed.

Lemma githubPart_segment basics :
  githubPart basics =
  (o ← githubSegment basics;
   mret (match o with Some g => divider +:+ g | None => "" end)).
Proof.
  unfold githubPart, githubSegment.
  destruct (get "profiles" basics) as [profiles|]; [|done]. rewrite !bind_Ok.
  destruct (truthy profiles); [|done].
  destruct (profiles_find _ profiles) as [github|]; [|done]. rewrite !bind_Ok.
  destruct (truthy github); [|done].
  by destruct (get "url" github).
Qed.

Lemma length_divider : String.length divider = 50.
Proof. reflexivity. Qed.

Ltac starts_with_markup :=
  let H := fresh in
  intros H; apply (f_equal String.length) in H;
  rewrite length_append in H; revert H;
  match goal with |- _ + ?n = _ → _ => generalize n end;
  intros ?; vm_compute; discriminate.

Lemma linkedinLink_nonempty url : linkedinLink url ≠ "".
Proof. unfold linkedinLink. starts_with_markup. Qed.

Lemma phoneSpan_nonempty phone : phoneSpan phone ≠ "".
Proof. unfold phoneSpan. starts_with_markup. Qed.

Lemma githubLink_nonempty url : githubLink url ≠ "".
Proof. unfold githubLink. starts_with_markup. Qed.

Lemma linkedinSegment_nonempty basics l :
  linkedinSegment basics = Ok (Some l) → l ≠ "".
Proof.
  unfold linkedinSegment.
  destruct (get "profiles" basics) as [profiles|]; [|done]. rewrite !bind_Ok.
  destruct (truthy profiles); [|done].
  destruct (profiles_find _ profiles) as [linkedin|]; [|done]. rewrite !bind_Ok.
  destruct (truthy linkedin); [|done].
  destruct (get "url" linkedin); [|done].
  intros [= <-]. apply linkedinLink_nonempty.
Qed.

Lemma phoneSegment_nonempty basics p :
  phoneSegment basics = Ok (Some p) → p ≠ "".
Proof.
  unfold phoneSegment.
  destruct (get "phone" basics) as [phone|]; [|done]. rewrite !bind_Ok.
  destruct (truthy phone); [|done].
  intros [= <-]. apply phoneSpan_nonempty.
Qed.

Lemma githubSegment_nonempty basics g :
  githubSegment basics = Ok (Some g) → g ≠ "".
Proof.
  unfold githubSegment.
  destruct (get "profiles" basics) as [profiles|]; [|done]. rewrite !bind_Ok.
  destruct (truthy profiles); [|done].
  destruct (profiles_find _ profiles) as [github|]; [|done]. rewrite !bind_Ok.
  destruct (truthy github); [|done].
  destruct (get "url" github); [|done].
  intros [= <-]. apply githubLink_nonempty.
Qed.

(** With an email the strip of the code is the strip of the
    specification: the email is the segment every divider leans on. *)
Lemma contactInfo_with_email basics e :
  emailSegment basics = Ok (Some e) →
  contactInfo basics = contactStrip basics.
Proof.
  intros He. unfold contactInfo, contactStrip, segments.
  rewrite linkedinPart_segment, phonePart_segment, emailPart_segment,
    githubPart_segment, He.
  destruct (linkedinSegment basics) as [[l|]|]; [| |done];
    (destruct (phoneSegment basics) as [[p|]|]; [| |done]);
    (destruct (githubSegment basics) as [[g|]|]; [| |done]);
    rewrite !bind_Ok; simpl; unfold mret, result_ret; f_equal;
    by rewrite ?append_nil_l, ?append_nil_r, ?append_assoc.
Qed.

(** Without an email the two differ as soon as one segment is present:
    the code writes one divider per segment, the specification one
    less. *)
Lemma contactInfo_without_email basics s s' :
  emailSegment basics = Ok None →
  contactInfo basics = Ok s → contactStrip basics = Ok s' →
  String.length s =
  String.length s' + (if String.eqb s' "" then 0 else String.length divider).
Proof.
  intros He. unfold contactInfo, contactStrip, segments.
  rewrite linkedinPart_segment, phonePart_segment, emailPart_segment,
    githubPart_segment, He.
  destruct (linkedinSegment basics) as [[l|]|] eqn:Hl; [| |done];
    (destruct (phoneSegment basics) as [[p|]|] eqn:Hp; [| |done]);
    (destruct (githubSegment basics) as [[g|]|] eqn:Hg; [| |done]);
    rewrite !bind_Ok; simpl; intros [= <-] [= <-];
    rewrite ?append_nil_l, ?append_nil_r; try done.
  all: try (apply linkedinSegment_nonempty in Hl;
            destruct l as [|cl l]; [done|]).
  all: try (apply phoneSegment_nonempty in Hp;
            destruct p as [|cp p]; [done|]).
  all: try (apply githubSegment_nonempty in Hg;
            destruct g as [|cg g]; [done|]).
  all: rewrite ?append_cons; simpl String.eqb; cbv iota.
  all: repeat first [rewrite length_append | rewrite length_divider
                    | rewrite append_cons | progress (simpl String.length)].
  all: lia.
Qed.

End Strip.

Section Dividers.
Import Js Str Header Spec.

(** C1, on the code.  The segments come in the fixed order LinkedIn,
    phone, email, GitHub, but the dividers are tied to the segments, not
    to the gaps between them: a LinkedIn link or a phone alone is
    followed by a divider, a GitHub link alone is preceded by one, and
    with both links and no email the divider is doubled.  The strip the
    specification asks for has none of these dividers. *)
Theorem contact_strip_dividers_without_email :
  let linkedin := linkedinLink "https://linkedin.com/in/jane" in
  let github := githubLink "https://github.com/jane" in
  (contactInfo Sample.onlyLinkedin = Ok (linkedin +:+ divider) ∧
   contactStrip Sample.onlyLinkedin = Ok linkedin) ∧
  (contactInfo Sample.onlyPhone = Ok (phoneSpan "555-0100" +:+ divider) ∧
   contactStrip Sample.onlyPhone = Ok (phoneSpan "555-0100")) ∧
  (contactInfo Sample.onlyGithub = Ok (divider +:+ github) ∧
   contactStrip Sample.onlyGithub = Ok github) ∧
  (contactInfo Sample.bothLinks = Ok (linkedin +:+ divider +:+ divider +:+ github) ∧
   contactStrip Sample.bothLinks = Ok (linkedin +:+ divider +:+ github)).
Proof. repeat split; vm_compute; reflexivity. Qed.

End Dividers.

(** ** Paths *)

Section PathFacts.
Import Path Spec.

Lemma has_slash_append s t : has_slash (s +:+ t) = has_slash s || has_slash t.
Proof.
  induction s as [|c s IH]; [done|].
  rewrite append_cons. simpl. by rewrite IH, orb_assoc.
Qed.

Lemma split_nonempty p : split p ≠ [].
Proof.
  destruct p as [|c p]; [done|]. simpl.
  destruct (Ascii.eqb c slash); [done|]. by destruct (split p).
Qed.

Lemma split_no_slash s : has_slash s = false → split s = [s].
Proof.
  induction s as [|c s IH]; [done|]. simpl.
  intros [Hc Hs]%orb_false_elim. rewrite Hc, IH; done.
Qed.

Lemma split_append a b :
  split (a +:+ String slash b) = split a ++ split b.
Proof.
  induction a as [|c a IH].
  - reflexivity.
  - rewrite append_cons. simpl. destruct (Ascii.eqb c slash).
    + by rewrite IH.
    + rewrite IH. pose proof (split_nonempty a). by destruct (split a).
Qed.

Lemma starts_with_slash_append a b :
  a ≠ "" → starts_with_slash (a +:+ b) = starts_with_slash a.
Proof. by destruct a. Qed.

Lemma ends_with_slash_no_slash s : has_slash s = false → ends_with_slash s = false.
Proof.
  induction s as [|c s IH]; [done|]. simpl.
  intros [Hc Hs]%orb_false_elim. destruct s; [done|]. by apply IH.
Qed.

Lemma ends_with_slash_append a b :
  b ≠ "" → ends_with_slash (a +:+ b) = ends_with_slash b.
Proof.
  intros Hb. induction a as [|c a IH]; [done|].
  rewrite append_cons. simpl. rewrite IH.
  destruct (a +:+ b) eqn:Hab; [|done].
  destruct a; [|done]. by rewrite append_nil_l in Hab.
Qed.

Lemma join_snoc sep l x : Js.join sep (l ++ [x]) = joined_before sep l +:+ x.
Proof.
  induction l as [|a l IH]; [done|].
  change ((a :: l) ++ [x]) with (a :: (l ++ [x])).
  destruct l as [|b l].
  - simpl. by rewrite append_assoc.
  - change (Js.join sep (a :: (b :: l) ++ [x]))
      with (a +:+ sep +:+ Js.join sep ((b :: l) ++ [x])).
    rewrite IH. unfold joined_before.
    change (Js.join sep (a :: b :: l)) with (a +:+ sep +:+ Js.join sep (b :: l)).
    by rewrite !append_assoc.
Qed.

Lemma eqb_append_cons_nil s c t : String.eqb (s +:+ String c t) "" = false.
Proof. by destruct s. Qed.

Lemma join_simple_name dir name :
  simple_name name → join dir name = dir_prefix dir +:+ name.
Proof.
  intros (Hslash & Hne & Hdot & Hdots). unfold join, dir_prefix.
  assert (String.eqb name "" = false) as Hne' by by apply String.eqb_neq.
  assert (String.eqb name "." = false) as Hdot' by by apply String.eqb_neq.
  assert (String.eqb name ".." = false) as Hdots' by by apply String.eqb_neq.
  assert (∀ allow stack, normalize_step allow stack name = name :: stack) as Hstep.
  { intros allow stack. unfold normalize_step. by rewrite Hne', Hdot', Hdots'. }
  destruct name as [|c name]; [done|].
  rewrite Hne'. destruct (String.eqb_spec dir "") as [->|Hdir].
  - unfold normalize, normalizeString. rewrite Hne'.
    rewrite (split_no_slash _ Hslash). simpl fold_left. rewrite Hstep.
    simpl in Hslash. apply orb_false_elim in Hslash as [Hc Hs].
    change (starts_with_slash (String c name)) with (Ascii.eqb c slash).
    rewrite Hc. simpl rev. simpl Js.join. rewrite Hne'.
    rewrite ends_with_slash_no_slash; [done|]. simpl. by rewrite Hc, Hs.
  - unfold normalize, normalizeString.
    change ("/" +:+ String c name) with (String slash (String c name)).
    rewrite eqb_append_cons_nil, split_append, (split_no_slash _ Hslash).
    rewrite starts_with_slash_append by done.
    rewrite fold_left_app. simpl fold_left. rewrite Hstep. simpl rev.
    rewrite join_snoc.
    change (String slash (String c name)) with ("/" +:+ String c name).
    rewrite <-append_assoc, ends_with_slash_append by done.
    rewrite ends_with_slash_no_slash by done.
    rewrite eqb_append_cons_nil.
    destruct (starts_with_slash dir); [|done].
    by rewrite append_assoc.
Qed.

End PathFacts.

Section TransientName.
Import Path Spec.

Lemma append_inj_r s t u : s +:+ u = t +:+ u → s = t.
Proof.
  revert t. induction s as [|c s IH]; intros [|d t] H.
  - done.
  - apply (f_equal String.length) in H.
    rewrite !length_append in H. simpl in H. lia.
  - apply (f_equal String.length) in H.
    rewrite !length_append in H. simpl in H. lia.
  - rewrite !append_cons in H. injection H as -> H. f_equal. by apply IH.
Qed.

Lemma pretty_N_go_no_slash x s :
  has_slash s = false → has_slash (pretty_N_go x s) = false.
Proof.
  revert s. induction (N.lt_wf_0 x) as [x _ IH]; intros s Hs.
  assert (x = 0 ∨ 0 < x)%N as [->|?] by lia.
  - by rewrite pretty_N_go_0.
  - rewrite pretty_N_go_step by done. apply IH.
    { by apply N.div_lt. }
    simpl. rewrite Hs. unfold pretty_N_char. by repeat case_match.
Qed.

Lemma pretty_Z_no_slash (z : Z) : has_slash (pretty z) = false.
Proof.
  destruct z as [|x|x]; unfold pretty, pretty_Z, pretty, pretty_positive,
    pretty, pretty_N; [done|..]; rewrite decide_False by done.
  - by apply pretty_N_go_no_slash.
  - rewrite has_slash_append. simpl. by apply pretty_N_go_no_slash.
Qed.

Lemma transientName_simple t : simple_name (transientName t).
Proof.
  unfold simple_name, transientName. split; [|done].
  by rewrite !has_slash_append, pretty_Z_no_slash.
Qed.

Lemma transientName_inj t1 t2 : transientName t1 = transientName t2 → t1 = t2.
Proof.
  unfold transientName. intros H%(inj (String.app _))%append_inj_r.
  by apply (inj pretty).
Qed.

(** Two transient paths under one directory are the same exactly when
    the two clock readings are. *)
Lemma transient_path_eq tmpDir t1 t2 :
  join tmpDir (transientName t1) = join tmpDir (transientName t2) ↔ t1 = t2.
Proof.
  split; [|by intros ->].
  rewrite !join_simple_name by apply transientName_simple.
  intros H%(inj (String.app _)). by apply transientName_inj.
Qed.

End TransientName.

(** ** Running the pipeline *)

Section Inversion.
Import Js Sys.
Context {A B : Type}.

Lemma bind_inv (m : M A) (k : A → M B) w w' r :
  (m ≫= k) w = (w', r) →
  (∃ e, m w = (w', Err e) ∧ r = Err e) ∨
  (∃ w1 a, m w = (w1, Ok a) ∧ k a w1 = (w', r)).
Proof.
  unfold mbind, M_bind. destruct (m w) as [w1 [a|e]]; intros H.
  - right. eauto.
  - left. injection H as <- <-. eauto.
Qed.

Lemma try_catch_inv (body : M A) (handler : error → M A) w w' r :
  try_catch body handler w = (w', r) →
  (∃ a, body w = (w', Ok a) ∧ r = Ok a) ∨
  (∃ w1 e, body w = (w1, Err e) ∧ handler e w1 = (w', r)).
Proof.
  unfold try_catch. destruct (body w) as [w1 [a|e]]; intros H.
  - left. injection H as <- <-. eauto.
  - right. eauto.
Qed.

Lemma ret_inv (a : A) w w' r :
  (mret a : M A) w = (w', r) → w' = w ∧ r = Ok a.
Proof. by intros [= <- <-]. Qed.

Lemma throw_inv (e : error) w w' (r : result A) :
  throw e w = (w', r) → w' = w ∧ r = Err e.
Proof. by intros [= <- <-]. Qed.

Lemma lift_inv (x : result A) w w' r : lift x w = (w', r) → w' = w ∧ r = x.
Proof. by intros [= <- <-]. Qed.

End Inversion.

Section CallInversion.
Import Js Sys Spec.
Variable env : Env.

Lemma perform_inv c eff w w' r :
  perform env c eff w = (w', r) →
  (∃ e, from_outside env e ∧ w' = w ∧ r = Err e) ∨
  (fault env c = None ∧ r = Ok () ∧
   w' = {| fs := (eff (fs w, engines w)).1;
           engines := (eff (fs w, engines w)).2;
           calls := calls w ++ [c];
           console := console w |}).
Proof.
  unfold perform. destruct (fault env c) as [e|] eqn:Hc; intros H.
  - left. injection H as <- <-. exists e. unfold from_outside. eauto.
  - right. destruct (eff _) as [files n]. by injection H as <- <-.
Qed.

Lemma system_error_outside code p : from_outside env (SystemError code p).
Proof. right. eauto. Qed.

Lemma existsSync_inv p w w' r :
  existsSync p w = (w', r) →
  r = Ok (bool_decide (is_Some (fs w !! p))) ∧
  w' = {| fs := fs w; engines := engines w;
          calls := calls w ++ [ExistsSync p (bool_decide (is_Some (fs w !! p)))];
          console := console w |}.
Proof. by intros [= <- <-]. Qed.

Lemma console_log_inv line w w' r :
  console_log line w = (w', r) →
  r = Ok () ∧
  w' = {| fs := fs w; engines := engines w; calls := calls w;
          console := console w ++ [line] |}.
Proof. by intros [= <- <-]. Qed.

Lemma processExit_inv code w w' r :
  processExit code w = (w', r) →
  r = Ok () ∧
  w' = {| fs := fs w; engines := engines w;
          calls := calls w ++ [ProcessExit code]; console := console w |}.
Proof. by intros [= <- <-]. Qed.

Lemma readFileSync_inv p w w' r :
  readFileSync env p w = (w', r) →
  (∃ e, from_outside env e ∧ w' = w ∧ r = Err e) ∨
  (∃ content, fs w !! p = Some (File content) ∧ r = Ok content ∧
     w' = {| fs := fs w; engines := engines w;
             calls := calls w ++ [ReadFile p]; console := console w |}).
Proof.
  unfold readFileSync. destruct (fs w !! p) as [[content|]|] eqn:Hp.
  - intros [(e & H & ->)|(w1 & [] & H & [-> ->]%ret_inv)]%bind_inv.
    + apply perform_inv in H as [(e' & ? & -> & [= <-])|(_ & [=] & _)]. eauto.
    + apply perform_inv in H as [(e' & _ & _ & [=])|(_ & _ & ->)]. eauto.
  - intros [= <- <-]. eauto using system_error_outside.
  - intros [= <- <-]. eauto using system_error_outside.
Qed.

Lemma writeFileSync_inv p data w w' r :
  writeFileSync env p data w = (w', r) →
  (∃ e, from_outside env e ∧ w' = w ∧ r = Err e) ∨
  (r = Ok () ∧
   w' = {| fs := <[p := File data]> (fs w); engines := engines w;
           calls := calls w ++ [WriteFile p data]; console := console w |}).
Proof.
  unfold writeFileSync.
  destruct (fs w !! p) as [[content|]|] eqn:Hp;
    [| intros [= <- <-]; eauto using system_error_outside |];
    intros [(e & ? & -> & ->)|(_ & -> & ->)]%perform_inv; eauto.
Qed.

Lemma mkdirSync_inv p w w' r :
  mkdirSync env p w = (w', r) →
  (∃ e, from_outside env e ∧ w' = w ∧ r = Err e) ∨
  (r = Ok () ∧ w' = w ∧ fs w !! p = Some Dir) ∨
  (r = Ok () ∧ fs w !! p = None ∧
   w' = {| fs := <[p := Dir]> (fs w); engines := engines w;
           calls := calls w ++ [Mkdir p]; console := console w |}).
Proof.
  unfold mkdirSync. destruct (fs w !! p) as [[content|]|] eqn:Hp.
  - intros [= <- <-]. eauto using system_error_outside.
  - intros [= <- <-]. eauto.
  - intros [(e & ? & -> & ->)|(_ & -> & ->)]%perform_inv; eauto.
Qed.

Lemma unlinkSync_inv p w w' r :
  unlinkSync env p w = (w', r) →
  (∃ e, from_outside env e ∧ w' = w ∧ r = Err e) ∨
  (r = Ok () ∧
   w' = {| fs := delete p (fs w); engines := engines w;
           calls := calls w ++ [Unlink p]; console := console w |}).
Proof.
  unfold unlinkSync.
  destruct (fs w !! p) as [[content|]|] eqn:Hp;
    [| intros [= <- <-]; eauto using system_error_outside..].
  intros [(e & ? & -> & ->)|(_ & -> & ->)]%perform_inv; eauto.
Qed.

Lemma launch_inv w w' r :
  launch env w = (w', r) →
  (∃ e, from_outside env e ∧ w' = w ∧ r = Err e) ∨
  (r = Ok () ∧
   w' = {| fs := fs w; engines := S (engines w);
           calls := calls w ++ [Launch]; console := console w |}).
Proof.
  intros [(e & ? & -> & ->)|(_ & -> & ->)]%perform_inv; eauto.
Qed.

Lemma newPage_inv w w' r :
  newPage env w = (w', r) →
  (∃ e, from_outside env e ∧ w' = w ∧ r = Err e) ∨
  (r = Ok () ∧
   w' = {| fs := fs w; engines := engines w;
           calls := calls w ++ [NewPage]; console := console w |}).
Proof.
  intros [(e & ? & -> & ->)|(_ & -> & ->)]%perform_inv; eauto.
Qed.

Lemma setContent_inv html w w' r :
  setContent env html w = (w', r) →
  (∃ e, from_outside env e ∧ w' = w ∧ r = Err e) ∨
  (r = Ok () ∧
   w' = {| fs := fs w; engines := engines w;
           calls := calls w ++ [SetContent html]; console := console w |}).
Proof.
  intros [(e & ? & -> & ->)|(_ & -> & ->)]%perform_inv; eauto.
Qed.

Lemma pagePdf_inv html o w w' r :
  pagePdf env html o w = (w', r) →
  (∃ e, from_outside env e ∧ w' = w ∧ r = Err e) ∨
  (r = Ok () ∧
   w' = {| fs := <[path o := File (pdf_bytes env html o)]> (fs w);
           engines := engines w;
           calls := calls w ++ [PagePdf html o]; console := console w |}).
Proof.
  unfold pagePdf.
  destruct (fs w !! path o) as [[content|]|] eqn:Hp;
    [| intros [= <- <-]; eauto using system_error_outside |];
    intros [(e & ? & -> & ->)|(_ & -> & ->)]%perform_inv; eauto.
Qed.

Lemma browserClose_inv w w' r :
  browserClose env w = (w', r) →
  (∃ e, from_outside env e ∧ w' = w ∧ r = Err e) ∨
  (r = Ok () ∧
   w' = {| fs := fs w; engines := pred (engines w);
           calls := calls w ++ [BrowserClose]; console := console w |}).
Proof.
  intros [(e & ? & -> & ->)|(_ & -> & ->)]%perform_inv; eauto.
Qed.

End CallInversion.

(** Inversion of a run, one construct at a time. *)
Ltac run_inv_step :=
  match goal with
  | H : context [String.eqb ?a ?b] |- _ =>
      let v := eval vm_compute in (String.eqb a b) in
      match v with
      | true => change (String.eqb a b) with true in H
      | false => change (String.eqb a b) with false in H
      end; cbv iota in H
  | H : (_ ≫= _) _ = (_, _) |- _ =>
      apply bind_inv in H as [(? & H & ?)|(? & ? & ? & H)]
  | H : Sys.try_catch _ _ _ = (_, _) |- _ =>
      apply try_catch_inv in H as [(? & H & ?)|(? & ? & ? & H)]
  | H : mret _ _ = (_, _) |- _ => apply ret_inv in H as [-> ?]
  | H : Sys.throw _ _ = (_, _) |- _ => apply throw_inv in H as [-> ?]
  | H : Sys.lift _ _ = (_, _) |- _ => apply lift_inv in H as [-> ?]
  | H : Sys.existsSync _ _ = (_, _) |- _ =>
      apply existsSync_inv in H as [? ->]
  | H : Sys.console_log _ _ = (_, _) |- _ =>
      apply console_log_inv in H as [? ->]
  | H : Sys.console_error _ _ = (_, _) |- _ =>
      apply console_log_inv in H as [? ->]
  | H : Sys.processExit _ _ = (_, _) |- _ =>
      apply processExit_inv in H as [? ->]
  | H : Sys.readFileSync _ _ _ = (_, _) |- _ =>
      apply readFileSync_inv in H as [(? & ? & -> & ?)|(? & ? & ? & ->)]
  | H : Sys.writeFileSync _ _ _ _ = (_, _) |- _ =>
      apply writeFileSync_inv in H as [(? & ? & -> & ?)|(? & ->)]
  | H : Sys.mkdirSync _ _ _ = (_, _) |- _ =>
      apply mkdirSync_inv in H as [(? & ? & -> & ?)|[(? & -> & ?)|(? & ? & ->)]]
  | H : Sys.unlinkSync _ _ _ = (_, _) |- _ =>
      apply unlinkSync_inv in H as [(? & ? & -> & ?)|(? & ->)]
  | H : Sys.launch _ _ = (_, _) |- _ =>
      apply launch_inv in H as [(? & ? & -> & ?)|(? & ->)]
  | H : Sys.newPage _ _ = (_, _) |- _ =>
      apply newPage_inv in H as [(? & ? & -> & ?)|(? & ->)]
  | H : Sys.setContent _ _ _ = (_, _) |- _ =>
      apply setContent_inv in H as [(? & ? & -> & ?)|(? & ->)]
  | H : Sys.pagePdf _ _ _ _ = (_, _) |- _ =>
      apply pagePdf_inv in H as [(? & ? & -> & ?)|(? & ->)]
  | H : Sys.browserClose _ _ = (_, _) |- _ =>
      apply browserClose_inv in H as [(? & ? & -> & ?)|(? & ->)]
  | H : loadResume _ _ _ _ = (_, _) |- _ => unfold loadResume in H
  | H : ensureOutputDir _ _ _ = (_, _) |- _ => unfold ensureOutputDir in H
  | H : cleanUp _ _ _ _ = (_, _) |- _ => unfold cleanUp in H
  | H : reportPDF _ _ = (_, _) |- _ => unfold reportPDF in H
  | H : reportHTML _ _ = (_, _) |- _ => unfold reportHTML in H
  | H : ExportPdf.reportAndExit _ _ = (_, _) |- _ =>
      unfold ExportPdf.reportAndExit in H
  | H : (if ?b then _ else _) _ = (_, _) |- _ => destruct b eqn:?
  | H : (let '(_, _) := ?x in _) _ = (_, _) |- _ => destruct x
  end.

Ltac run_inv :=
  repeat (run_inv_step; simplify_eq;
          cbn [Sys.fs Sys.engines Sys.calls Sys.console Sys.initial fst snd] in * ).

(** Start the inversion of a run of one of the three operations. *)
Ltac run_start H :=
  unfold Plain.generateResumePDF, Banded.generateResumePDF,
    generateResumeHTML, ExportPdf.exportPDF, Legacy.exportPDF in H;
  cbn [resume outputPath tmpDir Js.typeof Js.toString] in H.


(** Membership in a trace that is written out. *)
Ltac in_trace :=
  first [ apply list_elem_of_here | apply list_elem_of_further; in_trace ].

Ltac not_in_trace H :=
  repeat (apply elem_of_cons in H as [H|H]; [discriminate H|]);
  by apply elem_of_nil in H.

Ltac solve_trace :=
  cbn [is_ok app Init.Nat.pred] in *;
  repeat split; intros; simplify_eq;
  first [ reflexivity
        | in_trace
        | match goal with H : _ ∉ _ |- _ => exfalso; apply H; in_trace end
        | match goal with H : _ ∈ _ |- _ => exfalso; not_in_trace H end ].

Ltac existence_facts :=
  repeat match goal with
    | H : negb _ = true |- _ => apply negb_true_iff in H
    | H : negb _ = false |- _ => apply negb_false_iff in H
    | H : bool_decide (is_Some _) = false |- _ =>
        apply bool_decide_eq_false in H; rewrite <-eq_None_not_Some in H
    | H : bool_decide (is_Some _) = true |- _ =>
        apply bool_decide_eq_true in H
    end.



Section MissingInput.
Import Js Sys.

Ltac missing_input Hp :=
  cbn [toString app] in *; rewrite ?Hp in *;
  first [ done
        | repeat split; reflexivity
        | exfalso;
          match goal with
          | H : negb _ = false |- _ => vm_compute in H; discriminate H
          end ].

(** C6. When nothing exists at the path given as input, the two
    PDF-generation variants and the HTML generation fail with the
    "Resume file not found" error; the file store is left as it was and
    the existence check is the only call that left the program: no
    destination file is created, no transient file is written. *)
Theorem missing_input_fails_not_found (env : Env) (p out : string)
    (tmp : option string) (files : gmap string node) :
  files !! p = None →
  let options := {| resume := VStr p; outputPath := out; tmpDir := tmp |} in
  (let '(w, r) := Plain.generateResumePDF env options (initial files) in
   r = Err (notFound p) ∧ fs w = files ∧ calls w = [ExistsSync p false]) ∧
  (let '(w, r) := Banded.generateResumePDF env options (initial files) in
   r = Err (notFound p) ∧ fs w = files ∧ calls w = [ExistsSync p false]) ∧
  (let '(w, r) := generateResumeHTML env (VStr p) (initial files) in
   r = Err (notFound p) ∧ fs w = files ∧ calls w = [ExistsSync p false]).
Proof.
  intros Hp options. subst options. repeat split.
  - destruct (Plain.generateResumePDF _ _ _) as [w r] eqn:H.
    run_start H. run_inv.
    all: missing_input Hp.
  - destruct (Banded.generateResumePDF _ _ _) as [w r] eqn:H.
    run_start H. run_inv.
    all: missing_input Hp.
  - destruct (generateResumeHTML _ _ _) as [w r] eqn:H.
    run_start H. run_inv.
    all: missing_input Hp.
Qed.

End MissingInput.

Section MissingInputWitness.
Import Js Sys.

Lemma missing_input_fails_not_found_witness :
  let options := {| resume := VStr "/nowhere/resume.json";
                    outputPath := "/out/resume.pdf"; tmpDir := None |} in
  (∅ : gmap string node) !! "/nowhere/resume.json" = None ∧
  (Plain.generateResumePDF Sample.env options (initial ∅)).2
    = Err (notFound "/nowhere/resume.json") ∧
  (generateResumeHTML Sample.env (VStr "/nowhere/resume.json") (initial ∅)).2
    = Err (notFound "/nowhere/resume.json").
Proof.
  intros options.
  pose proof (missing_input_fails_not_found Sample.env "/nowhere/resume.json"
                "/out/resume.pdf" None ∅ eq_refl) as (Hplain & _ & Hhtml).
  split; [reflexivity|]. split.
  - destruct (Plain.generateResumePDF _ _ _) as [w r]. apply Hplain.
  - destruct (generateResumeHTML _ _ _) as [w r]. apply Hhtml.
Defined.

End MissingInputWitness.

Section Engine.
Import Js Sys Spec.

Lemma plain_engine_released (env : Env) (options : Options)
    (files : gmap string node) :
  let '(w, r) := Plain.generateResumePDF env options (initial files) in
  (is_ok r = true → engines w = 0 ∧ BrowserClose ∈ calls w) ∧
  (is_ok r = false → Launch ∈ calls w → BrowserClose ∉ calls w →
   engines w = 1).
Proof.
  destruct (Plain.generateResumePDF _ _ _) as [w r] eqn:H.
  run_start H. run_inv.
  all: solve_trace.
Qed.

Lemma banded_engine_released (env : Env) (options : Options)
    (files : gmap string node) :
  let '(w, r) := Banded.generateResumePDF env options (initial files) in
  (is_ok r = true → engines w = 0 ∧ BrowserClose ∈ calls w) ∧
  (is_ok r = false → Launch ∈ calls w → BrowserClose ∉ calls w →
   engines w = 1).
Proof.
  destruct (Banded.generateResumePDF _ _ _) as [w r] eqn:H.
  run_start H. run_inv.
  all: solve_trace.
Qed.

(** C2, as the code has it.  When the export succeeds the engine has
    been closed before the operation returns.  When a step fails after
    the launch and before the close, the error is passed on with the
    engine still running: the close sits on the success path only. *)
Theorem engine_released_on_success (env : Env) (options : Options)
    (files : gmap string node) :
  (let '(w, r) := Plain.generateResumePDF env options (initial files) in
   (is_ok r = true → engines w = 0 ∧ BrowserClose ∈ calls w) ∧
   (is_ok r = false → Launch ∈ calls w → BrowserClose ∉ calls w →
    engines w = 1)) ∧
  (let '(w, r) := Banded.generateResumePDF env options (initial files) in
   (is_ok r = true → engines w = 0 ∧ BrowserClose ∈ calls w) ∧
   (is_ok r = false → Launch ∈ calls w → BrowserClose ∉ calls w →
    engines w = 1)).
Proof.
  split; [apply plain_engine_released|apply banded_engine_released].
Qed.

Lemma engine_released_on_success_witness :
  let w := (Plain.generateResumePDF Sample.env Sample.janeToOut (initial ∅)).1 in
  engines w = 0 ∧ BrowserClose ∈ calls w.
Proof.
  intros w. subst w.
  pose proof (proj1 (engine_released_on_success Sample.env Sample.janeToOut ∅)) as H.
  destruct (Plain.generateResumePDF _ _ _) as [w r] eqn:Hrun.
  vm_compute in Hrun. injection Hrun as <- <-.
  apply H. reflexivity.
Defined.

(** C2, as it is written, fails: when [page.setContent] times out the
    operation passes the error on, no close was issued and the engine it
    launched is still running. *)
Lemma engine_left_running_on_failure :
  (let '(w, r) := Plain.generateResumePDF Sample.stalled Sample.janeToOut
                    (initial ∅) in
   r = Err (EngineError "Navigation timeout of 30000 ms exceeded") ∧
   Launch ∈ calls w ∧ (BrowserClose ∉ calls w) ∧ engines w = 1) ∧
  (let '(w, r) := Banded.generateResumePDF Sample.stalled Sample.janeToOut
                    (initial ∅) in
   r = Err (EngineError "Navigation timeout of 30000 ms exceeded") ∧
   Launch ∈ calls w ∧ (BrowserClose ∉ calls w) ∧ engines w = 1) ∧
  ¬ engine_released_on_every_exit Plain.generateResumePDF ∧
  ¬ engine_released_on_every_exit Banded.generateResumePDF.
Proof.
  assert (∀ generate : Env → Options → M string,
            (let '(w, r) := generate Sample.stalled Sample.janeToOut (initial ∅) in
             r = Err (EngineError "Navigation timeout of 30000 ms exceeded") ∧
             Launch ∈ calls w ∧ (BrowserClose ∉ calls w) ∧ engines w = 1) →
            ¬ engine_released_on_every_exit generate) as Hneg.
  { intros generate Hrun Hall.
    specialize (Hall Sample.stalled Sample.janeToOut ∅).
    destruct (generate _ _ _) as [w r].
    destruct Hrun as (_ & Hlaunch & _ & Hone).
    specialize (Hall Hlaunch). congruence. }
  assert (let '(w, r) := Plain.generateResumePDF Sample.stalled Sample.janeToOut
                           (initial ∅) in
          r = Err (EngineError "Navigation timeout of 30000 ms exceeded") ∧
          Launch ∈ calls w ∧ (BrowserClose ∉ calls w) ∧ engines w = 1) as Hplain.
  { destruct (Plain.generateResumePDF _ _ _) as [w r] eqn:Hrun.
    vm_compute in Hrun. injection Hrun as <- <-. cbn [calls engines].
    repeat split; [in_trace|]. intros Hin. not_in_trace Hin. }
  assert (let '(w, r) := Banded.generateResumePDF Sample.stalled Sample.janeToOut
                           (initial ∅) in
          r = Err (EngineError "Navigation timeout of 30000 ms exceeded") ∧
          Launch ∈ calls w ∧ (BrowserClose ∉ calls w) ∧ engines w = 1) as Hbanded.
  { destruct (Banded.generateResumePDF _ _ _) as [w r] eqn:Hrun.
    vm_compute in Hrun. injection Hrun as <- <-. cbn [calls engines].
    repeat split; [in_trace|]. intros Hin. not_in_trace Hin. }
  split; [exact Hplain|]. split; [exact Hbanded|].
  split; apply Hneg; assumption.
Qed.

End Engine.

Section Cleanup.
Import Js Sys Spec.





End Cleanup.

(** The answers of the existence checks, written out in the trace. *)
Ltac settle_checks :=
  repeat match goal with
    | H : negb ?b = true |- _ =>
        apply negb_true_iff in H; rewrite ?H in *
    | H : negb ?b = false |- _ =>
        apply negb_false_iff in H; rewrite ?H in *
    end.



Section Output.
Import Js Sys Spec.





End Output.

Section NullInput.
Import Js Sys Spec.

Ltac solve_null Hfault Htheme :=
  cbn [app] in *; split; [by eexists _, _|];
  let Hr := fresh in
  intros Hr; simplify_eq;
  repeat match goal with
    | H : from_outside _ rejection |- _ =>
        destruct H as [[? H]|(? & ? & H)]; [by eapply Hfault|discriminate H]
    | H : Err rejection = Header.basicsOf VNull |- _ => discriminate H
    | H : Err rejection = theme_render _ VNull |- _ => by apply Htheme
    end.

Lemma plain_null_first_call (env : Env) (out : string) (tmp : option string)
    (files : gmap string node) :
  (∀ c, fault env c ≠ Some rejection) →
  theme_render env VNull ≠ Err rejection →
  let options := {| resume := VNull; outputPath := out; tmpDir := tmp |} in
  let '(w, r) := Plain.generateResumePDF env options (initial files) in
  (∃ found rest, calls w = ExistsSync (default "/tmp" tmp) found :: rest) ∧
  r ≠ Err rejection.
Proof.
  intros Hfault Htheme options. subst options.
  destruct (Plain.generateResumePDF _ _ _) as [w r] eqn:H.
  run_start H. run_inv.
  all: solve_null Hfault Htheme.
Qed.

Lemma banded_null_first_call (env : Env) (out : string) (tmp : option string)
    (files : gmap string node) :
  (∀ c, fault env c ≠ Some rejection) →
  theme_render env VNull ≠ Err rejection →
  let options := {| resume := VNull; outputPath := out; tmpDir := tmp |} in
  let '(w, r) := Banded.generateResumePDF env options (initial files) in
  (∃ found rest, calls w = ExistsSync (default "/tmp" tmp) found :: rest) ∧
  r ≠ Err rejection.
Proof.
  intros Hfault Htheme options. subst options.
  destruct (Banded.generateResumePDF _ _ _) as [w r] eqn:H.
  run_start H. run_inv.
  all: solve_null Hfault Htheme.
Qed.

Lemma html_null_rendered (env : Env) (files : gmap string node) :
  let '(w, r) := generateResumeHTML env VNull (initial files) in
  r = theme_render env VNull ∧ calls w = [].
Proof.
  destruct (generateResumeHTML _ _ _) as [w r] eqn:H.
  run_start H. run_inv.
  all: done.
Qed.

(** An input that is neither a string nor an object (nor [null]) is
    turned away before any call leaves the program. *)
Lemma other_inputs_rejected (env : Env) (options : Options)
    (files : gmap string node) :
  typeof (resume options) ≠ "string" → typeof (resume options) ≠ "object" →
  (Plain.generateResumePDF env options (initial files)).2 = Err rejection ∧
  (Banded.generateResumePDF env options (initial files)).2 = Err rejection ∧
  (generateResumeHTML env (resume options) (initial files)).2 = Err rejection.
Proof.
  intros Hs%String.eqb_neq Ho%String.eqb_neq. repeat split.
  - destruct (Plain.generateResumePDF _ _ _) as [w r] eqn:H.
    run_start H. run_inv. all: first [done | congruence].
  - destruct (Banded.generateResumePDF _ _ _) as [w r] eqn:H.
    run_start H. run_inv. all: first [done | congruence].
  - destruct (generateResumeHTML _ _ _) as [w r] eqn:H.
    run_start H. run_inv. all: first [done | congruence].
Qed.

(** C9. [typeof null] is ["object"], so [null] is not turned away at the
    input boundary.  PDF generation takes the branch of the in-memory
    object: its first call is the check of the temporary directory that
    precedes the writing of the transient file.  HTML generation hands
    [null] to the renderer and returns what the renderer returns.  None
    of them ends with the "Resume must be either a JSON object or a file
    path string" error, unless the environment itself (a failing call or
    the renderer) throws an error with that very text. *)
Theorem null_taken_as_object (env : Env) (out : string) (tmp : option string)
    (files : gmap string node) :
  (∀ c, fault env c ≠ Some rejection) →
  theme_render env VNull ≠ Err rejection →
  let options := {| resume := VNull; outputPath := out; tmpDir := tmp |} in
  typeof VNull = "object" ∧
  (let '(w, r) := Plain.generateResumePDF env options (initial files) in
   (∃ found rest, calls w = ExistsSync (default "/tmp" tmp) found :: rest) ∧
   r ≠ Err rejection) ∧
  (let '(w, r) := Banded.generateResumePDF env options (initial files) in
   (∃ found rest, calls w = ExistsSync (default "/tmp" tmp) found :: rest) ∧
   r ≠ Err rejection) ∧
  (let '(w, r) := generateResumeHTML env VNull (initial files) in
   r = theme_render env VNull ∧ calls w = [] ∧ r ≠ Err rejection).
Proof.
  intros Hfault Htheme options. subst options. split; [reflexivity|].
  split; [by apply plain_null_first_call|].
  split; [by apply banded_null_first_call|].
  pose proof (html_null_rendered env files) as H.
  destruct (generateResumeHTML _ _ _) as [w r].
  destruct H as [-> ->]. done.
Qed.

Lemma null_taken_as_object_witness :
  let options := {| resume := VNull; outputPath := "/out/null.pdf";
                    tmpDir := Some "/work" |} in
  (∃ found rest,
     calls (Plain.generateResumePDF Sample.env options (initial ∅)).1 =
     ExistsSync "/work" found :: rest) ∧
  (Plain.generateResumePDF Sample.env options (initial ∅)).2 ≠ Err rejection ∧
  (generateResumeHTML Sample.env VNull (initial ∅)).2 = theme_render Sample.env VNull.
Proof.
  intros options. subst options.
  destruct (null_taken_as_object Sample.env "/out/null.pdf" (Some "/work") ∅)
    as (_ & Hplain & _ & Hhtml); [done..|].
  destruct (Plain.generateResumePDF _ _ _) as [w r].
  destruct (generateResumeHTML _ _ _) as [w' r'].
  destruct Hplain as [Hcall Hr], Hhtml as (Hr' & _ & _). done.
Defined.

End NullInput.

Section HiddenHeader.
Import Js Str Header Sys Spec.

Ltac solve_content :=
  cbn [app] in *; intros;
  repeat match goal with
    | H : _ ∈ _ :: _ |- _ =>
        apply elem_of_cons in H as [H|H]; [try discriminate H|]
    | H : _ ∈ [] |- _ => by apply elem_of_nil in H
    end;
  simplify_eq; by eauto.

(** The page content given to the engine is the rendered document after
    the replacement. *)
Lemma banded_content_set (env : Env) (options : Options)
    (files : gmap string node) (h : string) :
  SetContent h ∈ calls (Banded.generateResumePDF env options (initial files)).1 →
  ∃ data doc, theme_render env data = Ok doc ∧ h = htmlWithHiddenHeader doc.
Proof.
  destruct (Banded.generateResumePDF _ _ _) as [w r] eqn:H.
  run_start H. run_inv.
  all: solve_content.
Qed.

(** C10. The replacement touches the first occurrence of [<style>] only:
    the rule that hides the in-document header is put right after it and
    the rest of the document, later occurrences included, is copied.  A
    document without [<style>] comes back as it is, and it is this
    unchanged document that is set as the content of the page. *)
Theorem header_hidden_at_first_style_only (html : string) :
  (includes "<style>" html = false → htmlWithHiddenHeader html = html) ∧
  (∀ pre post,
     html = pre +:+ "<style>" +:+ post →
     (∀ m, m < String.length pre →
           String.prefix "<style>" (drop m html) = false) →
     htmlWithHiddenHeader html =
     pre +:+ ("<style>" +:+ nl +:+
              "    .resume-header { display: none !important; }" +:+ nl) +:+
     post) ∧
  (∀ env options files h,
     SetContent h ∈ calls (Banded.generateResumePDF env options (initial files)).1 →
     ∃ data doc, theme_render env data = Ok doc ∧ h = htmlWithHiddenHeader doc ∧
       (includes "<style>" doc = false → h = doc)).
Proof.
  split; [|split].
  - apply replace_absent.
  - intros pre post -> Hfirst. by apply replace_leftmost.
  - intros env options files h Hset.
    destruct (banded_content_set env options files h Hset) as (data & doc & Hdoc & ->).
    exists data, doc. repeat split; [done|]. apply replace_absent.
Qed.

Lemma header_hidden_at_first_style_only_witness :
  htmlWithHiddenHeader "<p>plain</p>" = "<p>plain</p>" ∧
  htmlWithHiddenHeader "<head><style>a{}</style><style>b{}</style></head>" =
  "<head>" +:+ ("<style>" +:+ nl +:+
                "    .resume-header { display: none !important; }" +:+ nl) +:+
  "a{}</style><style>b{}</style></head>".
Proof.
  split.
  - apply (proj1 (header_hidden_at_first_style_only "<p>plain</p>")).
    reflexivity.
  - apply (proj1 (proj2 (header_hidden_at_first_style_only
             "<head><style>a{}</style><style>b{}</style></head>"))
             "<head>" "a{}</style><style>b{}</style></head>").
    + reflexivity.
    + intros m Hm. simpl in Hm.
      do 6 (destruct m as [|m]; [reflexivity|]). lia.
Defined.

End HiddenHeader.

Section Collision.
Import Js Sys Spec.

Ltac solve_written :=
  cbn [app] in *; intros;
  repeat match goal with
    | H : _ ∈ _ :: _ |- _ =>
        apply elem_of_cons in H as [H|H]; [try discriminate H|]
    | H : _ ∈ [] |- _ => by apply elem_of_nil in H
    end;
  by simplify_eq.

Lemma plain_transient_path env options files p :
  writes_transient Plain.generateResumePDF env options files p →
  p = Path.join (default "/tmp" (tmpDir options)) (transientName (Date_now env)).
Proof.
  intros [data Hw]. revert Hw.
  destruct (Plain.generateResumePDF _ _ _) as [w r] eqn:H.
  run_start H. run_inv.
  all: solve_written.
Qed.

Lemma banded_transient_path env options files p :
  writes_transient Banded.generateResumePDF env options files p →
  p = Path.join (default "/tmp" (tmpDir options)) (transientName (Date_now env)).
Proof.
  intros [data Hw]. revert Hw.
  destruct (Banded.generateResumePDF _ _ _) as [w r] eqn:H.
  run_start H. run_inv.
  all: solve_written.
Qed.

(** C5, as the code has it.  The name of the transient file is made of
    the clock reading alone: two invocations with the same temporary
    directory write their transient files at the same path exactly when
    they read the same millisecond. *)
Theorem transient_names_differ_iff_clock_differs
    (env1 env2 : Env) (options1 options2 : Options)
    (files1 files2 : gmap string node) (p1 p2 : string) :
  tmpDir options1 = tmpDir options2 →
  (writes_transient Plain.generateResumePDF env1 options1 files1 p1 →
   writes_transient Plain.generateResumePDF env2 options2 files2 p2 →
   p1 = p2 ↔ Date_now env1 = Date_now env2) ∧
  (writes_transient Banded.generateResumePDF env1 options1 files1 p1 →
   writes_transient Banded.generateResumePDF env2 options2 files2 p2 →
   p1 = p2 ↔ Date_now env1 = Date_now env2).
Proof.
  intros Htmp. split.
  - intros ->%plain_transient_path ->%plain_transient_path.
    rewrite Htmp. apply transient_path_eq.
  - intros ->%banded_transient_path ->%banded_transient_path.
    rewrite Htmp. apply transient_path_eq.
Qed.

Lemma sample_writes_transient env options p :
  (let w := (Plain.generateResumePDF env options (initial ∅)).1 in
   bool_decide (WriteFile p (JSON_stringify env (resume options)) ∈ calls w)) = true →
  writes_transient Plain.generateResumePDF env options ∅ p.
Proof. intros H%bool_decide_eq_true. by eexists. Qed.

Lemma transient_names_differ_iff_clock_differs_witness :
  "/tmp/resume_1764028800000.json" = "/tmp/resume_1764028800001.json" ↔
  Date_now Sample.env = Date_now Sample.later.
Proof.
  refine (proj1 (transient_names_differ_iff_clock_differs
            Sample.env Sample.later Sample.janeToOut Sample.johnToOut ∅ ∅
            _ _ eq_refl) _ _).
  - apply sample_writes_transient. vm_compute. reflexivity.
  - apply sample_writes_transient. vm_compute. reflexivity.
Defined.

(** C5, as it is written, fails: two invocations that read the same
    millisecond, here for two different resumes, write their transient
    files at the same path. *)
Lemma transient_names_collide :
  writes_transient Plain.generateResumePDF Sample.env Sample.janeToOut ∅
    "/tmp/resume_1764028800000.json" ∧
  writes_transient Plain.generateResumePDF Sample.env Sample.johnToOut ∅
    "/tmp/resume_1764028800000.json" ∧
  ¬ transient_names_never_collide Plain.generateResumePDF.
Proof.
  assert (writes_transient Plain.generateResumePDF Sample.env Sample.janeToOut ∅
            "/tmp/resume_1764028800000.json") as Hjane.
  { apply sample_writes_transient. vm_compute. reflexivity. }
  assert (writes_transient Plain.generateResumePDF Sample.env Sample.johnToOut ∅
            "/tmp/resume_1764028800000.json") as Hjohn.
  { apply sample_writes_transient. vm_compute. reflexivity. }
  split; [exact Hjane|]. split; [exact Hjohn|].
  intros H.
  by apply (H Sample.env Sample.env Sample.janeToOut Sample.johnToOut ∅ ∅
              "/tmp/resume_1764028800000.json" "/tmp/resume_1764028800000.json").
Qed.

End Collision.

Section LegacyHeader.
Import Js Sys Spec.

(** C7, on the code.  The header block of [export-pdf.js] defaults a
    missing [basics] to the empty object and a missing name to the empty
    text (see [header_defaults_missing_values]); the earlier variant of
    [exportPDF] reads [resumeData.basics.name] without any default.  On
    the resume [{}] it throws a [TypeError]; the export prints the error
    and exits with code 1 before anything is printed, where the guarded
    block yields the header with empty name and empty strip. *)
Theorem legacy_header_throws_without_basics :
  Legacy.headerTemplate (VObj []) =
    Err (TypeError "Cannot read properties of undefined (reading 'name')") ∧
  Header.headerTemplate (VObj []) = Ok (Header.headerMarkup "" "") ∧
  (let '(w, _) := Legacy.exportPDF Sample.env (initial Sample.emptyResumeOnDisk) in
   calls w = [ReadFile "./resume.json"; Launch; NewPage;
              SetContent "<!doctype html><html><head><style>body{}</style></head><body></body></html>";
              ProcessExit 1] ∧
   console w = ["❌ Error exporting PDF: Cannot read properties of undefined (reading 'name')"]) ∧
  (let '(w, _) := ExportPdf.exportPDF Sample.env (initial Sample.emptyResumeOnDisk) in
   ∃ html o, calls w = [ReadFile "./resume.json"; Launch; NewPage;
                        SetContent html; PagePdf html o; BrowserClose] ∧
             headerTemplate o = Some (Header.headerMarkup "" "")).
Proof.
  split; [reflexivity|]. split; [reflexivity|]. split.
  - destruct (Legacy.exportPDF _ _) as [w r] eqn:Hrun.
    vm_compute in Hrun. injection Hrun as <- _. split; reflexivity.
  - destruct (ExportPdf.exportPDF _ _) as [w r] eqn:Hrun.
    vm_compute in Hrun. injection Hrun as <- _.
    eexists _, _. split; reflexivity.
Qed.

End LegacyHeader.

(** * Further properties *)

(** ** The contact strip *)

Section StripShape.
Import Js Str Header Spec.

(** X1. When [basics.email] is truthy the contact strip is well formed:
    the present segments in the order LinkedIn, phone, email, GitHub
    with exactly one divider between two neighbours, and the synthesis
    fails exactly when the scan of the profiles does. *)
Theorem strip_well_formed_with_email (basics email : value) :
  get "email" basics = Ok email → truthy email = true →
  contactInfo basics = contactStrip basics.
Proof.
  intros Hget Htruthy. apply (contactInfo_with_email _ (emailLink (toString email))).
  unfold emailSegment. by rewrite Hget, bind_Ok, Htruthy.
Qed.

Lemma strip_well_formed_with_email_witness :
  contactInfo Sample.fullBasics =
  Ok (join divider [linkedinLink "https://linkedin.com/in/jane";
                    phoneSpan "555-0100"; emailLink "jane@example.com";
                    githubLink "https://github.com/jane"]).
Proof.
  rewrite (strip_well_formed_with_email Sample.fullBasics (VStr "jane@example.com"));
    reflexivity.
Defined.

(** X2. When [basics.email] is falsy the strip is well formed only if it
    is empty: as soon as one of the other segments is present the code
    writes one divider more than the segments have gaps. *)
Theorem strip_one_divider_too_many_without_email (basics email : value)
    (s s' : string) :
  get "email" basics = Ok email → truthy email = false →
  contactInfo basics = Ok s → contactStrip basics = Ok s' →
  (s' = "" → s = "") ∧
  (s' ≠ "" → String.length s = String.length s' + String.length divider ∧ s ≠ s').
Proof.
  intros Hget Hfalsy Hs Hs'.
  assert (emailSegment basics = Ok None) as He.
  { unfold emailSegment. by rewrite Hget, bind_Ok, Hfalsy. }
  pose proof (contactInfo_without_email basics s s' He Hs Hs') as Hlen.
  split.
  - intros ->. simpl in Hlen. by destruct s.
  - intros Hne. apply String.eqb_neq in Hne. rewrite Hne in Hlen.
    split; [done|]. intros ->. rewrite length_divider in Hlen. lia.
Qed.

Lemma strip_one_divider_too_many_without_email_witness :
  String.length (linkedinLink "https://linkedin.com/in/jane" +:+ divider) =
  String.length (linkedinLink "https://linkedin.com/in/jane") + String.length divider.
Proof.
  refine (proj1 (proj2 (strip_one_divider_too_many_without_email
            Sample.onlyLinkedin VUndefined _ _ _ _ _ _) _)); done.
Defined.

End StripShape.

Section ProfileScan.
Import Js Str Header Spec.

Lemma malformed_not_scannable p : malformed p → ¬ scannable p.
Proof.
  intros [->|[->|(n & Hget & Ht & Hn)]] (n' & Hget' & Hstr); [done..|].
  rewrite Hget in Hget'. injection Hget' as <-.
  destruct (Hstr Ht) as [s ->]. by eapply Hn.
Qed.

Lemma isNetwork_malformed target p :
  malformed p → ∃ m, isNetwork target p = Err (TypeError m).
Proof.
  intros [->|[->|(n & Hget & Ht & Hn)]]; [by eexists..|].
  unfold isNetwork. rewrite Hget, bind_Ok, Ht.
  destruct n; try by eexists. by destruct (Hn s).
Qed.

Lemma isNetwork_truthy target p v :
  isNetwork (toLowerCase target) p = Ok v → truthy v = true → networkIs target p.
Proof.
  unfold isNetwork, networkIs.
  destruct (get "network" p) as [n|]; [|done]. rewrite bind_Ok.
  destruct (truthy n) eqn:Ht; [|by intros [= <-]; rewrite Ht].
  destruct n; try done. simpl. intros [= <-]. simpl.
  intros Heq%String.eqb_eq. eauto.
Qed.

(** The scan over entries it can look at: it stops at the first one that
    carries the name, or goes through all of them. *)
Lemma find_scan target before rest :
  toLowerCase target ≠ "" →
  Forall scannable before →
  (Exists (networkIs target) before ∧
   ∃ p, find (isNetwork (toLowerCase target)) (before ++ rest) = Ok p ∧
        networkIs target p) ∨
  (¬ Exists (networkIs target) before ∧
   find (isNetwork (toLowerCase target)) (before ++ rest) =
   find (isNetwork (toLowerCase target)) rest).
Proof.
  intros Hne Hscan. induction Hscan as [|a before Ha _ IH].
  - right. split; [by intros ?%Exists_nil|done].
  - destruct Ha as (n & Hget & Hstr).
    destruct (isNetwork (toLowerCase target) a) as [v|e] eqn:Hv.
    + destruct (truthy v) eqn:Ht.
      * left. pose proof (isNetwork_truthy _ _ _ Hv Ht) as Hnet.
        split; [by left|]. exists a. simpl. by rewrite Hv, bind_Ok, Ht.
      * assert (¬ networkIs target a) as Hno.
        { intros (s & Hs & Hlow).
          rewrite (isNetwork_match _ _ _ Hs Hlow Hne) in Hv. by simplify_eq. }
        destruct IH as [[Hex (p & Hp & Hnet)]|[Hnex Hfind]].
        -- left. split; [by right|]. exists p. simpl.
           by rewrite Hv, bind_Ok, Ht.
        -- right. split.
           ++ intros [?|?]%Exists_cons; done.
           ++ simpl. by rewrite Hv, bind_Ok, Ht.
    + exfalso. unfold isNetwork in Hv. rewrite Hget, bind_Ok in Hv.
      destruct (truthy n) eqn:Ht; [|done].
      destruct (Hstr eq_refl) as [s ->]. done.
Qed.

Lemma linkedinPart_scan props before q after :
  assoc "profiles" props = Some (VArr (before ++ q :: after)) →
  Forall scannable before → malformed q →
  is_ok (linkedinPart (VObj props)) = true ↔ Exists (networkIs "LinkedIn") before.
Proof.
  intros Hp Hscan Hq. unfold linkedinPart. simpl get. rewrite Hp. simpl default.
  rewrite bind_Ok. simpl truthy. cbv iota. simpl profiles_find.
  change (isNetwork "linkedin") with (isNetwork (toLowerCase "LinkedIn")).
  destruct (find_scan "LinkedIn" before (q :: after) ltac:(done) Hscan)
    as [[Hex (p & -> & Hnet)]|[Hnex ->]].
  - rewrite bind_Ok.
    destruct (networkIs_object "LinkedIn" p ltac:(done) Hnet) as [-> [url ->]].
    done.
  - destruct (isNetwork_malformed "linkedin" q Hq) as [m Hm].
    change (isNetwork (toLowerCase "LinkedIn")) with (isNetwork "linkedin").
    cbn [find]. rewrite Hm. simpl. split; [done|]. by intros ?.
Qed.

Lemma githubPart_scan props before q after :
  assoc "profiles" props = Some (VArr (before ++ q :: after)) →
  Forall scannable before → malformed q →
  is_ok (githubPart (VObj props)) = true ↔ Exists (networkIs "GitHub") before.
Proof.
  intros Hp Hscan Hq. unfold githubPart. simpl get. rewrite Hp. simpl default.
  rewrite bind_Ok. simpl truthy. cbv iota. simpl profiles_find.
  change (isNetwork "github") with (isNetwork (toLowerCase "GitHub")).
  destruct (find_scan "GitHub" before (q :: after) ltac:(done) Hscan)
    as [[Hex (p & -> & Hnet)]|[Hnex ->]].
  - rewrite bind_Ok.
    destruct (networkIs_object "GitHub" p ltac:(done) Hnet) as [-> [url ->]].
    done.
  - destruct (isNetwork_malformed "github" q Hq) as [m Hm].
    change (isNetwork (toLowerCase "GitHub")) with (isNetwork "github").
    cbn [find]. rewrite Hm. simpl. split; [done|]. by intros ?.
Qed.

Lemma phonePart_object props : ∃ s, phonePart (VObj props) = Ok s.
Proof.
  unfold phonePart. simpl get. rewrite bind_Ok.
  destruct (truthy _); by eexists.
Qed.

Lemma emailPart_object props : ∃ s, emailPart (VObj props) = Ok s.
Proof.
  unfold emailPart. simpl get. rewrite bind_Ok.
  destruct (truthy _); by eexists.
Qed.

(** X4. Malformed profiles make the header synthesis throw.  When
    [basics.profiles] is truthy and not an array the synthesis fails
    with a [TypeError].  When a malformed entry ([null], or an entry
    whose [network] is truthy and not a string) follows entries the scan
    can look at, the synthesis succeeds exactly when both a LinkedIn and
    a GitHub entry come before the malformed one: each of the two scans
    stops at its first match and fails if it reaches the malformed
    entry. *)
Theorem malformed_profiles_break_header (props : list (string * value)) :
  (∀ v, assoc "profiles" props = Some v → truthy v = true →
        (∀ items, v ≠ VArr items) →
        contactInfo (VObj props) =
        Err (TypeError "basics.profiles.find is not a function")) ∧
  (∀ before q after,
     assoc "profiles" props = Some (VArr (before ++ q :: after)) →
     Forall scannable before → malformed q →
     is_ok (contactInfo (VObj props)) = true ↔
     Exists (networkIs "LinkedIn") before ∧ Exists (networkIs "GitHub") before).
Proof.
  split.
  - intros v Hp Ht Hv. unfold contactInfo, linkedinPart. simpl get.
    rewrite Hp. simpl default. rewrite bind_Ok, Ht.
    destruct v; try done. by destruct (Hv items).
  - intros before q after Hp Hscan Hq.
    pose proof (linkedinPart_scan props before q after Hp Hscan Hq) as Hl.
    pose proof (githubPart_scan props before q after Hp Hscan Hq) as Hg.
    destruct (phonePart_object props) as [ph Hph].
    destruct (emailPart_object props) as [em Hem].
    unfold contactInfo. rewrite Hph, Hem.
    destruct (linkedinPart (VObj props)) as [l|]; simpl in Hl |- *.
    + destruct (githubPart (VObj props)) as [g|]; simpl in Hg |- *.
      * split; [intros _|done]. split; [by apply Hl|by apply Hg].
      * split; [done|]. intros [_ ?]. by apply Hg.
    + split; [done|]. intros [? _]. by apply Hl.
Qed.

Lemma malformed_profiles_break_header_witness :
  is_ok (contactInfo (VObj Sample.profilesWithNull)) = false.
Proof.
  destruct (is_ok (contactInfo (VObj Sample.profilesWithNull))) eqn:Hok; [|done].
  exfalso.
  apply (proj2 (malformed_profiles_break_header Sample.profilesWithNull)
           [Sample.profile "LinkedIn" "https://linkedin.com/in/jane"] VNull
           [Sample.profile "GitHub" "https://github.com/jane"]) in Hok.
  - destruct Hok as [_ Hgithub]. apply Exists_cons in Hgithub as [Hg|Hg].
    + destruct Hg as (s & [= <-] & Hlow). discriminate Hlow.
    + by apply Exists_nil in Hg.
  - reflexivity.
  - repeat constructor. exists (VStr "LinkedIn"). split; [done|]. eauto.
  - by left.
Defined.

(** X5. The link of a selected profile is not checked: when the first
    LinkedIn (GitHub) entry has no [url], the segment is still written
    and its link points to the text [undefined]. *)
Theorem missing_url_links_to_undefined (basics : value)
    (before after : list value) (entry : list (string * value)) :
  get "profiles" basics = Ok (VArr (before ++ VObj entry :: after)) →
  assoc "url" entry = None →
  (Forall (λ q, scannable q ∧ ¬ networkIs "LinkedIn" q) before →
   networkIs "LinkedIn" (VObj entry) →
   linkedinPart basics = Ok (linkedinLink "undefined" +:+ divider)) ∧
  (Forall (λ q, scannable q ∧ ¬ networkIs "GitHub" q) before →
   networkIs "GitHub" (VObj entry) →
   githubPart basics = Ok (divider +:+ githubLink "undefined")).
Proof.
  intros Hprofiles Hurl. split; intros Hbefore Hp.
  - pose proof (find_network_first "LinkedIn" before (VObj entry) after
                  ltac:(done) Hbefore Hp) as Hfind.
    unfold linkedinPart. rewrite Hprofiles, bind_Ok. simpl truthy. cbv iota.
    change (isNetwork "linkedin") with (isNetwork (toLowerCase "LinkedIn")).
    rewrite Hfind, bind_Ok. simpl. by rewrite Hurl.
  - pose proof (find_network_first "GitHub" before (VObj entry) after
                  ltac:(done) Hbefore Hp) as Hfind.
    unfold githubPart. rewrite Hprofiles, bind_Ok. simpl truthy. cbv iota.
    change (isNetwork "github") with (isNetwork (toLowerCase "GitHub")).
    rewrite Hfind, bind_Ok. simpl. by rewrite Hurl.
Qed.

Lemma missing_url_links_to_undefined_witness :
  linkedinPart Sample.linkedinWithoutUrl = Ok (linkedinLink "undefined" +:+ divider).
Proof.
  apply (proj1 (missing_url_links_to_undefined Sample.linkedinWithoutUrl
                  [] [] [("network", VStr "LINKEDIN")] eq_refl eq_refl)).
  - constructor.
  - exists "LINKEDIN". split; reflexivity.
Defined.

End ProfileScan.

(** ** The hidden header *)

Section HiddenRule.
Import Js Str Header Spec.

Lemma prefix_split pat s :
  String.prefix pat s = true → s = pat +:+ drop (String.length pat) s.
Proof.
  revert s. induction pat as [|c pat IH]; intros s; [by destruct s|].
  destruct s as [|d s]; [done|]. simpl.
  destruct (ascii_dec c d) as [->|]; [|done].
  intros H. rewrite append_cons. f_equal. by apply IH.
Qed.

(** A pattern that occurs has a leftmost occurrence. *)
Lemma includes_leftmost pat s :
  includes pat s = true →
  ∃ pre post, s = pre +:+ pat +:+ post ∧
    ∀ m, m < String.length pre → String.prefix pat (drop m s) = false.
Proof.
  induction s as [|c s IH]; rewrite includes_unfold.
  - rewrite orb_false_r. intros Hp. exists "", (drop (String.length pat) "").
    split; [by apply prefix_split|]. simpl. lia.
  - destruct (String.prefix pat (String c s)) eqn:Hp.
    + intros _. exists "", (drop (String.length pat) (String c s)).
      split; [by apply prefix_split|]. simpl. lia.
    + simpl. intros (pre & post & -> & Hfirst)%IH.
      exists (String c pre), post. split; [done|].
      intros [|m] Hm; [done|]. simpl. apply Hfirst. simpl in Hm. lia.
Qed.

(** X6. Whenever the rendered document holds a [<style>] tag, the rule
    that hides the in-document header is in the document given to the
    engine: it is inserted once, right after the first [<style>], and
    nothing of the document is lost. *)
Theorem hide_rule_inserted_once (html : string) :
  includes "<style>" html = true →
  ∃ pre post,
    html = pre +:+ "<style>" +:+ post ∧
    (∀ m, m < String.length pre → String.prefix "<style>" (drop m html) = false) ∧
    htmlWithHiddenHeader html =
    pre +:+ "<style>" +:+
    (nl +:+ "    .resume-header { display: none !important; }" +:+ nl) +:+ post ∧
    String.length (htmlWithHiddenHeader html) = String.length html + 50.
Proof.
  intros (pre & post & -> & Hfirst)%includes_leftmost.
  exists pre, post. split; [done|]. split; [done|].
  unfold htmlWithHiddenHeader. rewrite (replace_leftmost _ _ _ _ Hfirst).
  unfold hideHeaderRule. rewrite !append_assoc. split; [done|].
  rewrite !length_append. simpl. lia.
Qed.

Lemma hide_rule_inserted_once_witness :
  ∃ pre post,
    "<html><style>p{}</style></html>" = pre +:+ "<style>" +:+ post ∧
    String.length (htmlWithHiddenHeader "<html><style>p{}</style></html>") =
    String.length "<html><style>p{}</style></html>" + 50.
Proof.
  destruct (hide_rule_inserted_once "<html><style>p{}</style></html>" eq_refl)
    as (pre & post & Heq & _ & _ & Hlen).
  by exists pre, post.
Defined.

End HiddenRule.

(** ** The file store after an export *)

(** Lookups in a store that is written out. *)
Ltac settle_lookups :=
  repeat first
    [ rewrite lookup_delete_eq
    | rewrite lookup_insert_eq
    | rewrite lookup_delete_ne by congruence
    | rewrite lookup_insert_ne by congruence
    | rewrite lookup_insert; case_decide; simplify_eq
    | rewrite lookup_delete; case_decide; simplify_eq ].

Ltac typeof_twice :=
  match goal with
  | H1 : String.eqb (Js.typeof ?v) "string" = true,
    H2 : String.eqb (Js.typeof ?v) "object" = true |- _ =>
      apply String.eqb_eq in H1, H2; rewrite H1 in H2; discriminate H2
  end.

Ltac solve_leftover :=
  cbn [is_ok app] in *;
  let Hfail := fresh in
  intros Hfail;
  first [ discriminate Hfail
        | split;
          [ let q := fresh in let Hin := fresh in
            intros q Hin; not_in_trace Hin
          | let d := fresh in let Hin := fresh in
            intros d Hin;
            first [ exfalso; not_in_trace Hin
                  | existence_facts; settle_lookups; by eauto ] ] ].


Section Leftover.
Import Js Sys Spec.

Lemma plain_transient_left (env : Env) (options : Options)
    (files : gmap string node) :
  let transient := Path.join (default "/tmp" (tmpDir options))
                     (transientName (Date_now env)) in
  let '(w, r) := Plain.generateResumePDF env options (initial files) in
  is_ok r = false →
  (∀ q, Unlink q ∉ calls w) ∧
  (∀ data, WriteFile transient data ∈ calls w → is_Some (fs w !! transient)).
Proof.
  intros transient. subst transient.
  destruct (Plain.generateResumePDF _ _ _) as [w r] eqn:H.
  run_start H. run_inv.
  all: solve_leftover.
Qed.

Lemma banded_transient_left (env : Env) (options : Options)
    (files : gmap string node) :
  let transient := Path.join (default "/tmp" (tmpDir options))
                     (transientName (Date_now env)) in
  let '(w, r) := Banded.generateResumePDF env options (initial files) in
  is_ok r = false →
  (∀ q, Unlink q ∉ calls w) ∧
  (∀ data, WriteFile transient data ∈ calls w → is_Some (fs w !! transient)).
Proof.
  intros transient. subst transient.
  destruct (Banded.generateResumePDF _ _ _) as [w r] eqn:H.
  run_start H. run_inv.
  all: solve_leftover.
Qed.

(** X7. A failed export cleans nothing up: no file is unlinked, and a
    transient file that was written before the failure is still in the
    store when the error is passed on (both variants of
    [generateResumePDF]). *)
Theorem transient_file_left_on_failure (env : Env) (options : Options)
    (files : gmap string node) :
  let transient := Path.join (default "/tmp" (tmpDir options))
                     (transientName (Date_now env)) in
  (let '(w, r) := Plain.generateResumePDF env options (initial files) in
   is_ok r = false →
   (∀ q, Unlink q ∉ calls w) ∧
   (∀ data, WriteFile transient data ∈ calls w →
            is_Some (fs w !! transient))) ∧
  (let '(w, r) := Banded.generateResumePDF env options (initial files) in
   is_ok r = false →
   (∀ q, Unlink q ∉ calls w) ∧
   (∀ data, WriteFile transient data ∈ calls w →
            is_Some (fs w !! transient))).
Proof.
  split; [apply plain_transient_left|apply banded_transient_left].
Qed.

Lemma transient_file_left_on_failure_witness :
  let w := (Plain.generateResumePDF
              Sample.stalled Sample.janeToOut (initial ∅)).1 in
  is_Some (fs w !! "/tmp/resume_1764028800000.json").
Proof.
  intros w. subst w.
  pose proof (proj1 (transient_file_left_on_failure
                       Sample.stalled Sample.janeToOut ∅)) as H.
  destruct (Plain.generateResumePDF _ _ _) as [w r] eqn:Hrun.
  vm_compute in Hrun. injection Hrun as <- <-.
  destruct (H eq_refl) as [_ Hleft].
  eapply Hleft. cbn [calls]. in_trace.
Defined.





Lemma on_run {A} (P : World → result A → Prop) (x : World * result A) :
  (let '(w, r) := x in P w r) → P x.1 x.2.
Proof. by destruct x. Qed.

End Leftover.

(** ** What is printed *)

Ltac split_trace :=
  repeat match goal with
    | H : _ ∈ _ :: _ |- _ =>
        apply elem_of_cons in H as [H|H]; [try discriminate H|]
    | H : _ ∈ [] |- _ => by apply elem_of_nil in H
    end.

Ltac solve_printed :=
  cbn [is_ok app] in *;
  first
    [ typeof_twice
    | intros; split_trace; simplify_eq;
      try match goal with
      | H : String.eqb (Js.typeof _) "string" = _ |- _ => rewrite H
      end;
      repeat eexists;
      first [ eassumption | symmetry; eassumption | reflexivity | in_trace ] ].

(** From a statement on the two components of a run to the statement on
    its projections. *)
Ltac on_run_in H :=
  lazymatch type of H with
  | (let '(w, r) := ?x in @?P w r) =>
      let H' := fresh in
      pose proof (on_run P x H) as H'; clear H; rename H' into H;
      cbv beta in H
  end.

Section Printed.
Import Js Header Sys Spec.

Lemma plain_printed (env : Env) (options : Options) (files : gmap string node) :
  let '(w, r) := Plain.generateResumePDF env options (initial files) in
  ∀ html o, PagePdf html o ∈ calls w →
    ∃ data, data_of env files (resume options) data ∧
      theme_render env data = Ok html ∧
      SetContent html ∈ calls w ∧
      o = Plain.pdfOptions (outputPath options).
Proof.
  destruct (Plain.generateResumePDF _ _ _) as [w r] eqn:H.
  run_start H. run_inv.
  all: unfold data_of.
  all: solve_printed.
Qed.

Lemma banded_printed (env : Env) (options : Options) (files : gmap string node) :
  let '(w, r) := Banded.generateResumePDF env options (initial files) in
  ∀ html o, PagePdf html o ∈ calls w →
    ∃ data doc basics name strip,
      data_of env files (resume options) data ∧
      theme_render env data = Ok doc ∧
      html = htmlWithHiddenHeader doc ∧
      SetContent html ∈ calls w ∧
      basicsOf data = Ok basics ∧
      contactInfo basics = Ok strip ∧
      displayName basics = Ok name ∧
      o = Banded.pdfOptions (outputPath options) name strip.
Proof.
  destruct (Banded.generateResumePDF _ _ _) as [w r] eqn:H.
  run_start H. run_inv.
  all: unfold data_of.
  all: solve_printed.
Qed.

(** X10. Whatever [generateResumePDF] prints comes from its input: the
    page printed is the page that was loaded, which is the theme's
    rendering of the resume data (the object given, or the parsed content
    of the file given), as it is in the variant without header and with
    the in-document header hidden in the other; there the header band is
    built from the same data, and the options are those of the variant
    with [path] set to [outputPath]. *)
Theorem printed_page_comes_from_input (env : Env) (options : Options)
    (files : gmap string node) :
  (let '(w, r) := Plain.generateResumePDF env options (initial files) in
   ∀ html o, PagePdf html o ∈ calls w →
     ∃ data, data_of env files (resume options) data ∧
       theme_render env data = Ok html ∧
       SetContent html ∈ calls w ∧
       o = Plain.pdfOptions (outputPath options)) ∧
  (let '(w, r) := Banded.generateResumePDF env options (initial files) in
   ∀ html o, PagePdf html o ∈ calls w →
     ∃ data doc basics name strip,
       data_of env files (resume options) data ∧
       theme_render env data = Ok doc ∧
       html = htmlWithHiddenHeader doc ∧
       SetContent html ∈ calls w ∧
       basicsOf data = Ok basics ∧
       contactInfo basics = Ok strip ∧
       displayName basics = Ok name ∧
       o = Banded.pdfOptions (outputPath options) name strip).
Proof.
  split; [apply plain_printed|apply banded_printed].
Qed.

Lemma printed_page_comes_from_input_witness :
  ∃ data, data_of Sample.env Sample.emptyResumeOnDisk (VStr "./resume.json") data ∧
    theme_render Sample.env data =
    Ok "<!doctype html><html><head><style>body{}</style></head><body></body></html>".
Proof.
  pose proof (printed_page_comes_from_input
                Sample.env Sample.diskToOut Sample.emptyResumeOnDisk) as H.
  apply proj1 in H.
  on_run_in H.
  destruct (H "<!doctype html><html><head><style>body{}</style></head><body></body></html>"
              (Plain.pdfOptions "/out/resume.pdf")) as (data & ? & ? & _).
  - vm_compute. in_trace.
  - by exists data.
Defined.

End Printed.

(** ** What is asked of the file system *)

Ltac typeof_facts :=
  repeat match goal with
    | H : String.eqb (Js.typeof _) _ = true |- _ => apply String.eqb_eq in H
    | H : String.eqb (Js.typeof _) _ = false |- _ => apply String.eqb_neq in H
    end.

Ltac solve_own :=
  cbn [is_ok app] in *;
  first
    [ typeof_twice
    | let c := fresh in let Hc := fresh in
      intros c Hc; split_trace; subst; typeof_facts;
      cbn [Sys.path Plain.pdfOptions Banded.pdfOptions];
      first [ exact I | reflexivity | naive_solver ] ].

Section OwnCalls.
Import Js Sys Spec.

Lemma plain_own_calls (env : Env) (options : Options)
    (files : gmap string node) :
  let '(w, r) := Plain.generateResumePDF env options (initial files) in
  ∀ c, c ∈ calls w → own_call env options c.
Proof.
  destruct (Plain.generateResumePDF _ _ _) as [w r] eqn:H.
  run_start H. run_inv.
  all: unfold own_call.
  all: solve_own.
Qed.

Lemma banded_own_calls (env : Env) (options : Options)
    (files : gmap string node) :
  let '(w, r) := Banded.generateResumePDF env options (initial files) in
  ∀ c, c ∈ calls w → own_call env options c.
Proof.
  destruct (Banded.generateResumePDF _ _ _) as [w r] eqn:H.
  run_start H. run_inv.
  all: unfold own_call.
  all: solve_own.
Qed.

(** X9. The arguments of the file-system calls of [generateResumePDF],
    whether it succeeds or fails and whatever the store holds.  The
    only path read is the resume it was pointed at.  The only file
    written or unlinked is the transient file, and only for an
    in-memory resume, where the transient directory may be created too.
    Apart from that the only directory created is the one of
    [outputPath] and the only file printed is [outputPath].  No other
    path is named to a call that changes the file system, and
    [process.exit] is never called. *)
Theorem export_calls_name_only_its_own_paths (env : Env) (options : Options)
    (files : gmap string node) :
  (let '(w, r) := Plain.generateResumePDF env options (initial files) in
   ∀ c, c ∈ calls w → own_call env options c) ∧
  (let '(w, r) := Banded.generateResumePDF env options (initial files) in
   ∀ c, c ∈ calls w → own_call env options c).
Proof.
  split; [apply plain_own_calls|apply banded_own_calls].
Qed.

Lemma export_calls_name_only_its_own_paths_witness :
  own_call Sample.env Sample.janeToOut
    (WriteFile "/tmp/resume_1764028800000.json" "{}") ∧
  own_call Sample.env Sample.janeToOut (Mkdir "/out").
Proof.
  pose proof (export_calls_name_only_its_own_paths
                Sample.env Sample.janeToOut ∅) as H.
  apply proj1 in H. on_run_in H.
  split; apply H; vm_compute; in_trace.
Defined.

End OwnCalls.

(** ** The fixed-path export *)

Ltac solve_outcome :=
  cbn [is_ok app] in *;
  split; [reflexivity|];
  first
    [ left; eexists _, _; repeat split; reflexivity
    | right; eexists; split; [reflexivity|];
      split; [let Hin := fresh in intros Hin; not_in_trace Hin|reflexivity] ].

Ltac solve_absent :=
  cbn [is_ok app] in *;
  let Hno := fresh in
  intros Hno;
  first [ by repeat split
        | exfalso; eapply Hno; eassumption ].

Section FixedPath.
Import Js Header Sys Spec.

Lemma exportpdf_outcome (env : Env) (files : gmap string node) :
  let '(w, r) := ExportPdf.exportPDF env (initial files) in
  r = Ok () ∧
  ((∃ html o,
      calls w = [ReadFile "./resume.json"; Launch; NewPage; SetContent html;
                 PagePdf html o; BrowserClose] ∧
      path o = "resume.pdf" ∧
      fs w = <["resume.pdf" := File (pdf_bytes env html o)]> files ∧
      engines w = 0 ∧
      console w = ["✅ PDF exported successfully to resume.pdf"]) ∨
   (∃ e, last (calls w) = Some (ProcessExit 1) ∧
      (BrowserClose ∉ calls w) ∧
      console w = ["❌ Error exporting PDF: " +:+ error_message e])).
Proof.
  destruct (ExportPdf.exportPDF _ _) as [w r] eqn:H.
  run_start H. run_inv.
  all: solve_outcome.
Qed.

Lemma legacy_outcome (env : Env) (files : gmap string node) :
  let '(w, r) := Legacy.exportPDF env (initial files) in
  r = Ok () ∧
  ((∃ html o,
      calls w = [ReadFile "./resume.json"; Launch; NewPage; SetContent html;
                 PagePdf html o; BrowserClose] ∧
      path o = "resume.pdf" ∧
      fs w = <["resume.pdf" := File (pdf_bytes env html o)]> files ∧
      engines w = 0 ∧
      console w = ["✅ PDF exported successfully to resume.pdf"]) ∨
   (∃ e, last (calls w) = Some (ProcessExit 1) ∧
      (BrowserClose ∉ calls w) ∧
      console w = ["❌ Error exporting PDF: " +:+ error_message e])).
Proof.
  destruct (Legacy.exportPDF _ _) as [w r] eqn:H.
  run_start H. run_inv.
  all: solve_outcome.
Qed.

Lemma exportpdf_absent (env : Env) (files : gmap string node) :
  let '(w, r) := ExportPdf.exportPDF env (initial files) in
  (∀ text, files !! "./resume.json" ≠ Some (File text)) →
  calls w = [ProcessExit 1] ∧ fs w = files ∧ engines w = 0.
Proof.
  destruct (ExportPdf.exportPDF _ _) as [w r] eqn:H.
  run_start H. run_inv.
  all: solve_absent.
Qed.

Lemma legacy_absent (env : Env) (files : gmap string node) :
  let '(w, r) := Legacy.exportPDF env (initial files) in
  (∀ text, files !! "./resume.json" ≠ Some (File text)) →
  calls w = [ProcessExit 1] ∧ fs w = files ∧ engines w = 0.
Proof.
  destruct (Legacy.exportPDF _ _) as [w r] eqn:H.
  run_start H. run_inv.
  all: solve_absent.
Qed.

Lemma exportpdf_printed (env : Env) (files : gmap string node) :
  let '(w, r) := ExportPdf.exportPDF env (initial files) in
  ∀ html o, PagePdf html o ∈ calls w →
    ∃ text data doc basics name strip,
      files !! "./resume.json" = Some (File text) ∧
      JSON_parse env text = Ok data ∧
      theme_render env data = Ok doc ∧
      html = htmlWithHiddenHeader doc ∧
      SetContent html ∈ calls w ∧
      basicsOf data = Ok basics ∧
      contactInfo basics = Ok strip ∧
      displayName basics = Ok name ∧
      o = Banded.pdfOptions "resume.pdf" name strip.
Proof.
  destruct (ExportPdf.exportPDF _ _) as [w r] eqn:H.
  run_start H. run_inv.
  all: solve_printed.
Qed.

Lemma legacy_printed (env : Env) (files : gmap string node) :
  let '(w, r) := Legacy.exportPDF env (initial files) in
  ∀ html o, PagePdf html o ∈ calls w →
    ∃ text data header,
      files !! "./resume.json" = Some (File text) ∧
      JSON_parse env text = Ok data ∧
      theme_render env data = Ok html ∧
      SetContent html ∈ calls w ∧
      Legacy.headerTemplate data = Ok header ∧
      o = Legacy.pdfOptions header.
Proof.
  destruct (Legacy.exportPDF _ _) as [w r] eqn:H.
  run_start H. run_inv.
  all: solve_printed.
Qed.

(** X11. [exportPDF] never rejects: every failure ends in the handler,
    which prints one line carrying the message and calls
    [process.exit(1)] as the last thing, the engine not having been
    closed.  Otherwise the run is exactly: read [./resume.json], launch,
    new page, set the content, print, close; [resume.pdf] then holds the
    printed bytes, the engine is gone and the one line printed is the
    success line.  (Both variants of [export-pdf.js].) *)
Theorem fixed_path_export_succeeds_or_exits_1 (env : Env)
    (files : gmap string node) :
  (let '(w, r) := ExportPdf.exportPDF env (initial files) in
   r = Ok () ∧
   ((∃ html o,
       calls w = [ReadFile "./resume.json"; Launch; NewPage; SetContent html;
                  PagePdf html o; BrowserClose] ∧
       path o = "resume.pdf" ∧
       fs w = <["resume.pdf" := File (pdf_bytes env html o)]> files ∧
       engines w = 0 ∧
       console w = ["✅ PDF exported successfully to resume.pdf"]) ∨
    (∃ e, last (calls w) = Some (ProcessExit 1) ∧
       (BrowserClose ∉ calls w) ∧
       console w = ["❌ Error exporting PDF: " +:+ error_message e]))) ∧
  (let '(w, r) := Legacy.exportPDF env (initial files) in
   r = Ok () ∧
   ((∃ html o,
       calls w = [ReadFile "./resume.json"; Launch; NewPage; SetContent html;
                  PagePdf html o; BrowserClose] ∧
       path o = "resume.pdf" ∧
       fs w = <["resume.pdf" := File (pdf_bytes env html o)]> files ∧
       engines w = 0 ∧
       console w = ["✅ PDF exported successfully to resume.pdf"]) ∨
    (∃ e, last (calls w) = Some (ProcessExit 1) ∧
       (BrowserClose ∉ calls w) ∧
       console w = ["❌ Error exporting PDF: " +:+ error_message e]))).
Proof.
  split; [apply exportpdf_outcome|apply legacy_outcome].
Qed.

(** X12. Without a file at [./resume.json] (nothing there, or a
    directory) [exportPDF] does nothing but exit with code 1: the engine
    is not launched and the store is as it was. *)
Theorem fixed_path_export_without_input (env : Env)
    (files : gmap string node) :
  (∀ text, files !! "./resume.json" ≠ Some (File text)) →
  (let '(w, r) := ExportPdf.exportPDF env (initial files) in
   calls w = [ProcessExit 1] ∧ fs w = files ∧ engines w = 0) ∧
  (let '(w, r) := Legacy.exportPDF env (initial files) in
   calls w = [ProcessExit 1] ∧ fs w = files ∧ engines w = 0).
Proof.
  intros Hno.
  pose proof (exportpdf_absent env files) as H1.
  pose proof (legacy_absent env files) as H2.
  destruct (ExportPdf.exportPDF _ _), (Legacy.exportPDF _ _). auto.
Qed.

Lemma fixed_path_export_without_input_witness :
  calls (ExportPdf.exportPDF Sample.env (initial ∅)).1 = [ProcessExit 1].
Proof.
  assert (Hno : ∀ text, (∅ : gmap string node) !! "./resume.json"
                        ≠ Some (File text)) by done.
  pose proof (fixed_path_export_without_input Sample.env ∅ Hno) as H.
  apply proj1 in H. on_run_in H. apply H.
Defined.

(** X13. What [exportPDF] prints.  In [export-pdf.js] the page is the
    theme's rendering of the parsed content of [./resume.json] with the
    in-document header hidden, and the options, header band included,
    are those of the header-carrying [generateResumePDF] for the output
    path [resume.pdf].  The earlier variant prints the rendering as it
    is, in-document header included, under a band made of
    [resumeData.basics.name]. *)
Theorem fixed_path_export_prints_input (env : Env) (files : gmap string node) :
  (let '(w, r) := ExportPdf.exportPDF env (initial files) in
   ∀ html o, PagePdf html o ∈ calls w →
     ∃ text data doc basics name strip,
       files !! "./resume.json" = Some (File text) ∧
       JSON_parse env text = Ok data ∧
       theme_render env data = Ok doc ∧
       html = htmlWithHiddenHeader doc ∧
       SetContent html ∈ calls w ∧
       basicsOf data = Ok basics ∧
       contactInfo basics = Ok strip ∧
       displayName basics = Ok name ∧
       o = Banded.pdfOptions "resume.pdf" name strip) ∧
  (let '(w, r) := Legacy.exportPDF env (initial files) in
   ∀ html o, PagePdf html o ∈ calls w →
     ∃ text data header,
       files !! "./resume.json" = Some (File text) ∧
       JSON_parse env text = Ok data ∧
       theme_render env data = Ok html ∧
       SetContent html ∈ calls w ∧
       Legacy.headerTemplate data = Ok header ∧
       o = Legacy.pdfOptions header).
Proof.
  split; [apply exportpdf_printed|apply legacy_printed].
Qed.

Lemma fixed_path_export_prints_input_witness :
  ∃ data name strip,
    JSON_parse Sample.env "{}" = Ok data ∧
    (basicsOf data ≫= displayName) = Ok name ∧
    (basicsOf data ≫= contactInfo) = Ok strip.
Proof.
  pose proof (fixed_path_export_prints_input
                Sample.env Sample.emptyResumeOnDisk) as H.
  apply proj1 in H. on_run_in H.
  destruct (H (htmlWithHiddenHeader "<!doctype html><html><head><style>body{}</style></head><body></body></html>")
              (Banded.pdfOptions "resume.pdf" "" ""))
    as (text & data & doc & basics & name & strip
        & Htext & ? & _ & _ & _ & Hb & ? & ? & _).
  - vm_compute. in_trace.
  - exists data, name, strip. rewrite Hb.
    vm_compute in Htext. injection Htext as <-. done.
Defined.

End FixedPath.

(** ** The HTML of a resume *)

Ltac solve_html :=
  cbn [is_ok app] in *;
  first
    [ typeof_twice
    | split; [reflexivity|]; split; [reflexivity|]; split; [|split];
      [ let c := fresh in let Hc := fresh in
        intros c Hc; split_trace; subst;
        (split; [by apply String.eqb_eq|by eauto])
      | let h := fresh in let Hh := fresh in
        intros h Hh;
        first
          [ discriminate Hh
          | simplify_eq; split; [reflexivity|];
            match goal with
            | H : String.eqb (Js.typeof _) "string" = _ |- _ => rewrite H
            end;
            repeat eexists;
            first [ eassumption | symmetry; eassumption | reflexivity ] ]
      | let e := fresh in let He := fresh in
        intros e He; first [ discriminate He | by simplify_eq ] ] ].

Section Html.
Import Js Header Sys Spec.

Lemma html_footprint (env : Env) (resume : value) (files : gmap string node) :
  let '(w, r) := generateResumeHTML env resume (initial files) in
  fs w = files ∧ engines w = 0 ∧
  (∀ c, c ∈ calls w →
     typeof resume = "string" ∧
     (c = ExistsSync (toString resume)
            (bool_decide (is_Some (files !! toString resume))) ∨
      c = ReadFile (toString resume))) ∧
  (∀ h, r = Ok h →
     console w = [] ∧
     ∃ data, data_of env files resume data ∧ theme_render env data = Ok h) ∧
  (∀ e, r = Err e →
     console w = ["❌ Error generating HTML: " +:+ error_message e]).
Proof.
  destruct (generateResumeHTML _ _ _) as [w r] eqn:H.
  run_start H. run_inv.
  all: unfold data_of.
  all: solve_html.
Qed.

(** X14. [generateResumeHTML] only reads: the store is left as it was,
    no engine is launched, and the only calls are the existence check
    and the read of the file it was pointed at (none at all for an
    in-memory resume).  What it returns is the theme's rendering of the
    resume data, with nothing printed on the console; an error is
    printed once, with its message, and passed on. *)
Theorem html_generation_only_reads (env : Env) (resume : value)
    (files : gmap string node) :
  let '(w, r) := generateResumeHTML env resume (initial files) in
  fs w = files ∧ engines w = 0 ∧
  (∀ c, c ∈ calls w →
     typeof resume = "string" ∧
     (c = ExistsSync (toString resume)
            (bool_decide (is_Some (files !! toString resume))) ∨
      c = ReadFile (toString resume))) ∧
  (∀ h, r = Ok h →
     console w = [] ∧
     ∃ data, data_of env files resume data ∧ theme_render env data = Ok h) ∧
  (∀ e, r = Err e →
     console w = ["❌ Error generating HTML: " +:+ error_message e]).
Proof. apply html_footprint. Qed.

Lemma html_generation_only_reads_witness :
  ∃ data, data_of Sample.env ∅ Sample.jane data ∧
    theme_render Sample.env data =
    Ok "<!doctype html><html><head><style>body{}</style></head><body></body></html>".
Proof.
  pose proof (html_generation_only_reads Sample.env Sample.jane ∅) as H.
  on_run_in H. destruct H as (_ & _ & _ & Hok & _).
  apply (Hok _). reflexivity.
Defined.

(** A read that went through met no fault. *)
Lemma readFileSync_inv_fault (env : Env) p w w' r :
  readFileSync env p w = (w', r) →
  (∃ e, from_outside env e ∧ w' = w ∧ r = Err e) ∨
  (∃ content, fault env (ReadFile p) = None ∧
     fs w !! p = Some (File content) ∧ r = Ok content ∧
     w' = {| fs := fs w; engines := engines w;
             calls := calls w ++ [ReadFile p]; console := console w |}).
Proof.
  unfold readFileSync. destruct (fs w !! p) as [[content|]|] eqn:Hp.
  - intros [(e & H & ->)|(w1 & [] & H & [-> ->]%ret_inv)]%bind_inv.
    + apply perform_inv in H as [(e' & ? & -> & [= <-])|(_ & [=] & _)]. eauto.
    + apply perform_inv in H as [(e' & _ & _ & [=])|(? & _ & ->)].
      right. by exists content.
  - intros [= <- <-]. eauto using system_error_outside.
  - intros [= <- <-]. eauto using system_error_outside.
Qed.

Lemma html_of_path (env : Env) (resume : value) (files : gmap string node)
    (text : string) (data : value) (h : string) :
  typeof resume = "string" →
  files !! toString resume = Some (File text) →
  fault env (ReadFile (toString resume)) = None →
  JSON_parse env text = Ok data →
  theme_render env data = Ok h →
  (generateResumeHTML env resume (initial files)).2 = Ok h.
Proof.
  intros Ht Hf Hfault Hj Hr.
  unfold generateResumeHTML. rewrite Ht.
  change (String.eqb "string" "string") with true. cbv iota.
  unfold try_catch, mbind, M_bind, existsSync, readFileSync, perform, lift,
    mret, M_ret.
  cbn [fs initial engines calls console].
  rewrite (bool_decide_eq_true_2 _ (mk_is_Some _ _ Hf)). cbn [negb fs].
  rewrite Hf. unfold mbind, M_bind. rewrite Hfault. cbn. by rewrite Hj, Hr.
Qed.

Lemma html_of_object (env : Env) (resume : value) (files : gmap string node)
    (h : string) :
  typeof resume = "object" →
  theme_render env resume = Ok h →
  (generateResumeHTML env resume (initial files)).2 = Ok h.
Proof.
  intros Ht Hr. unfold generateResumeHTML. rewrite Ht.
  change (String.eqb "object" "string") with false.
  change (String.eqb "object" "object") with true. cbv iota.
  unfold try_catch, mbind, M_bind, lift, mret, M_ret. by rewrite Hr.
Qed.

Ltac run_inv_fault :=
  repeat (first
            [ match goal with
              | H : Sys.readFileSync _ _ _ = (_, _) |- _ =>
                  apply readFileSync_inv_fault in H
                    as [(? & ? & -> & ?)|(? & ? & ? & ? & ->)]
              end
            | run_inv_step ];
          simplify_eq;
          cbn [Sys.fs Sys.engines Sys.calls Sys.console Sys.initial fst snd]
            in * ).

Ltac solve_agreement :=
  cbn [is_ok app] in *;
  first
    [ typeof_twice
    | intros; split_trace; simplify_eq;
      try (eexists; split; [reflexivity|]);
      first [ eapply html_of_path;
              [by apply String.eqb_eq|eassumption|eassumption
              |symmetry; eassumption|symmetry; eassumption]
            | eapply html_of_object;
              [by apply String.eqb_eq|symmetry; eassumption] ] ].

Lemma plain_page_is_html (env : Env) (options : Options)
    (files : gmap string node) :
  let '(w, r) := Plain.generateResumePDF env options (initial files) in
  ∀ h, SetContent h ∈ calls w →
    (generateResumeHTML env (resume options) (initial files)).2 = Ok h.
Proof.
  destruct (Plain.generateResumePDF _ _ _) as [w r] eqn:H.
  run_start H. run_inv_fault.
  all: solve_agreement.
Qed.

Lemma banded_page_is_html (env : Env) (options : Options)
    (files : gmap string node) :
  let '(w, r) := Banded.generateResumePDF env options (initial files) in
  ∀ h, SetContent h ∈ calls w →
    ∃ doc, h = htmlWithHiddenHeader doc ∧
      (generateResumeHTML env (resume options) (initial files)).2 = Ok doc.
Proof.
  destruct (Banded.generateResumePDF _ _ _) as [w r] eqn:H.
  run_start H. run_inv_fault.
  all: solve_agreement.
Qed.

(** X15. The page a PDF is printed from is the HTML of the resume: the
    content set on the page by [generateResumePDF] is what
    [generateResumeHTML] returns for the same resume in the same store,
    as it is in the variant without header, and after the hiding of the
    in-document header in the other. *)
Theorem pdf_page_is_html_of_resume (env : Env) (options : Options)
    (files : gmap string node) :
  (let '(w, r) := Plain.generateResumePDF env options (initial files) in
   ∀ h, SetContent h ∈ calls w →
     (generateResumeHTML env (resume options) (initial files)).2 = Ok h) ∧
  (let '(w, r) := Banded.generateResumePDF env options (initial files) in
   ∀ h, SetContent h ∈ calls w →
     ∃ doc, h = htmlWithHiddenHeader doc ∧
       (generateResumeHTML env (resume options) (initial files)).2 = Ok doc).
Proof.
  split; [apply plain_page_is_html|apply banded_page_is_html].
Qed.

Lemma pdf_page_is_html_of_resume_witness :
  (generateResumeHTML Sample.env Sample.jane (initial ∅)).2 =
  Ok "<!doctype html><html><head><style>body{}</style></head><body></body></html>".
Proof.
  pose proof (pdf_page_is_html_of_resume Sample.env Sample.janeToOut ∅) as H.
  apply proj1 in H. on_run_in H.
  apply (H _). vm_compute. in_trace.
Defined.

End Html.

(** ** The command line *)

Section CommandLine.
Import Js Str Sys Spec.

Lemma parseArgs_pair flag v rest o :
  Cli.parseArgs (flag :: v :: rest) o =
  if is_help flag then Cli.Exited 0 [Cli.helpText]
  else if takes_value flag then Cli.parseArgs rest (assign o (flag, v))
  else Cli.Exited 1 ["Unknown option: " +:+ flag; Cli.helpText].
Proof.
  unfold takes_value, assign, is_help, is_input, is_output, is_tmp.
  cbn [Cli.parseArgs].
  by destruct (Cli.is_flag "--help" "-h" flag),
    (Cli.is_flag "--input" "-i" flag), (Cli.is_flag "--output" "-o" flag),
    (String.eqb flag "--tmp-dir").
Qed.

Lemma takes_value_not_help flag : takes_value flag = true → is_help flag = false.
Proof.
  unfold takes_value, is_help, is_input, is_output, is_tmp, Cli.is_flag.
  destruct (String.eqb_spec flag "--help") as [->|_]; [done|].
  destruct (String.eqb_spec flag "-h") as [->|_]; done.
Qed.

Lemma parse_pairs pairs :
  Forall (λ p, takes_value p.1 = true) pairs →
  ∀ rest o,
    Cli.parseArgs (flatten pairs ++ rest) o =
    Cli.parseArgs rest (fold_left assign pairs o).
Proof.
  induction 1 as [|[flag v] pairs Hflag _ IH]; intros rest o; [done|].
  cbn [flatten app fold_left]. rewrite parseArgs_pair.
  cbn [fst] in Hflag. by rewrite (takes_value_not_help _ Hflag), Hflag, IH.
Qed.

Lemma flatten_app pairs later :
  flatten (pairs ++ later) = flatten pairs ++ flatten later.
Proof.
  induction pairs as [|[flag v] pairs IH]; [done|].
  cbn [app flatten]. by rewrite IH.
Qed.

Lemma parse_all pairs o :
  Forall (λ p, takes_value p.1 = true) pairs →
  Cli.parseArgs (flatten pairs) o = Cli.Parsed (fold_left assign pairs o).
Proof.
  intros Hflags. rewrite <-(app_nil_r (flatten pairs)).
  by rewrite parse_pairs.
Qed.

Lemma parse_help h rest o :
  is_help h = true → Cli.parseArgs (h :: rest) o = Cli.Exited 0 [Cli.helpText].
Proof. unfold is_help. cbn [Cli.parseArgs]. by intros ->. Qed.

Lemma parse_unknown a rest o :
  is_help a = false → takes_value a = false →
  Cli.parseArgs (a :: rest) o =
  Cli.Exited 1 ["Unknown option: " +:+ a; Cli.helpText].
Proof.
  unfold is_help, takes_value, is_input, is_output, is_tmp.
  cbn [Cli.parseArgs]. intros ->.
  by destruct (Cli.is_flag "--input" "-i" a), (Cli.is_flag "--output" "-o" a),
    (String.eqb a "--tmp-dir").
Qed.

Lemma is_input_takes_value flag : is_input flag = true → takes_value flag = true.
Proof. unfold takes_value. by intros ->. Qed.

Lemma is_input_not_output flag : is_input flag = true → is_output flag = false.
Proof.
  unfold is_input, is_output, Cli.is_flag.
  destruct (String.eqb_spec flag "--input") as [->|_]; [done|].
  destruct (String.eqb_spec flag "-i") as [->|_]; done.
Qed.

Lemma is_tmp_not_others flag :
  is_tmp flag = true → is_input flag = false ∧ is_output flag = false.
Proof.
  unfold is_tmp. intros ->%String.eqb_eq. done.
Qed.

Lemma parse_dangling_input flag o :
  is_input flag = true →
  Cli.parseArgs [flag] o =
  Cli.Parsed {| Cli.input := VUndefined; Cli.output := Cli.output o;
                Cli.tmp := Cli.tmp o |}.
Proof.
  intros Hflag.
  pose proof (takes_value_not_help _ (is_input_takes_value _ Hflag)) as Hhelp.
  unfold is_help, is_input in *. cbn [Cli.parseArgs]. by rewrite Hhelp, Hflag.
Qed.

Lemma parse_dangling_output flag o :
  is_output flag = true →
  Cli.parseArgs [flag] o =
  Cli.Parsed {| Cli.input := Cli.input o; Cli.output := None;
                Cli.tmp := Cli.tmp o |}.
Proof.
  intros Hflag.
  assert (takes_value flag = true) as Htakes.
  { unfold takes_value. rewrite Hflag. by destruct (is_input flag). }
  pose proof (takes_value_not_help _ Htakes) as Hhelp.
  unfold is_help, is_output in *. cbn [Cli.parseArgs].
  rewrite Hhelp, Hflag. by destruct (Cli.is_flag "--input" "-i" flag) eqn:Hi;
    [apply is_input_not_output in Hi; unfold is_output in Hi; congruence|].
Qed.

(** The fields of the options after a run of assignments. *)
Lemma input_kept pairs o :
  Forall (λ p, is_input p.1 = false) pairs →
  Cli.input (fold_left assign pairs o) = Cli.input o.
Proof.
  intros Hpairs. revert o.
  induction Hpairs as [|[flag v] pairs Hflag _ IH]; intros o; [done|].
  cbn [fold_left]. rewrite IH. unfold assign. cbn [fst] in Hflag.
  rewrite Hflag. by destruct (is_output flag), (is_tmp flag).
Qed.

Lemma output_kept pairs o :
  Forall (λ p, is_output p.1 = false) pairs →
  Cli.output (fold_left assign pairs o) = Cli.output o.
Proof.
  intros Hpairs. revert o.
  induction Hpairs as [|[flag v] pairs Hflag _ IH]; intros o; [done|].
  cbn [fold_left]. rewrite IH. unfold assign. cbn [fst] in Hflag.
  rewrite Hflag. by destruct (is_input flag), (is_tmp flag).
Qed.

Lemma tmp_kept pairs o :
  Forall (λ p, is_tmp p.1 = false) pairs →
  Cli.tmp (fold_left assign pairs o) = Cli.tmp o.
Proof.
  intros Hpairs. revert o.
  induction Hpairs as [|[flag v] pairs Hflag _ IH]; intros o; [done|].
  cbn [fold_left]. rewrite IH. unfold assign. cbn [fst] in Hflag.
  rewrite Hflag. by destruct (is_input flag), (is_output flag).
Qed.

Lemma input_last before flag v later o :
  is_input flag = true →
  Forall (λ p, is_input p.1 = false) later →
  Cli.input (fold_left assign (before ++ (flag, v) :: later) o) = VStr v.
Proof.
  intros Hflag Hlater. rewrite fold_left_app. cbn [fold_left].
  rewrite input_kept by done. unfold assign. by rewrite Hflag.
Qed.

Lemma output_last before flag v later o :
  is_output flag = true →
  Forall (λ p, is_output p.1 = false) later →
  Cli.output (fold_left assign (before ++ (flag, v) :: later) o) = Some v.
Proof.
  intros Hflag Hlater. rewrite fold_left_app. cbn [fold_left].
  rewrite output_kept by done. unfold assign. rewrite Hflag.
  by destruct (is_input flag) eqn:Hi;
    [apply is_input_not_output in Hi; congruence|].
Qed.

Lemma tmp_last before flag v later o :
  is_tmp flag = true →
  Forall (λ p, is_tmp p.1 = false) later →
  Cli.tmp (fold_left assign (before ++ (flag, v) :: later) o) = Some v.
Proof.
  intros Hflag Hlater. rewrite fold_left_app. cbn [fold_left].
  rewrite tmp_kept by done. unfold assign.
  destruct (is_tmp_not_others _ Hflag) as [-> ->]. by rewrite Hflag.
Qed.

(** X16. The options are the defaults overridden by the flags, each
    value taken as it is written (even when it reads like a flag), the
    last occurrence of a flag winning: without the flag [input] stays
    [null], [output] is [./resume.pdf] and the transient directory
    [/tmp]. *)
Theorem options_are_defaults_overridden_by_last_value
    (pairs : list (string * string)) :
  Forall (λ p, takes_value p.1 = true) pairs →
  Cli.parseArgs (flatten pairs) Cli.defaults = Cli.Parsed (assigned pairs) ∧
  (Forall (λ p, is_input p.1 = false) pairs →
   Cli.input (assigned pairs) = VNull) ∧
  (Forall (λ p, is_output p.1 = false) pairs →
   Cli.output (assigned pairs) = Some "./resume.pdf") ∧
  (Forall (λ p, is_tmp p.1 = false) pairs →
   Cli.tmp (assigned pairs) = Some "/tmp") ∧
  (∀ before flag v later,
     pairs = before ++ (flag, v) :: later →
     (is_input flag = true → Forall (λ p, is_input p.1 = false) later →
      Cli.input (assigned pairs) = VStr v) ∧
     (is_output flag = true → Forall (λ p, is_output p.1 = false) later →
      Cli.output (assigned pairs) = Some v) ∧
     (is_tmp flag = true → Forall (λ p, is_tmp p.1 = false) later →
      Cli.tmp (assigned pairs) = Some v)).
Proof.
  intros Hflags. unfold assigned. split; [by apply parse_all|].
  split; [intros ?; by rewrite input_kept|].
  split; [intros ?; by rewrite output_kept|].
  split; [intros ?; by rewrite tmp_kept|].
  intros before flag v later ->.
  split; [by apply input_last|]. split; [by apply output_last|].
  by apply tmp_last.
Qed.

Lemma options_are_defaults_overridden_by_last_value_witness :
  Cli.parseArgs ["-i"; "a.json"; "--input"; "--help"; "-o"; "x.pdf"] Cli.defaults =
  Cli.Parsed {| Cli.input := VStr "--help"; Cli.output := Some "x.pdf";
                Cli.tmp := Some "/tmp" |}.
Proof.
  pose proof (options_are_defaults_overridden_by_last_value
                [("-i", "a.json"); ("--input", "--help"); ("-o", "x.pdf")])
    as [H _].
  - by repeat constructor.
  - exact H.
Defined.

Section AnyGenerator.
Variable generate : string → option string → option string → M string.

Lemma run_without_input o files :
  truthy (Cli.input o) = false →
  Cli.run generate o (initial files) =
  (stopped files ["Error: --input is required"; Cli.helpText] [ProcessExit 1],
   Ok ()).
Proof. intros Hinput. unfold Cli.run. by rewrite Hinput. Qed.

Lemma run_missing_input o p files :
  Cli.input o = VStr p → p ≠ "" → files !! p = None →
  Cli.run generate o (initial files) =
  (stopped files ["Error: Input file not found: " +:+ p]
     [ExistsSync p false; ProcessExit 1], Ok ()).
Proof.
  intros Hinput Hp Hfile. unfold Cli.run. rewrite Hinput.
  cbn [truthy toString]. apply String.eqb_neq in Hp. rewrite Hp. cbn [negb].
  unfold mbind, M_bind, existsSync. cbn [fs initial].
  rewrite Hfile. by rewrite bool_decide_eq_false_2 by by intros [? [=]].
Qed.

(** X17. [--help] wins: when the first argument that is not the value
    of a flag is [--help] or [-h], the usage text is printed and the
    script exits with code 0, whatever comes after it and whatever was
    set before it; nothing is checked or generated. *)
Theorem help_prints_usage_and_exits_0 (pairs : list (string * string))
    (h : string) (rest : list string) (files : gmap string node) :
  Forall (λ p, takes_value p.1 = true) pairs →
  is_help h = true →
  Cli.main generate (flatten pairs ++ h :: rest) (initial files) =
  (stopped files [Cli.helpText] [ProcessExit 0], Ok ()).
Proof.
  intros Hflags Hh. unfold Cli.main.
  by rewrite parse_pairs, parse_help.
Qed.

(** X18. An argument that is neither a flag nor the value of one stops
    the script: the line naming it and the usage text are printed and
    the exit code is 1, whatever comes after it; nothing is checked or
    generated. *)
Theorem unknown_option_exits_1 (pairs : list (string * string))
    (a : string) (rest : list string) (files : gmap string node) :
  Forall (λ p, takes_value p.1 = true) pairs →
  is_help a = false → takes_value a = false →
  Cli.main generate (flatten pairs ++ a :: rest) (initial files) =
  (stopped files ["Unknown option: " +:+ a; Cli.helpText] [ProcessExit 1],
   Ok ()).
Proof.
  intros Hflags Hh Ha. unfold Cli.main.
  by rewrite parse_pairs, parse_unknown.
Qed.

(** X19. The input is required: without an input flag, with an input
    flag that is the last argument (even after an input was given), or
    with the empty string as the last input value, the script prints
    that the input is required and the usage text and exits with code
    1; nothing is checked or generated. *)
Theorem input_is_required (pairs : list (string * string))
    (files : gmap string node) :
  let required :=
    (stopped files ["Error: --input is required"; Cli.helpText]
       [ProcessExit 1], Ok ()) in
  Forall (λ p, takes_value p.1 = true) pairs →
  (Forall (λ p, is_input p.1 = false) pairs →
   Cli.main generate (flatten pairs) (initial files) = required) ∧
  (∀ flag, is_input flag = true →
     Cli.main generate (flatten pairs ++ [flag]) (initial files) = required) ∧
  (∀ flag later,
     is_input flag = true →
     Forall (λ p, takes_value p.1 = true) later →
     Forall (λ p, is_input p.1 = false) later →
     Cli.main generate (flatten (pairs ++ (flag, "") :: later)) (initial files)
     = required).
Proof.
  intros required Hflags. subst required. unfold Cli.main. repeat split.
  - intros Hnone. rewrite parse_all by done.
    apply run_without_input. by rewrite input_kept.
  - intros flag Hflag. rewrite parse_pairs, parse_dangling_input by done.
    by apply run_without_input.
  - intros flag later Hflag Hlater Hnone. rewrite parse_all.
    + apply run_without_input. by rewrite input_last.
    + apply Forall_app. split; [done|].
      constructor; [by apply is_input_takes_value|done].
Qed.

(** X20. When nothing exists at the path given as input the script
    says so and exits with code 1 after the one existence check;
    [generateResumePDF] is not called. *)
Theorem missing_input_file_exits_1 (before later : list (string * string))
    (flag p : string) (files : gmap string node) :
  Forall (λ p, takes_value p.1 = true) before →
  Forall (λ p, takes_value p.1 = true) later →
  is_input flag = true →
  Forall (λ p, is_input p.1 = false) later →
  p ≠ "" → files !! p = None →
  Cli.main generate (flatten (before ++ (flag, p) :: later)) (initial files) =
  (stopped files ["Error: Input file not found: " +:+ p]
     [ExistsSync p false; ProcessExit 1], Ok ()).
Proof.
  intros Hbefore Hlater Hflag Hnone Hp Hfile. unfold Cli.main.
  rewrite parse_all.
  - apply run_missing_input; [by apply input_last|done..].
  - apply Forall_app. split; [done|].
    constructor; [by apply is_input_takes_value|done].
Qed.

End AnyGenerator.

Lemma help_prints_usage_and_exits_0_witness :
  (Cli.main (Cli.generatePlain Sample.env) ["-o"; "x.pdf"; "-h"; "--bogus"]
     (initial ∅)).1 = stopped ∅ [Cli.helpText] [ProcessExit 0].
Proof.
  rewrite (help_prints_usage_and_exits_0 (Cli.generatePlain Sample.env)
             [("-o", "x.pdf")] "-h" ["--bogus"] ∅); [done| |done].
  by repeat constructor.
Defined.

Lemma unknown_option_exits_1_witness :
  (Cli.main (Cli.generatePlain Sample.env) ["-o"; "x.pdf"; "resume.json"; "-h"]
     (initial ∅)).1 =
  stopped ∅ ["Unknown option: resume.json"; Cli.helpText] [ProcessExit 1].
Proof.
  rewrite (unknown_option_exits_1 (Cli.generatePlain Sample.env)
             [("-o", "x.pdf")] "resume.json" ["-h"] ∅); [done| |done..].
  by repeat constructor.
Defined.

Lemma input_is_required_witness :
  (Cli.main (Cli.generatePlain Sample.env) ["-i"; "a.json"; "-i"]
     (initial ∅)).1 =
  stopped ∅ ["Error: --input is required"; Cli.helpText] [ProcessExit 1].
Proof.
  pose proof (input_is_required (Cli.generatePlain Sample.env)
                [("-i", "a.json")] ∅) as H.
  cbv zeta in H. destruct H as (_ & H & _).
  - by repeat constructor.
  - specialize (H "-i" eq_refl). cbn [flatten app] in H. by rewrite H.
Defined.

Lemma missing_input_file_exits_1_witness :
  (Cli.main (Cli.generatePlain Sample.env)
     ["-i"; "a.json"; "-o"; "x.pdf"] (initial ∅)).1 =
  stopped ∅ ["Error: Input file not found: a.json"]
    [ExistsSync "a.json" false; ProcessExit 1].
Proof.
  by rewrite (missing_input_file_exits_1 (Cli.generatePlain Sample.env)
                [] [("-o", "x.pdf")] "-i" "a.json" ∅)
    by (done || by repeat constructor).
Defined.

End CommandLine.

(** ** The command line on top of the generation *)

Ltac cli_inv :=
  repeat (first
            [ match goal with
              | H : Cli.reportAndExit _ _ = (_, _) |- _ =>
                  unfold Cli.reportAndExit in H
              end
            | run_inv_step ];
          simplify_eq;
          cbn [Sys.fs Sys.engines Sys.calls Sys.console Sys.initial fst snd]
            in * ).

Ltac cli_start H Hinput Hp :=
  unfold Cli.run in H; rewrite Hinput in H;
  cbn [Js.truthy Js.toString] in H;
  apply String.eqb_neq in Hp; rewrite Hp in H; cbn [negb] in H;
  unfold Cli.generatePlain, Cli.generateBanded in H;
  run_start H.

Ltac file_clash :=
  exfalso; existence_facts;
  match goal with
  | H1 : ?m !! ?k = None, H2 : is_Some (?m !! ?k) |- _ =>
      rewrite H1 in H2; by destruct H2
  end.

Ltac solve_reported :=
  cbn [is_ok app Cli.shown] in *;
  first
    [ file_clash
    | split; [reflexivity|];
      first
        [ left; split; [|reflexivity];
          let code := fresh in let Hin := fresh in
          intros code Hin; not_in_trace Hin
        | right; eexists; split; reflexivity ] ].

Ltac solve_dangling :=
  cbn [is_ok app Cli.shown] in *;
  first
    [ file_clash
    | split; [reflexivity|];
      split; [let html := fresh in let o := fresh in let Hin := fresh in
              intros html o Hin; not_in_trace Hin|];
      split; [reflexivity|];
      let h := fresh in let Hin := fresh in
      intros h Hin;
      first [ exfalso; not_in_trace Hin | by split | by eauto ] ].

Section OnGeneration.
Import Js Str Sys Spec.

Lemma plain_cli_outcome (env : Env) (o : Cli.options) (p out : string)
    (files : gmap string node) :
  Cli.input o = VStr p → p ≠ "" → Cli.output o = Some out →
  is_Some (files !! p) →
  let '(w, r) := Cli.run (Cli.generatePlain env) o (initial files) in
  r = Ok () ∧
  (((∀ code, ProcessExit code ∉ calls w) ∧
    console w = ["📄 Generating PDF from: " +:+ p;
                 "📁 Output path: " +:+ out;
                 "✅ PDF generated successfully: " +:+ out;
                 "✅ Success! PDF generated at: " +:+ out]) ∨
   (∃ e, last (calls w) = Some (ProcessExit 1) ∧
      console w = ["📄 Generating PDF from: " +:+ p;
                   "📁 Output path: " +:+ out;
                   "❌ Error generating PDF: " +:+ error_message e;
                   "❌ Failed to generate PDF: " +:+ error_message e])).
Proof.
  intros Hinput Hp Hout Hfile.
  destruct (Cli.run _ _ _) as [w r] eqn:H.
  cli_start H Hinput Hp. rewrite Hout in H. run_start H. cli_inv.
  all: solve_reported.
Qed.

Lemma banded_cli_outcome (env : Env) (o : Cli.options) (p out : string)
    (files : gmap string node) :
  Cli.input o = VStr p → p ≠ "" → Cli.output o = Some out →
  is_Some (files !! p) →
  let '(w, r) := Cli.run (Cli.generateBanded env) o (initial files) in
  r = Ok () ∧
  (((∀ code, ProcessExit code ∉ calls w) ∧
    console w = ["📄 Generating PDF from: " +:+ p;
                 "📁 Output path: " +:+ out;
                 "✅ PDF generated successfully: " +:+ out;
                 "✅ Success! PDF generated at: " +:+ out]) ∨
   (∃ e, last (calls w) = Some (ProcessExit 1) ∧
      console w = ["📄 Generating PDF from: " +:+ p;
                   "📁 Output path: " +:+ out;
                   "❌ Error generating PDF: " +:+ error_message e;
                   "❌ Failed to generate PDF: " +:+ error_message e])).
Proof.
  intros Hinput Hp Hout Hfile.
  destruct (Cli.run _ _ _) as [w r] eqn:H.
  cli_start H Hinput Hp. rewrite Hout in H. run_start H. cli_inv.
  all: solve_reported.
Qed.

Lemma plain_cli_dangling (env : Env) (o : Cli.options) (p : string)
    (files : gmap string node) :
  Cli.input o = VStr p → p ≠ "" → Cli.output o = None →
  is_Some (files !! p) →
  let '(w, r) := Cli.run (Cli.generatePlain env) o (initial files) in
  last (calls w) = Some (ProcessExit 1) ∧
  (∀ html opts, PagePdf html opts ∉ calls w) ∧
  fs w = files ∧
  (∀ h, SetContent h ∈ calls w →
     engines w = 1 ∧
     console w =
     ["📄 Generating PDF from: " +:+ p;
      "📁 Output path: undefined";
      "❌ Error generating PDF: " +:+ error_message Cli.dirnameOfUndefined;
      "❌ Failed to generate PDF: " +:+ error_message Cli.dirnameOfUndefined]).
Proof.
  intros Hinput Hp Hout Hfile.
  destruct (Cli.run _ _ _) as [w r] eqn:H.
  cli_start H Hinput Hp. rewrite Hout in H. run_start H. cli_inv.
  all: solve_dangling.
Qed.

Lemma banded_cli_dangling (env : Env) (o : Cli.options) (p : string)
    (files : gmap string node) :
  Cli.input o = VStr p → p ≠ "" → Cli.output o = None →
  is_Some (files !! p) →
  let '(w, r) := Cli.run (Cli.generateBanded env) o (initial files) in
  last (calls w) = Some (ProcessExit 1) ∧
  (∀ html opts, PagePdf html opts ∉ calls w) ∧
  fs w = files ∧
  (∀ h, SetContent h ∈ calls w →
     engines w = 1 ∧
     ∃ e, console w =
          ["📄 Generating PDF from: " +:+ p;
           "📁 Output path: undefined";
           "❌ Error generating PDF: " +:+ error_message e;
           "❌ Failed to generate PDF: " +:+ error_message e]).
Proof.
  intros Hinput Hp Hout Hfile.
  destruct (Cli.run _ _ _) as [w r] eqn:H.
  cli_start H Hinput Hp. rewrite Hout in H. run_start H. cli_inv.
  all: solve_dangling.
Qed.

(** X21. Every outcome of the generation is reported twice, once by
    [generateResumePDF] and once by the script, with the same path or
    the same message; the script exits with code 1 exactly when the
    generation failed, as the last thing it does, and makes no call to
    [process.exit] when it succeeded. *)
Theorem cli_reports_outcome_twice (env : Env) (pairs : list (string * string))
    (p out : string) (files : gmap string node) :
  Forall (λ p, takes_value p.1 = true) pairs →
  Cli.input (assigned pairs) = VStr p → p ≠ "" →
  Cli.output (assigned pairs) = Some out →
  is_Some (files !! p) →
  (let '(w, r) := Cli.main (Cli.generatePlain env) (flatten pairs)
                    (initial files) in
   r = Ok () ∧
   (((∀ code, ProcessExit code ∉ calls w) ∧
     console w = ["📄 Generating PDF from: " +:+ p;
                  "📁 Output path: " +:+ out;
                  "✅ PDF generated successfully: " +:+ out;
                  "✅ Success! PDF generated at: " +:+ out]) ∨
    (∃ e, last (calls w) = Some (ProcessExit 1) ∧
       console w = ["📄 Generating PDF from: " +:+ p;
                    "📁 Output path: " +:+ out;
                    "❌ Error generating PDF: " +:+ error_message e;
                    "❌ Failed to generate PDF: " +:+ error_message e]))) ∧
  (let '(w, r) := Cli.main (Cli.generateBanded env) (flatten pairs)
                    (initial files) in
   r = Ok () ∧
   (((∀ code, ProcessExit code ∉ calls w) ∧
     console w = ["📄 Generating PDF from: " +:+ p;
                  "📁 Output path: " +:+ out;
                  "✅ PDF generated successfully: " +:+ out;
                  "✅ Success! PDF generated at: " +:+ out]) ∨
    (∃ e, last (calls w) = Some (ProcessExit 1) ∧
       console w = ["📄 Generating PDF from: " +:+ p;
                    "📁 Output path: " +:+ out;
                    "❌ Error generating PDF: " +:+ error_message e;
                    "❌ Failed to generate PDF: " +:+ error_message e]))).
Proof.
  intros Hflags Hinput Hp Hout Hfile. unfold Cli.main.
  rewrite parse_all by done.
  split; [by apply plain_cli_outcome|by apply banded_cli_outcome].
Qed.

Lemma cli_reports_outcome_twice_witness :
  (Cli.main (Cli.generatePlain Sample.env)
     ["-i"; "./resume.json"; "-o"; "/out/resume.pdf"]
     (initial Sample.emptyResumeOnDisk)).2 = Ok ().
Proof.
  pose proof (cli_reports_outcome_twice Sample.env Sample.flags
                "./resume.json" "/out/resume.pdf" Sample.emptyResumeOnDisk)
    as H.
  destruct H as [H _];
    [by repeat constructor|reflexivity|done|reflexivity|by eexists|].
  on_run_in H. apply H.
Defined.

(** X22. An output flag that is the last argument leaves [outputPath]
    undefined, and the script goes ahead with it: nothing is written or
    printed to PDF and the script ends with exit code 1.  When the run
    got as far as loading the page, the engine is still running at that
    point; in the variant without header the error reported, twice, is
    that of [path.dirname(undefined)]. *)
Theorem dangling_output_flag_fails_after_launch (env : Env)
    (pairs : list (string * string)) (flag p : string)
    (files : gmap string node) :
  Forall (λ p, takes_value p.1 = true) pairs →
  is_output flag = true →
  Cli.input (assigned pairs) = VStr p → p ≠ "" →
  is_Some (files !! p) →
  (let '(w, r) := Cli.main (Cli.generatePlain env) (flatten pairs ++ [flag])
                    (initial files) in
   last (calls w) = Some (ProcessExit 1) ∧
   (∀ html opts, PagePdf html opts ∉ calls w) ∧
   fs w = files ∧
   (∀ h, SetContent h ∈ calls w →
      engines w = 1 ∧
      console w =
      ["📄 Generating PDF from: " +:+ p;
       "📁 Output path: undefined";
       "❌ Error generating PDF: " +:+ error_message Cli.dirnameOfUndefined;
       "❌ Failed to generate PDF: " +:+ error_message Cli.dirnameOfUndefined])) ∧
  (let '(w, r) := Cli.main (Cli.generateBanded env) (flatten pairs ++ [flag])
                    (initial files) in
   last (calls w) = Some (ProcessExit 1) ∧
   (∀ html opts, PagePdf html opts ∉ calls w) ∧
   fs w = files ∧
   (∀ h, SetContent h ∈ calls w →
      engines w = 1 ∧
      ∃ e, console w =
           ["📄 Generating PDF from: " +:+ p;
            "📁 Output path: undefined";
            "❌ Error generating PDF: " +:+ error_message e;
            "❌ Failed to generate PDF: " +:+ error_message e])).
Proof.
  intros Hflags Hflag Hinput Hp Hfile. unfold Cli.main.
  rewrite parse_pairs, parse_dangling_output by done.
  split; [by apply plain_cli_dangling|by apply banded_cli_dangling].
Qed.

Lemma dangling_output_flag_fails_after_launch_witness :
  let w := (Cli.main (Cli.generatePlain Sample.env)
              ["-i"; "./resume.json"; "-o"]
              (initial Sample.emptyResumeOnDisk)).1 in
  last (calls w) = Some (ProcessExit 1) ∧ fs w = Sample.emptyResumeOnDisk.
Proof.
  intros w. subst w.
  pose proof (dangling_output_flag_fails_after_launch Sample.env
                [("-i", "./resume.json")] "-o" "./resume.json"
                Sample.emptyResumeOnDisk) as H.
  destruct H as [H _];
    [by repeat constructor|reflexivity|reflexivity|done|by eexists|].
  cbn [flatten app] in H. on_run_in H.
  destruct H as (? & _ & ? & _). done.
Defined.

(** The options up to the transient directory. *)
Lemma assign_ignores_tmp o1 o2 p :
  Cli.input o1 = Cli.input o2 → Cli.output o1 = Cli.output o2 →
  Cli.input (assign o1 p) = Cli.input (assign o2 p) ∧
  Cli.output (assign o1 p) = Cli.output (assign o2 p).
Proof.
  intros Hi Ho. destruct p as [flag v]. unfold assign.
  by destruct (is_input flag), (is_output flag), (is_tmp flag).
Qed.

Lemma parse_ignores_tmp args :
  (∀ o1 o2,
     Cli.input o1 = Cli.input o2 → Cli.output o1 = Cli.output o2 →
     match Cli.parseArgs args o1, Cli.parseArgs args o2 with
     | Cli.Exited c1 l1, Cli.Exited c2 l2 => c1 = c2 ∧ l1 = l2
     | Cli.Parsed p1, Cli.Parsed p2 =>
         Cli.input p1 = Cli.input p2 ∧ Cli.output p1 = Cli.output p2
     | _, _ => False
     end) ∧
  (∀ a o1 o2,
     Cli.input o1 = Cli.input o2 → Cli.output o1 = Cli.output o2 →
     match Cli.parseArgs (a :: args) o1, Cli.parseArgs (a :: args) o2 with
     | Cli.Exited c1 l1, Cli.Exited c2 l2 => c1 = c2 ∧ l1 = l2
     | Cli.Parsed p1, Cli.Parsed p2 =>
         Cli.input p1 = Cli.input p2 ∧ Cli.output p1 = Cli.output p2
     | _, _ => False
     end).
Proof.
  induction args as [|b args [IH1 IH2]].
  - split; [by intros|]. intros a o1 o2 Hi Ho. cbn [Cli.parseArgs].
    by destruct (Cli.is_flag "--help" "-h" a),
      (Cli.is_flag "--input" "-i" a), (Cli.is_flag "--output" "-o" a),
      (String.eqb a "--tmp-dir").
  - split; [apply IH2|]. intros a o1 o2 Hi Ho. rewrite !parseArgs_pair.
    destruct (is_help a); [done|]. destruct (takes_value a); [|done].
    by apply IH1; apply assign_ignores_tmp.
Qed.

Lemma plain_ignores_tmp (env : Env) input output t1 t2 :
  Cli.generatePlain env input output t1 = Cli.generatePlain env input output t2.
Proof. by destruct output. Qed.

Lemma banded_ignores_tmp (env : Env) input output t1 t2 :
  Cli.generateBanded env input output t1 = Cli.generateBanded env input output t2.
Proof. by destruct output. Qed.

Lemma plain_run_ignores_tmp (env : Env) o1 o2 :
  Cli.input o1 = Cli.input o2 → Cli.output o1 = Cli.output o2 →
  Cli.run (Cli.generatePlain env) o1 = Cli.run (Cli.generatePlain env) o2.
Proof.
  destruct o1 as [i1 out1 t1], o2 as [i2 out2 t2]. cbn. intros -> ->.
  unfold Cli.run. cbn [Cli.input Cli.output Cli.tmp].
  by rewrite (plain_ignores_tmp env _ _ t1 t2).
Qed.

Lemma banded_run_ignores_tmp (env : Env) o1 o2 :
  Cli.input o1 = Cli.input o2 → Cli.output o1 = Cli.output o2 →
  Cli.run (Cli.generateBanded env) o1 = Cli.run (Cli.generateBanded env) o2.
Proof.
  destruct o1 as [i1 out1 t1], o2 as [i2 out2 t2]. cbn. intros -> ->.
  unfold Cli.run. cbn [Cli.input Cli.output Cli.tmp].
  by rewrite (banded_ignores_tmp env _ _ t1 t2).
Qed.

(** X23. [--tmp-dir] has no effect on the script: the input always
    reaches [generateResumePDF] as a path, and the transient directory
    is used for in-memory resumes only.  Taking the flag and its value
    out of the arguments changes nothing in what the script does. *)
Theorem tmp_dir_option_has_no_effect (env : Env)
    (pairs : list (string * string)) (t : string) (rest : list string)
    (w : World) :
  Forall (λ p, takes_value p.1 = true) pairs →
  Cli.main (Cli.generatePlain env) (flatten pairs ++ "--tmp-dir" :: t :: rest) w
  = Cli.main (Cli.generatePlain env) (flatten pairs ++ rest) w ∧
  Cli.main (Cli.generateBanded env) (flatten pairs ++ "--tmp-dir" :: t :: rest) w
  = Cli.main (Cli.generateBanded env) (flatten pairs ++ rest) w.
Proof.
  intros Hflags. unfold Cli.main. rewrite !parse_pairs by done.
  rewrite parseArgs_pair.
  change (is_help "--tmp-dir") with false.
  change (takes_value "--tmp-dir") with true. cbv iota.
  pose proof (proj1 (parse_ignores_tmp rest)
                (assign (fold_left assign pairs Cli.defaults) ("--tmp-dir", t))
                (fold_left assign pairs Cli.defaults) eq_refl eq_refl) as H.
  destruct (Cli.parseArgs rest (assign _ _)) as [o1|c1 l1],
    (Cli.parseArgs rest (fold_left _ _ _)) as [o2|c2 l2]; try done.
  - destruct H as [Hi Ho].
    by rewrite (plain_run_ignores_tmp env o1 o2),
      (banded_run_ignores_tmp env o1 o2).
  - by destruct H as [-> ->].
Qed.

Lemma tmp_dir_option_has_no_effect_witness :
  Cli.main (Cli.generatePlain Sample.env)
    ["-i"; "./resume.json"; "--tmp-dir"; "/var/tmp"; "-o"; "/out/resume.pdf"]
    (initial Sample.emptyResumeOnDisk) =
  Cli.main (Cli.generatePlain Sample.env)
    ["-i"; "./resume.json"; "-o"; "/out/resume.pdf"]
    (initial Sample.emptyResumeOnDisk).
Proof.
  apply (tmp_dir_option_has_no_effect Sample.env [("-i", "./resume.json")]
           "/var/tmp" ["-o"; "/out/resume.pdf"]).
  by repeat constructor.
Defined.

End OnGeneration.

(** ** The export that takes its paths *)

Ltac iconic_start H :=
  unfold Iconic.exportPDF in H; cbn [default] in H.

Ltac solve_path_outcome :=
  cbn [is_ok app] in *;
  split; [reflexivity|];
  first
    [ left; settle_checks; eexists _, _; repeat split; reflexivity
    | right; eexists; split; [reflexivity|];
      split; [let Hin := fresh in intros Hin; not_in_trace Hin|];
      split; [let q := fresh in let Hin := fresh in
              intros q Hin; not_in_trace Hin|reflexivity] ].

Section TakesPaths.
Import Js Str Header Sys Spec.

Lemma path_export_outcome (env : Env) (resumePath outputPath : option string)
    (files : gmap string node) :
  let p := default "./resume.json" resumePath in
  let out := default "./resume.pdf" outputPath in
  let '(w, r) := Iconic.exportPDF env resumePath outputPath (initial files) in
  r = Ok () ∧
  ((∃ html o,
      calls w = [ExistsSync p true; ReadFile p; Launch; NewPage;
                 SetContent html; PagePdf html o; BrowserClose] ∧
      path o = out ∧
      fs w = <[out := File (pdf_bytes env html o)]> files ∧
      engines w = 0 ∧
      console w = ["✅ PDF exported successfully to " +:+ out]) ∨
   (∃ e, last (calls w) = Some (ProcessExit 1) ∧
      (BrowserClose ∉ calls w) ∧
      (∀ q, Mkdir q ∉ calls w) ∧
      console w = ["❌ Error exporting PDF: " +:+ error_message e])).
Proof.
  intros p out. subst p out.
  destruct (Iconic.exportPDF _ _ _ _) as [w r] eqn:H.
  iconic_start H. run_inv.
  all: solve_path_outcome.
Qed.

(** X24. The export that takes its paths either goes through or exits
    with code 1; it never rejects.  When it goes through, the calls are
    exactly: the existence check of the resume, its read, launch, new
    page, set the content, print, close; the PDF is at the output path,
    whose directory is never created, and the one line printed names
    that path.  Paths left undefined are [./resume.json] and
    [./resume.pdf]. *)
Theorem path_export_succeeds_or_exits_1 (env : Env)
    (resumePath outputPath : option string) (files : gmap string node) :
  let p := default "./resume.json" resumePath in
  let out := default "./resume.pdf" outputPath in
  let '(w, r) := Iconic.exportPDF env resumePath outputPath (initial files) in
  r = Ok () ∧
  ((∃ html o,
      calls w = [ExistsSync p true; ReadFile p; Launch; NewPage;
                 SetContent html; PagePdf html o; BrowserClose] ∧
      path o = out ∧
      fs w = <[out := File (pdf_bytes env html o)]> files ∧
      engines w = 0 ∧
      console w = ["✅ PDF exported successfully to " +:+ out]) ∨
   (∃ e, last (calls w) = Some (ProcessExit 1) ∧
      (BrowserClose ∉ calls w) ∧
      (∀ q, Mkdir q ∉ calls w) ∧
      console w = ["❌ Error exporting PDF: " +:+ error_message e])).
Proof. apply path_export_outcome. Qed.

(** X25. When nothing exists at the path of the resume, the export that
    takes its paths prints that the resume was not found there and exits
    with code 1 after the one existence check: nothing is read, launched
    or written. *)
Theorem path_export_without_input (env : Env) (p : string)
    (outputPath : option string) (files : gmap string node) :
  files !! p = None →
  Iconic.exportPDF env (Some p) outputPath (initial files) =
  (stopped files
     ["❌ Error exporting PDF: Resume file not found at: " +:+ p]
     [ExistsSync p false; ProcessExit 1], Ok ()).
Proof.
  intros Hfile. unfold Iconic.exportPDF, try_catch, mbind, M_bind, existsSync.
  change (default "./resume.json" (Some p)) with p. cbv zeta.
  cbn [fs initial]. rewrite Hfile.
  by rewrite bool_decide_eq_false_2 by by intros [? [=]].
Qed.

Lemma path_export_without_input_witness :
  calls (Iconic.exportPDF Sample.env (Some "./resume.json") None (initial ∅)).1
  = [ExistsSync "./resume.json" false; ProcessExit 1].
Proof.
  by rewrite (path_export_without_input Sample.env "./resume.json" None ∅).
Defined.

(** X26. The command line of the export that takes its paths: the first
    two arguments are the path of the resume and the path of the PDF, an
    argument that is missing or empty stands for [./resume.json] and
    [./resume.pdf], which are also the defaults of the function, and
    further arguments are ignored. *)
Theorem path_export_entry_defaults (env : Env) :
  Iconic.main env [] = Iconic.exportPDF env None None ∧
  Iconic.main env [""; ""] = Iconic.main env [] ∧
  (∀ a, Iconic.main env [a] = Iconic.main env [a; ""]) ∧
  (∀ a b rest, Iconic.main env (a :: b :: rest) = Iconic.main env [a; b]) ∧
  (∀ a b, a ≠ "" → b ≠ "" →
          Iconic.main env [a; b] = Iconic.exportPDF env (Some a) (Some b)).
Proof.
  repeat split; try done.
  intros a b Ha%String.eqb_neq Hb%String.eqb_neq.
  unfold Iconic.main, Iconic.orElse. cbn [lookup list_lookup].
  by rewrite Ha, Hb.
Qed.

Lemma path_export_entry_defaults_witness :
  Iconic.main Sample.env ["in.json"; "out.pdf"] =
  Iconic.exportPDF Sample.env (Some "in.json") (Some "out.pdf").
Proof.
  by apply (path_export_entry_defaults Sample.env).
Defined.

Lemma append_empty (a b : string) : a +:+ b = "" → a = "" ∧ b = "".
Proof.
  destruct a; [by rewrite append_nil_l|]. by rewrite append_cons.
Qed.

Lemma iconic_linkedinLink_nonempty url s : Iconic.linkedinLink url +:+ s ≠ "".
Proof.
  unfold Iconic.linkedinLink. intros [[H _]%append_empty _]%append_empty.
  by vm_compute in H.
Qed.

Lemma iconic_githubLink_nonempty url s : s +:+ Iconic.githubLink url ≠ "".
Proof.
  unfold Iconic.githubLink. intros [_ [H _]%append_empty]%append_empty.
  by vm_compute in H.
Qed.

Lemma linkedinPart_alike basics :
  alike (linkedinPart basics) (Iconic.linkedinPart basics).
Proof.
  unfold linkedinPart, Iconic.linkedinPart, alike.
  destruct (get "profiles" basics) as [profiles|]; [|done]. rewrite !bind_Ok.
  destruct (truthy profiles); [|done].
  destruct (profiles_find _ profiles) as [linkedin|]; [|done]. rewrite !bind_Ok.
  destruct (truthy linkedin); [|done].
  destruct (get "url" linkedin) as [url|]; [|done]. rewrite !bind_Ok.
  split; intros H; exfalso.
  - apply append_empty in H as [H _]. by apply linkedinLink_nonempty in H.
  - by apply iconic_linkedinLink_nonempty in H.
Qed.

Lemma githubPart_alike basics :
  alike (githubPart basics) (Iconic.githubPart basics).
Proof.
  unfold githubPart, Iconic.githubPart, alike.
  destruct (get "profiles" basics) as [profiles|]; [|done]. rewrite !bind_Ok.
  destruct (truthy profiles); [|done].
  destruct (profiles_find _ profiles) as [github|]; [|done]. rewrite !bind_Ok.
  destruct (truthy github); [|done].
  destruct (get "url" github) as [url|]; [|done]. rewrite !bind_Ok.
  split; intros H; exfalso.
  - apply append_empty in H as [_ H]. by apply githubLink_nonempty in H.
  - by apply iconic_githubLink_nonempty in H.
Qed.

(** X27. The header strip with the drawn icons and the one with the
    emoji take the same resumes: on the same [basics] they fail with the
    same error, or both are built, and then one is empty exactly when
    the other is. *)
Theorem strips_take_the_same_resumes (basics : value) :
  alike (contactInfo basics) (Iconic.contactInfo basics).
Proof.
  unfold contactInfo, Iconic.contactInfo.
  pose proof (linkedinPart_alike basics) as Hl.
  pose proof (githubPart_alike basics) as Hg.
  unfold alike in *.
  destruct (linkedinPart basics) as [l|], (Iconic.linkedinPart basics) as [l'|];
    try done.
  rewrite !bind_Ok. destruct (phonePart basics) as [p|]; [|done].
  rewrite !bind_Ok. destruct (emailPart basics) as [e|]; [|done].
  rewrite !bind_Ok.
  destruct (githubPart basics) as [g|], (Iconic.githubPart basics) as [g'|];
    try done.
  rewrite !bind_Ok. rewrite !append_nil_l.
  split; intros [[[H1 ->]%append_empty ->]%append_empty H4]%append_empty.
  - apply Hl in H1 as ->. by apply Hg in H4 as ->.
  - apply Hl in H1 as ->. by apply Hg in H4 as ->.
Qed.

End TakesPaths.
